(** * Element-wise float addition benchmark: scalar and SSE kernels

    A shallow embedding of [simd/compute_simple.c] and [simd/compute_sse.c]
    and the properties of their kernels and drivers.

    Target: x86-64, LP64 ([size_t] and [long long] 64 bits, [int] 32 bits,
    [float] IEEE-754 binary32, [double] binary64), round-to-nearest-even.
    Floating-point values and operations are the ones of [SpecFloat]. *)

From Stdlib Require Import ZArith Lia Bool SpecFloat String Ascii.
From stdpp Require Import gmap list strings.

Open Scope Z_scope.

(** ** Machine integers *)

Definition SIZE_WIDTH : Z := 64.
Definition INT_MAX : Z := 2 ^ 31 - 1.
Definition INT_MIN : Z := - 2 ^ 31.
Definition LLONG_MAX : Z := 2 ^ 63 - 1.
Definition LLONG_MIN : Z := - 2 ^ 63.

(** Conversion to [size_t]: reduction modulo [2^64]. *)
Definition to_size_t (z : Z) : Z := z mod 2 ^ SIZE_WIDTH.

(** Conversion to [int]: implementation-defined when the value does not fit;
    gcc and clang reduce modulo [2^32] into [INT_MIN .. INT_MAX]. *)
Definition to_int (z : Z) : Z := (z + 2 ^ 31) mod 2 ^ 32 - 2 ^ 31.

Definition sizeof_float : Z := 4.

(** ** Floating point *)

Abbreviation float32 := spec_float (only parsing).
Abbreviation float64 := spec_float (only parsing).

Definition prec32 : Z := 24.
Definition emax32 : Z := 128.
Definition prec64 : Z := 53.
Definition emax64 : Z := 1024.

Definition f32_add : float32 -> float32 -> float32 := SFadd prec32 emax32.
Definition f32_mul : float32 -> float32 -> float32 := SFmul prec32 emax32.
(** [(float)z] for an integer [z]. *)
Definition f32_of_Z (z : Z) : float32 := binary_normalize prec32 emax32 z 0 false.
(** C's [==] on floats. *)
Definition f32_eqb : float32 -> float32 -> bool := SFeqb.

Definition f64_add : float64 -> float64 -> float64 := SFadd prec64 emax64.
Definition f64_sub : float64 -> float64 -> float64 := SFsub prec64 emax64.
Definition f64_div : float64 -> float64 -> float64 := SFdiv prec64 emax64.
Definition f64_of_Z (z : Z) : float64 := binary_normalize prec64 emax64 z 0 false.

(** Promotion of a [float] argument of [printf] to [double] (exact). *)
Definition f32_to_f64 (x : float32) : float64 :=
  match x with
  | S754_finite s m e => binary_round prec64 emax64 s m e
  | _ => x
  end.

(** ** Memory

    A block is one allocation; block identifiers are indices in the heap, in
    allocation order.  A buffer records its base address, its size in bytes
    and the [float] cells written since it was allocated: a cell that is
    absent from [buf_data] has never been written (indeterminate content). *)

Abbreviation block := nat (only parsing).

Record buffer := {
  buf_base : Z;
  buf_size : Z;
  buf_data : gmap Z spec_float
}.

(** The value of a pointer variable: the base of a block, or [Wild] for a
    variable that was never assigned (as [data1] after a failed
    [posix_memalign]). *)
Inductive ptr := Wild | Ptr (b : block).

Inductive arg :=
  | ArgStr (s : string)
  | ArgULong (n : Z)
  | ArgDouble (d : spec_float).

Record state := {
  st_heap : list buffer;           (* live blocks, by block identifier *)
  st_brk : Z;                      (* lowest address not handed out yet *)
  st_avail : Z;                    (* bytes the allocator can still grant *)
  st_clock : list (Z * Z);         (* coming [gettimeofday] readings *)
  st_out : list (string * list arg); (* [printf] calls, most recent first *)
  st_iter : Z                      (* loop bodies entered so far *)
}.

Definition set_heap (h : list buffer) (s : state) : state :=
  {| st_heap := h; st_brk := st_brk s; st_avail := st_avail s;
     st_clock := st_clock s; st_out := st_out s; st_iter := st_iter s |}.

Definition add_iter (k : Z) (s : state) : state :=
  {| st_heap := st_heap s; st_brk := st_brk s; st_avail := st_avail s;
     st_clock := st_clock s; st_out := st_out s; st_iter := st_iter s + k |}.

Definition add_out (l : string * list arg) (s : state) : state :=
  {| st_heap := st_heap s; st_brk := st_brk s; st_avail := st_avail s;
     st_clock := st_clock s; st_out := l :: st_out s; st_iter := st_iter s |}.

Definition set_clock (c : list (Z * Z)) (s : state) : state :=
  {| st_heap := st_heap s; st_brk := st_brk s; st_avail := st_avail s;
     st_clock := c; st_out := st_out s; st_iter := st_iter s |}.

(** ** Computations: state passing with faults

    A fault stands for undefined behaviour of the C program; the state at the
    fault is kept. The model stops at the first access that C leaves
    undefined or indeterminate (outside a block, or to a cell never
    written); the compiled program has no such test and may go on. A
    statement that is to hold of the program must therefore not rest on the
    model having stopped: the properties below either concern runs that stay
    inside their buffers, or hold whatever the outcome, or concern faults of
    the machine itself (a pointer never set, a misaligned vector access, an
    overrun of the whole address space). [OutOfFuel] never comes from the C
    program: it only says that a loop of the model was given too little
    fuel. *)

Inductive fault :=
  | WildPointer | OutOfBounds | Misaligned | Uninitialised | OutOfFuel.

Inductive result (A : Type) := Ok (a : A) | Crash (f : fault).
Arguments Ok {A} a.
Arguments Crash {A} f.

Definition M (A : Type) : Type := state -> result A * state.

Global Instance M_ret : MRet M := fun A a s => (Ok a, s).
Global Instance M_bind : MBind M := fun A B k m s =>
  match m s with
  | (Ok a, s') => k a s'
  | (Crash f, s') => (Crash f, s')
  end.

Definition crash {A} (f : fault) : M A := fun s => (Crash f, s).

(** Entering a loop body. *)
Definition tick : M unit := fun s => (Ok tt, add_iter 1 s).

(** [for (i = i0; cond i; i = incr i) body i]. *)
Fixpoint for_loop (fuel : nat) (cond : Z -> bool) (incr : Z -> Z)
    (body : Z -> M unit) (i : Z) : M unit :=
  if cond i then
    match fuel with
    | O => crash OutOfFuel
    | S fuel' => tick ;; body i ;; for_loop fuel' cond incr body (incr i)
    end
  else mret tt.

(** *** Scalar accesses

    The source tests neither bounds nor whether a cell was written: the
    tests below are the model's, and mark the accesses that C leaves
    undefined or indeterminate. *)

Definition deref (p : ptr) : M (block * buffer) := fun s =>
  match p with
  | Wild => (Crash WildPointer, s)
  | Ptr b =>
    match st_heap s !! b with
    | Some buf => (Ok (b, buf), s)
    | None => (Crash WildPointer, s)
    end
  end.

(** Elements [i .. i + width - 1] lie inside the buffer. *)
Definition in_bounds (buf : buffer) (i width : Z) : bool :=
  (0 <=? i) && (sizeof_float * (i + width) <=? buf_size buf).

Definition write_cell (i : Z) (v : spec_float) (buf : buffer) : buffer :=
  {| buf_base := buf_base buf; buf_size := buf_size buf;
     buf_data := <[i := v]> (buf_data buf) |}.

(** Replace the content of block [b]. *)
Definition put (b : block) (buf : buffer) : M unit := fun s =>
  (Ok tt, set_heap (<[b := buf]> (st_heap s)) s).

(** [p[i]] as an rvalue. *)
Definition load (p : ptr) (i : Z) : M spec_float :=
  '(b, buf) ← deref p;
  if in_bounds buf i 1 then
    match buf_data buf !! i with
    | Some v => mret v
    | None => crash Uninitialised
    end
  else crash OutOfBounds.

(** [p[i] = v]. *)
Definition store (p : ptr) (i : Z) (v : spec_float) : M unit :=
  '(b, buf) ← deref p;
  if in_bounds buf i 1 then
    put b (write_cell i v buf)
  else crash OutOfBounds.

(** *** SSE intrinsics

    The alignment test is the machine's ([movaps] traps on an address that
    is no multiple of 16); the tests on bounds and on written cells are the
    model's, as for the scalar accesses. *)

Record __m128 := {
  lane0 : spec_float; lane1 : spec_float; lane2 : spec_float; lane3 : spec_float
}.

(** The address of [p[i]] is a multiple of 16. *)
Definition aligned16 (buf : buffer) (i : Z) : bool :=
  (buf_base buf + sizeof_float * i) mod 16 =? 0.

(** [_mm_load_ps(&p[i])]. *)
Definition _mm_load_ps (p : ptr) (i : Z) : M __m128 :=
  '(b, buf) ← deref p;
  if negb (aligned16 buf i) then crash Misaligned
  else if negb (in_bounds buf i 4) then crash OutOfBounds
  else
    match buf_data buf !! i, buf_data buf !! (i + 1),
          buf_data buf !! (i + 2), buf_data buf !! (i + 3) with
    | Some v0, Some v1, Some v2, Some v3 =>
      mret {| lane0 := v0; lane1 := v1; lane2 := v2; lane3 := v3 |}
    | _, _, _, _ => crash Uninitialised
    end.

Definition _mm_add_ps (x y : __m128) : __m128 :=
  {| lane0 := f32_add (lane0 x) (lane0 y); lane1 := f32_add (lane1 x) (lane1 y);
     lane2 := f32_add (lane2 x) (lane2 y); lane3 := f32_add (lane3 x) (lane3 y) |}.

Definition write_lanes (i : Z) (v : __m128) (buf : buffer) : buffer :=
  write_cell (i + 3) (lane3 v) (write_cell (i + 2) (lane2 v)
    (write_cell (i + 1) (lane1 v) (write_cell i (lane0 v) buf))).

(** [_mm_store_ps(&p[i], v)]. *)
Definition _mm_store_ps (p : ptr) (i : Z) (v : __m128) : M unit :=
  '(b, buf) ← deref p;
  if negb (aligned16 buf i) then crash Misaligned
  else if negb (in_bounds buf i 4) then crash OutOfBounds
  else put b (write_lanes i v buf).

(** ** C library *)

Definition EINVAL : Z := 22.
Definition ENOMEM : Z := 12.
Definition sizeof_ptr : Z := 8.

Definition valid_alignment (a : Z) : bool :=
  (0 <? a) && (Z.land a (a - 1) =? 0) && (a mod sizeof_ptr =? 0).

Definition round_up (x a : Z) : Z := (x + a - 1) / a * a.

Definition fresh_buffer (base size : Z) : buffer :=
  {| buf_base := base; buf_size := size; buf_data := ∅ |}.

Definition grant (alignment size : Z) (s : state) : state :=
  let base := round_up (st_brk s) alignment in
  {| st_heap := st_heap s ++ [fresh_buffer base size];
     st_brk := base + Z.max size 1;
     st_avail := st_avail s - size;
     st_clock := st_clock s; st_out := st_out s; st_iter := st_iter s |}.

(** [posix_memalign(&memptr, alignment, size)]: the status and the new value
    of [memptr], which is left as it was when the call fails.  A request is
    granted when the alignment is valid and the platform still has [size]
    bytes; the block is then fresh, aligned and uninitialised. *)
Definition posix_memalign (memptr : ptr) (alignment size : Z) : M (Z * ptr) := fun s =>
  if negb (valid_alignment alignment) then (Ok (EINVAL, memptr), s)
  else if st_avail s <? size then (Ok (ENOMEM, memptr), s)
  else (Ok (0, Ptr (length (st_heap s))), grant alignment size s).

(** [gettimeofday]: seconds and microseconds; the epoch once the readings
    provided by the platform are used up. *)
Definition gettimeofday : M (Z * Z) := fun s =>
  (Ok (hd (0, 0) (st_clock s)), set_clock (tl (st_clock s)) s).

Definition printf (fmt : string) (args : list arg) : M unit := fun s =>
  (Ok tt, add_out (fmt, args) s).

Definition isspace (c : ascii) : bool :=
  let n := Z.of_N (N_of_ascii c) in (n =? 32) || ((9 <=? n) && (n <=? 13)).

Definition digit_val (c : ascii) : option Z :=
  let n := Z.of_N (N_of_ascii c) in
  if (48 <=? n) && (n <=? 57) then Some (n - 48) else None.

Fixpoint skip_space (s : string) : string :=
  match s with
  | String c s' => if isspace c then skip_space s' else s
  | EmptyString => s
  end.

Fixpoint digits (acc : Z) (s : string) : Z :=
  match s with
  | String c s' =>
    match digit_val c with
    | Some d => digits (10 * acc + d) s'
    | None => acc
    end
  | EmptyString => acc
  end.

Definition clamp_llong (z : Z) : Z := Z.max LLONG_MIN (Z.min LLONG_MAX z).

(** [atoll]: leading white space, an optional sign, then the longest run of
    decimal digits (0 when there is none); out-of-range values saturate, as
    with glibc, where [atoll] is [strtoll(s, NULL, 10)]. *)
Definition atoll (s : string) : Z :=
  match skip_space s with
  | String "-"%char s' => clamp_llong (- digits 0 s')
  | String "+"%char s' => clamp_llong (digits 0 s')
  | s' => clamp_llong (digits 0 s')
  end.

Definition LF : string := String (ascii_of_nat 10) EmptyString.

(** ** Both programs: [get_timestamp] *)

Definition get_timestamp : M spec_float :=
  tv ← gettimeofday;
  mret (f64_add (f64_of_Z tv.1) (f64_div (f64_of_Z tv.2) (f64_of_Z 1000000))).

(** ** compute_simple.c *)

Definition compute (r a b : ptr) (n : Z) : M unit :=
  for_loop (Z.to_nat n) (fun i => i <? n) (fun i => to_size_t (i + 1))
    (fun i =>
       x ← load a i;
       y ← load b i;
       store r i (f32_add x y))
    0.

(** The three allocations of [main] (lines 37-39; 46-48 in compute_sse.c).
    The status [dummy] is overwritten and never read. *)
Definition allocate (n : Z) : M (ptr * ptr * ptr) :=
  '(dummy, data1) ← posix_memalign Wild 32 (to_size_t (sizeof_float * n));
  '(dummy, data2) ← posix_memalign Wild 32 (to_size_t (sizeof_float * n));
  '(dummy, result) ← posix_memalign Wild 32 (to_size_t (sizeof_float * n));
  mret (data1, data2, result).

(** The initialisation loop of [main] (lines 41-44; 50-53 in compute_sse.c). *)
Definition fill (data1 data2 : ptr) (n : Z) : M unit :=
  for_loop (Z.to_nat n) (fun i => i <? n) (fun i => to_size_t (i + 1))
    (fun i =>
       store data1 i (f32_of_Z i) ;;
       store data2 i (f32_mul (f32_of_Z i) (f32_of_Z 2)))
    0.

(** Lines 37-54 of [main]: allocation, initialisation and the timed call. *)
Definition run_scalar (n : Z) : M (spec_float * ptr) :=
  '(data1, data2, result) ← allocate n;
  fill data1 data2 n ;;
  start_t ← get_timestamp;
  compute result data1 data2 n ;;
  end_t ← get_timestamp;
  mret (f64_sub end_t start_t, result).

(** The last [printf] of [main]. *)
Definition print_first4 (result : ptr) : M unit :=
  r0 ← load result 0;
  r1 ← load result 1;
  r2 ← load result 2;
  r3 ← load result 3;
  printf (String.append "%f %f %f %f" LF)
    [ArgDouble (f32_to_f64 r0); ArgDouble (f32_to_f64 r1);
     ArgDouble (f32_to_f64 r2); ArgDouble (f32_to_f64 r3)].

(** [main] of compute_simple.c; [prog] is [argv[0]] and [args] the rest of
    [argv], so that [argc] is [1 + length args]. *)
Definition main_simple (prog : string) (args : list string) : M Z :=
  match args with
  | [] =>
    printf (String.append "Usage: %s <number of items in table>" LF) [ArgStr prog] ;;
    mret 1
  | arg1 :: _ =>
    let n := to_size_t (atoll arg1) in
    printf (String.append "Using a table of %lu floats" LF) [ArgULong n] ;;
    '(diff_t, result) ← run_scalar n;
    printf (String.append "Execution time : %f seconds" LF) [ArgDouble diff_t] ;;
    print_first4 result ;;
    mret 0
  end.

(** ** compute_sse.c *)

Definition nb_items : Z := 128 / (sizeof_float * 8).

(** [nsse] for the [int] argument [n]: [n] is converted to [size_t] by the
    division. *)
Definition nsse_of (n : Z) : Z := to_size_t (to_size_t n / nb_items * nb_items).

Definition compute_sse (r a b : ptr) (n : Z) : M unit :=
  let nsse := nsse_of n in
  for_loop (Z.to_nat (nsse / 4)) (fun i => i <? nsse) (fun i => to_size_t (i + 4))
    (fun i =>
       sse_a ← _mm_load_ps a i;
       sse_b ← _mm_load_ps b i;
       let sse_r := _mm_add_ps sse_a sse_b in
       _mm_store_ps r i sse_r)
    0.

(** Lines 46-64 of [main]; the call converts the [size_t] count to the [int]
    parameter of [compute_sse]. *)
Definition run_vectorized (n : Z) : M (spec_float * ptr) :=
  '(data1, data2, result) ← allocate n;
  fill data1 data2 n ;;
  start_t ← get_timestamp;
  compute_sse result data1 data2 (to_int n) ;;
  end_t ← get_timestamp;
  mret (f64_sub end_t start_t, result).

Definition main_sse (prog : string) (args : list string) : M Z :=
  match args with
  | [] =>
    printf (String.append "Usage: %s <number of items in table>" LF) [ArgStr prog] ;;
    mret 1
  | arg1 :: _ =>
    let n := to_size_t (atoll arg1) in
    printf (String.append "Using a table of %lu floats" LF) [ArgULong n] ;;
    '(diff_t, result) ← run_vectorized n;
    printf (String.append "Execution time using manual sse: %f seconds" LF)
      [ArgDouble diff_t] ;;
    print_first4 result ;;
    mret 0
  end.

(** ** Platforms used in examples *)

(** A platform with [avail] bytes to hand out and nothing allocated. *)
Definition boot (avail : Z) : state :=
  {| st_heap := []; st_brk := 4096; st_avail := avail;
     st_clock := [(100, 250000); (100, 750000)]; st_out := []; st_iter := 0 |}.

(** The example platform with the blocks [h] allocated. *)
Definition with_heap (h : list buffer) : state := set_heap h (boot 0).

(** The cells [0 .. n-1] of a block, for small [n]. *)
Definition cells (s : state) (b : block) (n : nat) : list (option spec_float) :=
  match st_heap s !! b with
  | Some buf => (fun i : nat => buf_data buf !! Z.of_nat i) <$> seq 0 n
  | None => []
  end.

(** ** Definitions used in the statements and proofs *)

(** A shift record with no round and no sticky bit. *)
Definition rec0 (m : Z) : shr_record := {| shr_m := m; shr_r := false; shr_s := false |}.

(** The first shift of the rounding of [p] to 24 bits. *)
Definition cut24 (p : positive) : shr_record :=
  fst (shr (rec0 (Zpos p)) 0 (Zpos (digits2_pos p) - 24)).

Definition f32_two : spec_float := S754_finite false 8388608 (-22).

(** The cells [0 .. k-1] set to [f], the others as in [d]. *)
Fixpoint gen_data (f : Z -> spec_float) (k : nat) (d : gmap Z spec_float)
    : gmap Z spec_float :=
  match k with
  | O => d
  | S k' => <[Z.of_nat k' := f (Z.of_nat k')]> (gen_data f k' d)
  end.

Definition gen_buf (f : Z -> spec_float) (k : nat) (buf : buffer) : buffer :=
  {| buf_base := buf_base buf; buf_size := buf_size buf;
     buf_data := gen_data f k (buf_data buf) |}.

(** The content of a cell, for cells known to be written. *)
Definition rd (buf : buffer) (i : Z) : spec_float :=
  default S754_nan (buf_data buf !! i).

(** What the initialisation loop writes. *)
Definition val1 (i : Z) : spec_float := f32_of_Z i.
Definition val2 (i : Z) : spec_float := f32_mul (f32_of_Z i) (f32_of_Z 2).

(** What a kernel writes at index [i] from the buffers [a] and [b]. *)
Definition sum_of (a b : buffer) (i : Z) : spec_float := f32_add (rd a i) (rd b i).

(** The state after [k] iterations of the initialisation loop on the blocks
    [b1] and [b2], whose buffers were [B1] and [B2]. *)
Definition fill_state (b1 b2 : block) (B1 B2 : buffer) (k : nat) (s : state) : state :=
  set_heap (<[b2 := gen_buf val2 k B2]> (<[b1 := gen_buf val1 k B1]> (st_heap s)))
    (add_iter (Z.of_nat k) s).

(** The state after a kernel has entered [iters] loop bodies and written the
    first [k] cells of block [r], whose buffer was [R], from [A] and [B]. *)
Definition kernel_state (r : block) (R A B : buffer) (iters k : nat) (s : state) : state :=
  set_heap (<[r := gen_buf (sum_of A B) k R]> (st_heap s)) (add_iter (Z.of_nat iters) s).

(** Cells [0 .. n-1] of a buffer have been written. *)
Definition initialised (buf : buffer) (n : Z) : Prop :=
  forall i, 0 <= i < n -> is_Some (buf_data buf !! i).

(** The state after three granted requests of [size] bytes, aligned on 32. *)
Definition granted3 (size : Z) (s : state) : state :=
  let b1 := round_up (st_brk s) 32 in
  let b2 := round_up (b1 + Z.max size 1) 32 in
  let b3 := round_up (b2 + Z.max size 1) 32 in
  {| st_heap := st_heap s ++
       [fresh_buffer b1 size; fresh_buffer b2 size; fresh_buffer b3 size];
     st_brk := b3 + Z.max size 1;
     st_avail := st_avail s - size - size - size;
     st_clock := st_clock s; st_out := st_out s; st_iter := st_iter s |}.

(** A block as [posix_memalign] hands it out for [n] floats. *)
Definition fresh_for (n : Z) (buf : buffer) : Prop :=
  buf_size buf = sizeof_float * n /\ buf_data buf = ∅ /\ buf_base buf mod 32 = 0.

(** The value [get_timestamp] computes from a reading. *)
Definition stamp (tv : Z * Z) : spec_float :=
  f64_add (f64_of_Z tv.1) (f64_div (f64_of_Z tv.2) (f64_of_Z 1000000)).

(** [s'] differs from [s] at most in the content of the block [r] points to
    and in the iteration counter. *)
Definition same_but (r : ptr) (s s' : state) : Prop :=
  length (st_heap s') = length (st_heap s) /\
  st_brk s' = st_brk s /\ st_avail s' = st_avail s /\
  st_clock s' = st_clock s /\ st_out s' = st_out s /\
  forall p, Ptr p <> r -> st_heap s' !! p = st_heap s !! p.


(** Three fresh buffers of [n] floats on the example platform, the first two
    filled by the input generator. *)
Definition prepared (n : Z) : state :=
  snd ((allocate n ≫= fun '(data1, data2, result) => fill data1 data2 n) (boot 1000)).

(** The lines the drivers print. *)
Definition usage_line (prog : string) : string * list arg :=
  (String.append "Usage: %s <number of items in table>" LF, [ArgStr prog]).

Definition using_line (n : Z) : string * list arg :=
  (String.append "Using a table of %lu floats" LF, [ArgULong n]).

(** A rejected invocation: a non-zero exit status, the usage message as the
    only effect (so nothing allocated, nothing computed). *)
Definition rejected (main : string -> list string -> M Z)
    (prog : string) (args : list string) (s : state) : Prop :=
  exists code, main prog args s = (Ok code, add_out (usage_line prog) s) /\ code <> 0.

(** An aborted run: a non-zero exit status before any loop body (of the
    initialisation or of a kernel) was entered. *)
Definition aborted (main : string -> list string -> M Z)
    (prog : string) (args : list string) (s : state) : Prop :=
  exists code s', main prog args s = (Ok code, s') /\ code <> 0 /\ st_iter s' = st_iter s.

(** The first character of a string that [atoll] cannot start a number with. *)
Definition no_number_start (c : ascii) : Prop :=
  isspace c = false /\ digit_val c = None /\ c <> "-"%char /\ c <> "+"%char.

(** The time the drivers report, from the clock readings still to come. *)
Definition elapsed (clock : list (Z * Z)) : spec_float :=
  f64_sub (stamp (hd (0, 0) (tl clock))) (stamp (hd (0, 0) clock)).

Definition time_line_simple (d : spec_float) : string * list arg :=
  (String.append "Execution time : %f seconds" LF, [ArgDouble d]).

Definition time_line_sse (d : spec_float) : string * list arg :=
  (String.append "Execution time using manual sse: %f seconds" LF, [ArgDouble d]).

(** The last line, for results that are the integers [z0 .. z3]. *)
Definition first4_line (z0 z1 z2 z3 : Z) : string * list arg :=
  (String.append "%f %f %f %f" LF,
   [ArgDouble (f64_of_Z z0); ArgDouble (f64_of_Z z1);
    ArgDouble (f64_of_Z z2); ArgDouble (f64_of_Z z3)]).

(** The blocks numbered [l0] and up start on a multiple of 16. *)
Definition aligned_from (l0 : nat) (s : state) : Prop :=
  forall b buf, (l0 <= b)%nat -> st_heap s !! b = Some buf -> buf_base buf mod 16 = 0.

(** A pointer that is unset or points to a block numbered [l0] or up. *)
Definition from_block (l0 : nat) (p : ptr) : Prop :=
  match p with Wild => True | Ptr b => (l0 <= b)%nat end.

(** A number that is not negative: zero, finite or infinite with the sign
    bit clear (so no NaN). *)
Definition not_negative (x : spec_float) : bool :=
  match x with
  | S754_zero false | S754_infinity false | S754_finite false _ _ => true
  | _ => false
  end.

(** The integer a floating-point number is, when it is one. *)
Definition f32_to_Z (x : spec_float) : option Z :=
  match x with
  | S754_zero _ => Some 0
  | S754_finite s m e =>
    if 0 <=? e then Some (cond_Zopp s (Zpos m * 2 ^ e))
    else if Zpos m mod 2 ^ (- e) =? 0 then Some (cond_Zopp s (Zpos m / 2 ^ (- e)))
    else None
  | _ => None
  end.

(** * Properties *)

(** ** binary32: doubling is exact *)

Lemma digits2_pos_log2 p : Zpos (digits2_pos p) = Z.log2 (Zpos p) + 1.
Proof.
  assert (H : forall q, digits2_pos q = Pos.size q).
  { induction q; simpl; congruence. }
  destruct p; simpl; rewrite ?H; lia.
Qed.

Lemma digits2_pos_bounds p :
  2 ^ (Zpos (digits2_pos p) - 1) <= Zpos p < 2 ^ Zpos (digits2_pos p).
Proof.
  rewrite digits2_pos_log2.
  replace (Z.log2 (Zpos p) + 1 - 1) with (Z.log2 (Zpos p)) by lia.
  apply Z.log2_spec. lia.
Qed.

Lemma digits2_pos_unique p d :
  2 ^ (d - 1) <= Zpos p < 2 ^ d -> Zpos (digits2_pos p) = d.
Proof.
  intros H. rewrite digits2_pos_log2.
  assert (0 <= d - 1).
  { destruct (Z_lt_le_dec (d - 1) 0) as [Hn|]; [|lia].
    destruct (Z_lt_le_dec d 0) as [Hd|Hd].
    - rewrite (Z.pow_neg_r 2 d) in H by lia. lia.
    - assert (d = 0) by lia. subst. simpl in H. lia. }
  rewrite (Z.log2_unique (Zpos p) (d - 1)); try lia.
  replace (Z.succ (d - 1)) with d by lia. exact H.
Qed.

Lemma shr_1_m mrs : 0 <= shr_m mrs -> shr_m (shr_1 mrs) = shr_m mrs / 2.
Proof.
  destruct mrs as [m r s]. simpl. intros Hm.
  destruct m as [|[p|p|]|]; cbn [shr_1 shr_m orb]; try lia; try reflexivity.
  - apply (Z.div_unique _ _ _ 1); lia.
  - apply (Z.div_unique _ _ _ 0); lia.
Qed.

Lemma pow2_xO k : 2 ^ Zpos k~0 = 2 ^ Zpos k * 2 ^ Zpos k.
Proof.
  replace (Zpos k~0) with (Zpos k + Zpos k) by lia.
  apply Z.pow_add_r; lia.
Qed.

Lemma pow2_xI k : 2 ^ Zpos k~1 = 2 * (2 ^ Zpos k * 2 ^ Zpos k).
Proof.
  replace (Zpos k~1) with (1 + (Zpos k + Zpos k)) by lia.
  rewrite Z.pow_add_r, Z.pow_add_r by lia. reflexivity.
Qed.

Lemma shr_1_nonneg mrs : 0 <= shr_m mrs -> 0 <= shr_m (shr_1 mrs).
Proof. intros Hm. rewrite shr_1_m by exact Hm. apply Z.div_pos; lia. Qed.

Lemma iter_pos_shr_m k : forall mrs,
  0 <= shr_m mrs -> shr_m (SpecFloat.iter_pos shr_1 k mrs) = shr_m mrs / 2 ^ Zpos k.
Proof.
  induction k as [k IH|k IH|]; intros mrs Hm; cbn [SpecFloat.iter_pos].
  - assert (H1 := shr_1_nonneg _ Hm).
    assert (0 <= shr_m (SpecFloat.iter_pos shr_1 k (shr_1 mrs))).
    { rewrite IH by auto. apply Z.div_pos; [auto | lia]. }
    rewrite IH, IH, shr_1_m by auto.
    rewrite !Z.div_div by lia. now rewrite pow2_xI.
  - assert (0 <= shr_m (SpecFloat.iter_pos shr_1 k mrs)).
    { rewrite IH by auto. apply Z.div_pos; [auto | lia]. }
    rewrite IH, IH by auto.
    rewrite Z.div_div by lia. now rewrite pow2_xO.
  - rewrite shr_1_m by auto. reflexivity.
Qed.

Lemma fexp32 e : fexp prec32 emax32 e = Z.max (e - 24) (-149).
Proof. reflexivity. Qed.

Lemma shr_fexp_stay (p : positive) e :
  Zpos (digits2_pos p) = 24 -> -149 <= e ->
  shr_fexp prec32 emax32 (Zpos p) e loc_Exact = (rec0 (Zpos p), e).
Proof.
  intros Hd He. unfold shr_fexp. rewrite fexp32. cbn [Zdigits2]. rewrite Hd.
  replace (Z.max (24 + e - 24) (-149) - e) with 0 by lia. reflexivity.
Qed.

Lemma round_aux_exact s (p : positive) e :
  Zpos (digits2_pos p) = 24 -> -149 <= e <= 104 ->
  binary_round_aux prec32 emax32 s (Zpos p) e loc_Exact = S754_finite s p e.
Proof.
  intros Hd He. unfold binary_round_aux.
  rewrite shr_fexp_stay by (auto; lia).
  cbn [rec0 shr_m loc_of_shr_record round_nearest_even].
  rewrite shr_fexp_stay by (auto; lia).
  cbn [rec0 shr_m]. 
  replace (e <=? emax32 - prec32) with true; [reflexivity|].
  symmetry. apply Z.leb_le. unfold emax32, prec32. lia.
Qed.

Lemma iter_shr_23 (m : positive) :
  SpecFloat.iter_pos shr_1 23 (rec0 (Zpos (8388608 * m))) = rec0 (Zpos m).
Proof. reflexivity. Qed.

Lemma mul_two (m : positive) e :
  Zpos (digits2_pos m) = 24 -> -150 <= e <= 103 ->
  f32_mul (S754_finite false m e) f32_two = S754_finite false m (e + 1).
Proof.
  intros Hd He. unfold f32_mul, f32_two, SFmul. cbn [xorb].
  unfold binary_round_aux.
  assert (Hd47 : Zpos (digits2_pos (m * 8388608)) = 47).
  { apply digits2_pos_unique. pose proof (digits2_pos_bounds m) as Hb.
    rewrite Hd in Hb. change (24 - 1) with 23 in Hb. change (47 - 1) with 46.
    rewrite Pos2Z.inj_mul.
    change (2 ^ 46) with (2 ^ 23 * 8388608). change (2 ^ 47) with (2 ^ 24 * 8388608).
    change (Zpos 8388608) with 8388608. lia. }
  assert (Hs : shr_fexp prec32 emax32 (Zpos (m * 8388608)) (e + -22) loc_Exact
               = (rec0 (Zpos m), e + 1)).
  { unfold shr_fexp. rewrite fexp32. cbn [Zdigits2]. rewrite Hd47.
    replace (Z.max (47 + (e + -22) - 24) (-149) - (e + -22)) with 23 by lia.
    cbn [shr shr_record_of_loc]. rewrite Pos.mul_comm.
    change {| shr_m := Zpos (8388608 * m); shr_r := false; shr_s := false |}
      with (rec0 (Zpos (8388608 * m))).
    rewrite iter_shr_23. f_equal. lia. }
  rewrite Hs. cbn [rec0 shr_m loc_of_shr_record round_nearest_even].
  rewrite shr_fexp_stay by (auto; lia).
  cbn [rec0 shr_m].
  replace (e + 1 <=? emax32 - prec32) with true; [reflexivity|].
  symmetry. apply Z.leb_le. unfold emax32, prec32. lia.
Qed.

Lemma shr_fexp_cut (p : positive) ex :
  24 <= Zpos (digits2_pos p) -> 0 <= ex ->
  shr_fexp prec32 emax32 (Zpos p) ex loc_Exact
  = (cut24 p, ex + (Zpos (digits2_pos p) - 24)).
Proof.
  intros Hd Hex. unfold shr_fexp, cut24. rewrite fexp32. cbn [Zdigits2 shr_record_of_loc].
  set (d := Zpos (digits2_pos p)) in *.
  replace (Z.max (d + ex - 24) (-149) - ex) with (d - 24) by lia.
  fold (rec0 (Zpos p)).
  destruct (d - 24) as [|k|k] eqn:E; cbn [shr fst]; try (f_equal; lia).
Qed.

Lemma cut24_bounds (p : positive) :
  24 <= Zpos (digits2_pos p) -> 2 ^ 23 <= shr_m (cut24 p) < 2 ^ 24.
Proof.
  intros Hd. unfold cut24. pose proof (digits2_pos_bounds p) as Hb.
  set (d := Zpos (digits2_pos p)) in *.
  destruct (d - 24) as [|k|k] eqn:E; cbn [shr fst]; try lia.
  - assert (d = 24) by lia. cbn [rec0 shr_m]. 
    replace (d - 1) with 23 in Hb by lia. replace d with 24 in Hb by lia. exact Hb.
  - rewrite iter_pos_shr_m by (cbn; lia). cbn [rec0 shr_m].
    assert (H1 : 2 ^ (d - 1) = 2 ^ 23 * 2 ^ Zpos k).
    { rewrite <- Z.pow_add_r by lia. f_equal. lia. }
    assert (H2 : 2 ^ d = 2 ^ 24 * 2 ^ Zpos k).
    { rewrite <- Z.pow_add_r by lia. f_equal. lia. }
    assert (0 < 2 ^ Zpos k) by (apply Z.pow_pos_nonneg; lia).
    split.
    + apply Z.div_le_lower_bound; [lia|]. rewrite Z.mul_comm. lia.
    + apply Z.div_lt_upper_bound; [lia|]. rewrite Z.mul_comm. lia.
Qed.

Lemma round_nearest_even_cases m l :
  round_nearest_even m l = m \/ round_nearest_even m l = m + 1.
Proof.
  destruct l as [|[| |]]; cbn [round_nearest_even]; auto.
  destruct (Z.even m); auto.
Qed.

Lemma round_big (p : positive) :
  24 <= Zpos (digits2_pos p) <= 100 ->
  exists (m : positive) (k : Z),
    Zpos (digits2_pos m) = 24 /\ 0 <= k <= 77 /\
    forall ex, 0 <= ex <= 1 ->
      binary_round_aux prec32 emax32 false (Zpos p) ex loc_Exact
      = S754_finite false m (k + ex).
Proof.
  intros Hd. pose proof (cut24_bounds p (proj1 Hd)) as Hq.
  set (d := Zpos (digits2_pos p)) in *.
  set (m1 := round_nearest_even (shr_m (cut24 p)) (loc_of_shr_record (cut24 p))).
  assert (Hm1 : 2 ^ 23 <= m1 <= 2 ^ 24).
  { subst m1. destruct (round_nearest_even_cases (shr_m (cut24 p))
      (loc_of_shr_record (cut24 p))) as [->| ->]; lia. }
  destruct (Z_lt_le_dec m1 (2 ^ 24)) as [Hlt|Hge].
  - destruct m1 as [|q|q] eqn:Eq; try (exfalso; lia).
    exists q, (d - 24). split; [|split; [lia|]].
    + apply digits2_pos_unique. change (24 - 1) with 23. lia.
    + intros ex Hex. unfold binary_round_aux.
      rewrite shr_fexp_cut by lia. fold d. fold m1. rewrite Eq.
      rewrite shr_fexp_stay; [| apply digits2_pos_unique; change (24 - 1) with 23; lia | lia].
      cbn [rec0 shr_m].
      replace (ex + (d - 24) <=? emax32 - prec32) with true.
      * f_equal. lia.
      * symmetry. apply Z.leb_le. unfold emax32, prec32. lia.
  - assert (E : m1 = 16777216) by (change (2 ^ 24) with 16777216 in *; lia).
    exists 8388608%positive, (d - 23). split; [reflexivity | split; [lia|]].
    intros ex Hex. unfold binary_round_aux.
    rewrite shr_fexp_cut by lia. fold d. fold m1. rewrite E.
    unfold shr_fexp. rewrite fexp32. change (Zdigits2 16777216) with 25.
    cbn [shr_record_of_loc].
    replace (Z.max (25 + (ex + (d - 24)) - 24) (-149) - (ex + (d - 24))) with 1 by lia.
    cbn [shr SpecFloat.iter_pos shr_1 shr_m orb].
    replace (ex + (d - 24) + 1 <=? emax32 - prec32) with true.
    * f_equal. lia.
    * symmetry. apply Z.leb_le. unfold emax32, prec32. lia.
Qed.

Lemma iter_pos_comm {A} (f : A -> A) k : forall x,
  SpecFloat.iter_pos f k (f x) = f (SpecFloat.iter_pos f k x).
Proof.
  induction k as [k IH|k IH|]; intros x; cbn [SpecFloat.iter_pos]; try reflexivity.
  - rewrite !IH. reflexivity.
  - rewrite !IH. reflexivity.
Qed.

Lemma iter_pos_succ {A} (f : A -> A) k : forall x,
  SpecFloat.iter_pos f (Pos.succ k) x = SpecFloat.iter_pos f k (f x).
Proof.
  induction k as [k IH|k IH|]; intros x; simpl; try reflexivity.
  rewrite IH, IH, !iter_pos_comm. reflexivity.
Qed.

Lemma cut24_double (p : positive) :
  24 <= Zpos (digits2_pos p) -> cut24 p~0 = cut24 p.
Proof.
  intros Hd. unfold cut24. cbn [digits2_pos].
  rewrite Pos2Z.inj_succ.
  set (d := Zpos (digits2_pos p)) in *.
  destruct (d - 24) as [|k|k] eqn:E; try lia.
  - replace (Z.succ d - 24) with 1 by lia. reflexivity.
  - replace (Z.succ d - 24) with (Zpos (Pos.succ k)) by lia.
    cbn [shr fst]. rewrite iter_pos_succ. reflexivity.
Qed.

Lemma round_aux_double (p : positive) :
  24 <= Zpos (digits2_pos p) ->
  binary_round_aux prec32 emax32 false (Zpos p~0) 0 loc_Exact
  = binary_round_aux prec32 emax32 false (Zpos p) 1 loc_Exact.
Proof.
  intros Hd. unfold binary_round_aux.
  rewrite (shr_fexp_cut p~0), (shr_fexp_cut p) by (cbn [digits2_pos]; lia).
  rewrite cut24_double by exact Hd. cbn [digits2_pos]. rewrite Pos2Z.inj_succ.
  replace (0 + (Z.succ (Zpos (digits2_pos p)) - 24))
    with (1 + (Zpos (digits2_pos p) - 24)) by lia.
  reflexivity.
Qed.

Lemma iter_xO_Z (p k : positive) : Zpos (Pos.iter xO p k) = Zpos p * 2 ^ Zpos k.
Proof.
  induction k as [|k IH] using Pos.peano_ind.
  - cbn [Pos.iter]. lia.
  - rewrite Pos.iter_succ, Pos2Z.inj_succ, Z.pow_succ_r by lia.
    rewrite Pos2Z.inj_xO, IH. ring.
Qed.

Lemma round_small (p : positive) (k : positive) :
  Zpos (digits2_pos p) + Zpos k = 24 ->
  Zpos (digits2_pos (Pos.iter xO p k)) = 24.
Proof.
  intros Hd. apply digits2_pos_unique. rewrite iter_xO_Z.
  pose proof (digits2_pos_bounds p) as Hb.
  set (d := Zpos (digits2_pos p)) in *.
  assert (H1 : 2 ^ (24 - 1) = 2 ^ (d - 1) * 2 ^ Zpos k).
  { rewrite <- Z.pow_add_r by lia. f_equal. lia. }
  assert (H2 : 2 ^ 24 = 2 ^ d * 2 ^ Zpos k).
  { rewrite <- Z.pow_add_r by lia. f_equal. lia. }
  assert (0 < 2 ^ Zpos k) by (apply Z.pow_pos_nonneg; lia).
  rewrite H1, H2. nia.
Qed.

Lemma f32_of_Z_pos (p : positive) :
  f32_of_Z (Zpos p) =
  match Zpos (digits2_pos p) - 24 with
  | Zneg k => S754_finite false (Pos.iter xO p k) (Zpos (digits2_pos p) - 24)
  | _ => binary_round_aux prec32 emax32 false (Zpos p) 0 loc_Exact
  end.
Proof.
  unfold f32_of_Z, binary_normalize, binary_round, shl_align. rewrite fexp32.
  pose proof (digits2_pos_bounds p) as Hb.
  set (d := Zpos (digits2_pos p)) in *.
  assert (0 < d) by (subst d; lia).
  replace (Z.max (d + 0 - 24) (-149) - 0) with (d - 24) by lia.
  destruct (d - 24) as [|k|k] eqn:E; try reflexivity.
  replace (Z.max (d + 0 - 24) (-149)) with (d - 24) by lia.
  rewrite E. apply round_aux_exact.
  - apply round_small. fold d. lia.
  - lia.
Qed.

Lemma f32_double (i : Z) :
  0 <= i < 2 ^ 64 -> f32_mul (f32_of_Z i) (f32_of_Z 2) = f32_of_Z (2 * i).
Proof.
  intros Hi. change (f32_of_Z 2) with f32_two.
  destruct i as [|p|p]; [reflexivity | | lia].
  change (2 * Zpos p) with (Zpos p~0).
  rewrite (f32_of_Z_pos p), (f32_of_Z_pos p~0). cbn [digits2_pos].
  rewrite Pos2Z.inj_succ.
  pose proof (digits2_pos_bounds p) as Hb.
  set (d := Zpos (digits2_pos p)) in *.
  assert (Hd : 0 < d <= 64).
  { split; [subst d; lia|].
    destruct (Z_lt_le_dec 64 d) as [Hgt|]; [|lia].
    assert (2 ^ 64 <= 2 ^ (d - 1)) by (apply Z.pow_le_mono_r; lia). lia. }
  destruct (d - 24) as [|k|k] eqn:E.
  - (* d = 24 *)
    replace (Z.succ d - 24) with 1 by lia.
    rewrite round_aux_double by (fold d; lia).
    destruct (round_big p) as (m & q & Hm & Hq & Hr); [fold d; lia|].
    rewrite (Hr 0), (Hr 1) by lia. rewrite mul_two by (auto; lia).
    f_equal. lia.
  - replace (Z.succ d - 24) with (Zpos (Pos.succ k)) by lia.
    rewrite round_aux_double by (fold d; lia).
    destruct (round_big p) as (m & q & Hm & Hq & Hr); [fold d; lia|].
    rewrite (Hr 0), (Hr 1) by lia. rewrite mul_two by (auto; lia).
    f_equal. lia.
  - assert (Hk : Zpos (digits2_pos (Pos.iter xO p k)) = 24).
    { apply round_small. fold d. lia. }
    rewrite mul_two by (auto; lia).
    destruct (Z.succ d - 24) as [|j|j] eqn:E2; try lia.
    + (* d = 23 *)
      assert (k = 1%positive) by lia. subst k. cbn [Pos.iter] in *.
      rewrite round_aux_exact by (auto; lia). reflexivity.
    + assert (Hj : k = Pos.succ j) by lia. subst k.
      rewrite Pos.iter_succ_r. f_equal. lia.
Qed.

(** ** Machine integers *)

Lemma to_size_t_small z : 0 <= z < 2 ^ 64 -> to_size_t z = z.
Proof. intros H. unfold to_size_t, SIZE_WIDTH. apply Z.mod_small. exact H. Qed.

Lemma to_size_t_range z : 0 <= to_size_t z < 2 ^ 64.
Proof. unfold to_size_t, SIZE_WIDTH. apply Z.mod_pos_bound. lia. Qed.

Lemma to_int_small z : INT_MIN <= z <= INT_MAX -> to_int z = z.
Proof.
  unfold INT_MIN, INT_MAX, to_int. intros H.
  rewrite Z.mod_small; lia.
Qed.

Lemma to_int_range z : INT_MIN <= to_int z <= INT_MAX.
Proof.
  unfold INT_MIN, INT_MAX, to_int.
  pose proof (Z.mod_pos_bound (z + 2 ^ 31) (2 ^ 32)). lia.
Qed.

Lemma nb_items_eq : nb_items = 4.
Proof. reflexivity. Qed.

Lemma nsse_of_nonneg n : 0 <= n < 2 ^ 64 -> nsse_of n = n / 4 * 4.
Proof.
  intros H. unfold nsse_of. rewrite nb_items_eq, (to_size_t_small n) by exact H.
  apply to_size_t_small.
  pose proof (Z.mul_div_le n 4). pose proof (Z.div_pos n 4). lia.
Qed.

Lemma nsse_of_neg n : - 2 ^ 64 <= n < 0 -> nsse_of n = (2 ^ 64 + n) / 4 * 4.
Proof.
  intros H. unfold nsse_of. rewrite nb_items_eq.
  assert (E : to_size_t n = 2 ^ 64 + n).
  { unfold to_size_t, SIZE_WIDTH. symmetry.
    apply (Z.mod_unique n (2 ^ 64) (-1)); lia. }
  rewrite E. apply to_size_t_small.
  pose proof (Z.mul_div_le (2 ^ 64 + n) 4). pose proof (Z.div_pos (2 ^ 64 + n) 4). lia.
Qed.

Lemma nsse_of_mod4 n : nsse_of n mod 4 = 0.
Proof.
  destruct (Z_lt_le_dec n 0) as [Hn|Hn].
  - unfold nsse_of. rewrite nb_items_eq.
    pose proof (to_size_t_range n) as Hr.
    rewrite (to_size_t_small (to_size_t n / 4 * 4)).
    + apply Z.mod_mul. lia.
    + pose proof (Z.mul_div_le (to_size_t n) 4). pose proof (Z.div_pos (to_size_t n) 4). lia.
  - unfold nsse_of. rewrite nb_items_eq.
    pose proof (to_size_t_range n) as Hr.
    rewrite (to_size_t_small (to_size_t n / 4 * 4)).
    + apply Z.mod_mul. lia.
    + pose proof (Z.mul_div_le (to_size_t n) 4). pose proof (Z.div_pos (to_size_t n) 4). lia.
Qed.

Lemma nsse_of_range n : 0 <= nsse_of n < 2 ^ 64.
Proof. unfold nsse_of. apply to_size_t_range. Qed.

(** ** Running computations *)

Lemma bind_ok {A B} (m : M A) (k : A -> M B) s a s' :
  m s = (Ok a, s') -> (m ≫= k) s = k a s'.
Proof. intros H. unfold mbind, M_bind. rewrite H. reflexivity. Qed.

Lemma bind_crash {A B} (m : M A) (k : A -> M B) s f s' :
  m s = (Crash f, s') -> (m ≫= k) s = (Crash f, s').
Proof. intros H. unfold mbind, M_bind. rewrite H. reflexivity. Qed.

Lemma bind_inv {A B} (m : M A) (k : A -> M B) s r s2 :
  (m ≫= k) s = (r, s2) ->
  (exists a s1, m s = (Ok a, s1) /\ k a s1 = (r, s2)) \/
  (exists f, m s = (Crash f, s2) /\ r = Crash f).
Proof.
  unfold mbind, M_bind. destruct (m s) as [[a|f] s1]; intros H.
  - left. eauto.
  - right. exists f. inversion H; subst. auto.
Qed.

Lemma in_bounds_true buf i w :
  0 <= i -> sizeof_float * (i + w) <= buf_size buf -> in_bounds buf i w = true.
Proof.
  intros H1 H2. unfold in_bounds. apply andb_true_intro. split.
  - apply Z.leb_le. exact H1.
  - apply Z.leb_le. exact H2.
Qed.

Lemma in_bounds_inv buf i w :
  in_bounds buf i w = true -> 0 <= i /\ sizeof_float * (i + w) <= buf_size buf.
Proof.
  unfold in_bounds. intros H. apply andb_prop in H. destruct H as [H1 H2].
  apply Z.leb_le in H1. apply Z.leb_le in H2. auto.
Qed.

Lemma deref_ok b buf s :
  st_heap s !! b = Some buf -> deref (Ptr b) s = (Ok (b, buf), s).
Proof. intros H. unfold deref. rewrite H. reflexivity. Qed.

Lemma load_ok b buf i v s :
  st_heap s !! b = Some buf -> 0 <= i -> sizeof_float * (i + 1) <= buf_size buf ->
  buf_data buf !! i = Some v ->
  load (Ptr b) i s = (Ok v, s).
Proof.
  intros Hb Hi Hs Hv. unfold load. rewrite (bind_ok _ _ _ _ _ (deref_ok _ _ _ Hb)).
  rewrite in_bounds_true, Hv by assumption. reflexivity.
Qed.

Lemma store_ok b buf i v s :
  st_heap s !! b = Some buf -> 0 <= i -> sizeof_float * (i + 1) <= buf_size buf ->
  store (Ptr b) i v s = (Ok tt, set_heap (<[b := write_cell i v buf]> (st_heap s)) s).
Proof.
  intros Hb Hi Hs. unfold store. rewrite (bind_ok _ _ _ _ _ (deref_ok _ _ _ Hb)).
  rewrite in_bounds_true by assumption. reflexivity.
Qed.

Lemma store_wild i v s : store Wild i v s = (Crash WildPointer, s).
Proof. reflexivity. Qed.

Lemma load_wild i s : load Wild i s = (Crash WildPointer, s).
Proof. reflexivity. Qed.

Lemma aligned16_true buf i :
  buf_base buf mod 16 = 0 -> i mod 4 = 0 -> aligned16 buf i = true.
Proof.
  intros Hb Hi. unfold aligned16, sizeof_float. apply Z.eqb_eq.
  apply Z.mod_divide in Hb; [|lia]. apply Z.mod_divide in Hi; [|lia].
  destruct Hb as [x Hx]. destruct Hi as [y Hy]. rewrite Hx, Hy.
  replace (x * 16 + 4 * (y * 4)) with ((x + y) * 16) by ring.
  apply Z.mod_mul. lia.
Qed.

Lemma mm_load_ok b buf i v0 v1 v2 v3 s :
  st_heap s !! b = Some buf -> buf_base buf mod 16 = 0 -> i mod 4 = 0 ->
  0 <= i -> sizeof_float * (i + 4) <= buf_size buf ->
  buf_data buf !! i = Some v0 -> buf_data buf !! (i + 1) = Some v1 ->
  buf_data buf !! (i + 2) = Some v2 -> buf_data buf !! (i + 3) = Some v3 ->
  _mm_load_ps (Ptr b) i s
  = (Ok {| lane0 := v0; lane1 := v1; lane2 := v2; lane3 := v3 |}, s).
Proof.
  intros Hb Ha Hi4 Hi Hs H0 H1 H2 H3. unfold _mm_load_ps.
  rewrite (bind_ok _ _ _ _ _ (deref_ok _ _ _ Hb)).
  rewrite aligned16_true, in_bounds_true by assumption.
  cbn [negb]. rewrite H0, H1, H2, H3. reflexivity.
Qed.

Lemma mm_store_ok b buf i v s :
  st_heap s !! b = Some buf -> buf_base buf mod 16 = 0 -> i mod 4 = 0 ->
  0 <= i -> sizeof_float * (i + 4) <= buf_size buf ->
  _mm_store_ps (Ptr b) i v s
  = (Ok tt, set_heap (<[b := write_lanes i v buf]> (st_heap s)) s).
Proof.
  intros Hb Ha Hi4 Hi Hs. unfold _mm_store_ps.
  rewrite (bind_ok _ _ _ _ _ (deref_ok _ _ _ Hb)).
  rewrite aligned16_true, in_bounds_true by assumption.
  reflexivity.
Qed.

(** ** Loops *)

(** [K] iterations that go well can be skipped: [idx k] is the index and
    [S k] the state at the start of iteration [k]. *)
Lemma for_loop_skip cond incr body (idx : nat -> Z) (St : nat -> state) (K : nat) :
  (forall k, (k < K)%nat ->
     cond (idx k) = true /\ incr (idx k) = idx (S k) /\
     body (idx k) (add_iter 1 (St k)) = (Ok tt, St (S k))) ->
  forall fuel,
    for_loop (K + fuel) cond incr body (idx 0%nat) (St 0%nat)
    = for_loop fuel cond incr body (idx K) (St K).
Proof.
  intros Hstep.
  assert (H : forall j k, (j + k = K)%nat -> forall fuel,
    for_loop (j + fuel) cond incr body (idx k) (St k)
    = for_loop fuel cond incr body (idx K) (St K)).
  { induction j as [|j IH]; intros k Hk fuel.
    - replace k with K by lia. reflexivity.
    - destruct (Hstep k) as (Hc & Hi & Hb); [lia|].
      cbn [Nat.add for_loop]. rewrite Hc.
      rewrite (bind_ok tick _ (St k) tt (add_iter 1 (St k))) by reflexivity.
      rewrite (bind_ok _ _ _ _ _ Hb). rewrite Hi. apply IH. lia. }
  intros fuel. apply (H K 0%nat). lia.
Qed.

Lemma for_loop_done fuel cond incr body i s :
  cond i = false -> for_loop fuel cond incr body i s = (Ok tt, s).
Proof. intros H. destruct fuel; cbn [for_loop]; rewrite H; reflexivity. Qed.

(** ** Spec-level buffers *)

Lemma gen_data_lookup f k d j :
  gen_data f k d !! j = if decide (0 <= j < Z.of_nat k) then Some (f j) else d !! j.
Proof.
  induction k as [|k IH]; cbn [gen_data].
  - rewrite decide_False by lia. reflexivity.
  - destruct (decide (j = Z.of_nat k)) as [E|Hne].
    + rewrite E, lookup_insert_eq, decide_True by lia. reflexivity.
    + rewrite lookup_insert_ne by congruence. rewrite IH.
      destruct (decide (0 <= j < Z.of_nat k)).
      * rewrite decide_True by lia. reflexivity.
      * rewrite decide_False by lia. reflexivity.
Qed.

Lemma gen_buf_0 f B : gen_buf f 0 B = B.
Proof. destruct B. reflexivity. Qed.

Lemma add_iter_0 s : add_iter 0 s = s.
Proof. destruct s. unfold add_iter. cbn. f_equal. lia. Qed.

Lemma set_heap_id s : set_heap (st_heap s) s = s.
Proof. destruct s. reflexivity. Qed.

Lemma write_cell_gen f k B :
  write_cell (Z.of_nat k) (f (Z.of_nat k)) (gen_buf f k B) = gen_buf f (S k) B.
Proof. reflexivity. Qed.

Lemma write_lanes_gen f k B :
  write_lanes (Z.of_nat k)
    {| lane0 := f (Z.of_nat k); lane1 := f (Z.of_nat k + 1);
       lane2 := f (Z.of_nat k + 2); lane3 := f (Z.of_nat k + 3) |}
    (gen_buf f k B)
  = gen_buf f (4 + k) B.
Proof.
  unfold write_lanes, write_cell, gen_buf. cbn [Nat.add gen_data buf_data buf_base buf_size lane0 lane1 lane2 lane3].
  replace (Z.of_nat (S k)) with (Z.of_nat k + 1) by lia.
  replace (Z.of_nat (S (S k))) with (Z.of_nat k + 2) by lia.
  replace (Z.of_nat (S (S (S k)))) with (Z.of_nat k + 3) by lia.
  reflexivity.
Qed.

Lemma rd_lookup buf n i :
  initialised buf n -> 0 <= i < n -> buf_data buf !! i = Some (rd buf i).
Proof.
  intros H Hi. destruct (H i Hi) as [v Hv]. unfold rd. rewrite Hv. reflexivity.
Qed.

Lemma fill_state_0 b1 b2 B1 B2 s :
  st_heap s !! b1 = Some B1 -> st_heap s !! b2 = Some B2 ->
  fill_state b1 b2 B1 B2 0 s = s.
Proof.
  intros H1 H2. unfold fill_state. rewrite !gen_buf_0.
  rewrite (list_insert_id _ b1 B1) by exact H1.
  rewrite (list_insert_id _ b2 B2) by exact H2.
  change (Z.of_nat 0) with 0. rewrite add_iter_0. apply set_heap_id.
Qed.

Lemma kernel_state_0 r R A B s :
  st_heap s !! r = Some R -> kernel_state r R A B 0 0 s = s.
Proof.
  intros H. unfold kernel_state. rewrite gen_buf_0.
  rewrite (list_insert_id _ r R) by exact H.
  change (Z.of_nat 0) with 0. rewrite add_iter_0. apply set_heap_id.
Qed.

Lemma insert2_step {A} (h : list A) (b1 b2 : nat) (x x' y y' : A) :
  b1 <> b2 ->
  <[b2 := y']> (<[b1 := x']> (<[b2 := y]> (<[b1 := x]> h)))
  = <[b2 := y']> (<[b1 := x']> h).
Proof.
  intros Hne.
  rewrite (list_insert_insert_ne _ b1 b2 x' y) by exact Hne.
  rewrite !list_insert_insert_eq. reflexivity.
Qed.

(** ** The initialisation loop *)

(** The first [K] iterations, when they stay inside the two buffers. *)
Lemma fill_prefix b1 b2 B1 B2 n (K : nat) s :
  st_heap s !! b1 = Some B1 -> st_heap s !! b2 = Some B2 -> b1 <> b2 ->
  Z.of_nat K <= n < 2 ^ 64 ->
  sizeof_float * Z.of_nat K <= buf_size B1 -> sizeof_float * Z.of_nat K <= buf_size B2 ->
  forall fuel,
    for_loop (K + fuel) (fun i => i <? n) (fun i => to_size_t (i + 1))
      (fun i => store (Ptr b1) i (f32_of_Z i) ;;
                store (Ptr b2) i (f32_mul (f32_of_Z i) (f32_of_Z 2)))
      0 s
    = for_loop fuel (fun i => i <? n) (fun i => to_size_t (i + 1))
      (fun i => store (Ptr b1) i (f32_of_Z i) ;;
                store (Ptr b2) i (f32_mul (f32_of_Z i) (f32_of_Z 2)))
      (Z.of_nat K) (fill_state b1 b2 B1 B2 K s).
Proof.
  intros H1 H2 Hne Hn Hs1 Hs2 fuel.
  pose proof (lookup_lt_Some _ _ _ H1) as Hl1.
  pose proof (lookup_lt_Some _ _ _ H2) as Hl2.
  set (body := fun i : Z => store (Ptr b1) i (f32_of_Z i) ;;
                 store (Ptr b2) i (f32_mul (f32_of_Z i) (f32_of_Z 2))).
  pose proof (for_loop_skip (fun i => i <? n) (fun i => to_size_t (i + 1)) body
    Z.of_nat (fun k => fill_state b1 b2 B1 B2 k s) K) as E.
  transitivity (for_loop (K + fuel) (fun i => i <? n) (fun i => to_size_t (i + 1))
    body (Z.of_nat 0) (fill_state b1 b2 B1 B2 0 s)).
  { rewrite fill_state_0 by assumption. reflexivity. }
  apply E. intros k Hk. split; [apply Z.ltb_lt; lia|]. split.
  - rewrite to_size_t_small; lia.
  - unfold body.
    erewrite bind_ok; cycle 1.
    { apply (store_ok b1 (gen_buf val1 k B1)).
      - cbn. rewrite list_lookup_insert_ne by congruence.
        apply list_lookup_insert_eq. exact Hl1.
      - lia.
      - unfold sizeof_float in *. cbn. lia. }
    erewrite store_ok; cycle 1.
    { cbn. rewrite list_lookup_insert_ne by congruence.
      apply list_lookup_insert_eq. rewrite length_insert. exact Hl2. }
    { lia. }
    { unfold sizeof_float in *. cbn. lia. }
    f_equal. unfold fill_state, set_heap, add_iter.
    cbn [st_heap st_brk st_avail st_clock st_out st_iter].
    f_equal; [|lia].
    rewrite insert2_step by exact Hne. reflexivity.
Qed.

Lemma fill_spec b1 b2 B1 B2 n s :
  st_heap s !! b1 = Some B1 -> st_heap s !! b2 = Some B2 -> b1 <> b2 ->
  0 <= n < 2 ^ 64 ->
  sizeof_float * n <= buf_size B1 -> sizeof_float * n <= buf_size B2 ->
  fill (Ptr b1) (Ptr b2) n s = (Ok tt, fill_state b1 b2 B1 B2 (Z.to_nat n) s).
Proof.
  intros H1 H2 Hne Hn Hs1 Hs2. unfold fill.
  rewrite <- (Nat.add_0_r (Z.to_nat n)) at 1.
  rewrite (fill_prefix b1 b2 B1 B2 n (Z.to_nat n)); rewrite ?Z2Nat.id by lia;
    try assumption.
  - apply for_loop_done. apply Z.ltb_ge. lia.
  - lia.
Qed.

(** When the count exceeds the length of the two buffers, the loop runs off
    their end: the store to [data1[len]] faults. *)
Lemma fill_overrun b1 b2 B1 B2 n len s :
  st_heap s !! b1 = Some B1 -> st_heap s !! b2 = Some B2 -> b1 <> b2 ->
  0 <= len < n -> n < 2 ^ 64 ->
  buf_size B1 = sizeof_float * len -> buf_size B2 = sizeof_float * len ->
  fill (Ptr b1) (Ptr b2) n s
  = (Crash OutOfBounds, add_iter 1 (fill_state b1 b2 B1 B2 (Z.to_nat len) s)).
Proof.
  intros H1 H2 Hne Hlen Hn Hs1 Hs2. unfold fill.
  pose proof (lookup_lt_Some _ _ _ H1) as Hl1.
  set (K := Z.to_nat len).
  assert (HK : Z.of_nat K = len) by (subst K; lia).
  replace (Z.to_nat n) with (K + S (Z.to_nat n - K - 1))%nat by (subst K; lia).
  rewrite (fill_prefix b1 b2 B1 B2 n K); rewrite ?HK; try assumption; try lia.
  cbn [for_loop].
  replace (len <? n) with true by (symmetry; apply Z.ltb_lt; lia).
  erewrite bind_ok by reflexivity.
  erewrite bind_crash; [reflexivity|].
  erewrite bind_crash; [reflexivity|].
  unfold store. erewrite bind_ok; cycle 1.
  { apply (deref_ok b1 (gen_buf val1 K B1)). cbn.
    rewrite list_lookup_insert_ne by congruence.
    apply list_lookup_insert_eq. exact Hl1. }
  cbv beta iota.
  replace (in_bounds (gen_buf val1 K B1) len 1) with false; [reflexivity|].
  symmetry. unfold in_bounds. apply andb_false_intro2.
  apply Z.leb_gt. cbn. rewrite Hs1. unfold sizeof_float. lia.
Qed.

(** ** The kernels on three buffers

    The result block [r] holds [R] and the input blocks [a] and [b] hold [A]
    and [B]. The blocks may coincide: in [compute(a, a, b, n)] the result
    block is the first input and [R] is [A]. *)

(** A block of the state after some iterations of a kernel: the cells the
    kernel has not reached are as before, in the result as in the others. *)
Lemma kernel_state_lookup r R A B iters k s x X :
  st_heap s !! r = Some R -> st_heap s !! x = Some X ->
  exists X', st_heap (kernel_state r R A B iters k s) !! x = Some X' /\
    buf_size X' = buf_size X /\ buf_base X' = buf_base X /\
    forall i, Z.of_nat k <= i -> buf_data X' !! i = buf_data X !! i.
Proof.
  intros Hr Hx. unfold kernel_state. cbn [set_heap st_heap].
  destruct (decide (x = r)) as [->|Hne].
  - assert (X = R) by congruence. subst X.
    exists (gen_buf (sum_of A B) k R).
    rewrite list_lookup_insert_eq by (eapply lookup_lt_Some; exact Hr).
    repeat split; auto. intros i Hi. cbn.
    rewrite gen_data_lookup, decide_False by lia. reflexivity.
  - exists X. rewrite list_lookup_insert_ne by congruence. auto.
Qed.

Lemma kernel_state_result r R A B iters k s :
  st_heap s !! r = Some R ->
  st_heap (kernel_state r R A B iters k s) !! r = Some (gen_buf (sum_of A B) k R).
Proof.
  intros Hr. cbn. apply list_lookup_insert_eq. eapply lookup_lt_Some. exact Hr.
Qed.

Section Kernels.

Variables (r a b : nat) (R A B : buffer) (s : state).
Hypothesis Hr : st_heap s !! r = Some R.
Hypothesis Ha : st_heap s !! a = Some A.
Hypothesis Hb : st_heap s !! b = Some B.

(** *** The scalar kernel *)

(** The first [K] iterations, when they stay inside the three buffers. *)
Lemma compute_prefix n (K : nat) :
  Z.of_nat K <= n < 2 ^ 64 ->
  sizeof_float * Z.of_nat K <= buf_size R ->
  sizeof_float * Z.of_nat K <= buf_size A ->
  sizeof_float * Z.of_nat K <= buf_size B ->
  initialised A (Z.of_nat K) -> initialised B (Z.of_nat K) ->
  forall fuel,
    for_loop (K + fuel) (fun i => i <? n) (fun i => to_size_t (i + 1))
      (fun i => x ← load (Ptr a) i; y ← load (Ptr b) i; store (Ptr r) i (f32_add x y))
      0 s
    = for_loop fuel (fun i => i <? n) (fun i => to_size_t (i + 1))
      (fun i => x ← load (Ptr a) i; y ← load (Ptr b) i; store (Ptr r) i (f32_add x y))
      (Z.of_nat K) (kernel_state r R A B K K s).
Proof.
  intros Hn HsR HsA HsB HiA HiB fuel.
  pose proof (lookup_lt_Some _ _ _ Hr) as Hlr.
  set (body := fun i : Z => x ← load (Ptr a) i; y ← load (Ptr b) i;
                 store (Ptr r) i (f32_add x y)).
  pose proof (for_loop_skip (fun i => i <? n) (fun i => to_size_t (i + 1)) body
    Z.of_nat (fun k => kernel_state r R A B k k s) K) as E.
  transitivity (for_loop (K + fuel) (fun i => i <? n) (fun i => to_size_t (i + 1))
    body (Z.of_nat 0) (kernel_state r R A B 0 0 s)).
  { rewrite kernel_state_0 by assumption. reflexivity. }
  apply E. intros k Hk. split; [apply Z.ltb_lt; lia|]. split.
  - rewrite to_size_t_small; lia.
  - unfold body.
    destruct (kernel_state_lookup r R A B k k s a A Hr Ha) as (A' & LA & SA & _ & DA).
    destruct (kernel_state_lookup r R A B k k s b B Hr Hb) as (B' & LB & SB & _ & DB).
    erewrite bind_ok; cycle 1.
    { apply (load_ok a A').
      - exact LA.
      - lia.
      - rewrite SA. unfold sizeof_float in *. lia.
      - rewrite DA by lia. apply (rd_lookup A (Z.of_nat K)); [exact HiA | lia]. }
    erewrite bind_ok; cycle 1.
    { apply (load_ok b B').
      - exact LB.
      - lia.
      - rewrite SB. unfold sizeof_float in *. lia.
      - rewrite DB by lia. apply (rd_lookup B (Z.of_nat K)); [exact HiB | lia]. }
    erewrite store_ok; cycle 1.
    { cbn. apply list_lookup_insert_eq. exact Hlr. }
    { lia. }
    { unfold sizeof_float in *. cbn. lia. }
    f_equal. unfold kernel_state, set_heap, add_iter.
    cbn [st_heap st_brk st_avail st_clock st_out st_iter].
    f_equal; [|lia].
    rewrite list_insert_insert_eq. reflexivity.
Qed.

Lemma compute_spec n :
  0 <= n < 2 ^ 64 ->
  sizeof_float * n <= buf_size R ->
  sizeof_float * n <= buf_size A -> sizeof_float * n <= buf_size B ->
  initialised A n -> initialised B n ->
  compute (Ptr r) (Ptr a) (Ptr b) n s
  = (Ok tt, kernel_state r R A B (Z.to_nat n) (Z.to_nat n) s).
Proof.
  intros Hn HsR HsA HsB HiA HiB. unfold compute.
  rewrite <- (Nat.add_0_r (Z.to_nat n)) at 1.
  rewrite (compute_prefix n (Z.to_nat n)); rewrite ?Z2Nat.id by lia; try assumption.
  - apply for_loop_done. apply Z.ltb_ge. lia.
  - lia.
Qed.

(** When the count exceeds the length of the buffers, the loop runs off
    their end: the read of [a[len]] faults. *)
Lemma compute_overrun n len :
  0 <= len < n -> n < 2 ^ 64 ->
  buf_size R = sizeof_float * len ->
  buf_size A = sizeof_float * len -> buf_size B = sizeof_float * len ->
  initialised A len -> initialised B len ->
  compute (Ptr r) (Ptr a) (Ptr b) n s
  = (Crash OutOfBounds,
     add_iter 1 (kernel_state r R A B (Z.to_nat len) (Z.to_nat len) s)).
Proof.
  intros Hlen Hn HsR HsA HsB HiA HiB. unfold compute.
  set (K := Z.to_nat len).
  assert (HK : Z.of_nat K = len) by (subst K; lia).
  replace (Z.to_nat n) with (K + S (Z.to_nat n - K - 1))%nat by (subst K; lia).
  rewrite (compute_prefix n K); rewrite ?HK; try assumption; try lia.
  cbn [for_loop].
  replace (len <? n) with true by (symmetry; apply Z.ltb_lt; lia).
  erewrite bind_ok by reflexivity.
  destruct (kernel_state_lookup r R A B K K s a A Hr Ha) as (A' & LA & SA & _ & DA).
  assert (Hc : load (Ptr a) len (add_iter 1 (kernel_state r R A B K K s))
               = (Crash OutOfBounds, add_iter 1 (kernel_state r R A B K K s))).
  { unfold load. erewrite bind_ok; cycle 1.
    { apply (deref_ok a A'). exact LA. }
    cbv beta iota.
    replace (in_bounds A' len 1) with false; [reflexivity|].
    symmetry. unfold in_bounds. apply andb_false_intro2.
    apply Z.leb_gt. rewrite SA, HsA. unfold sizeof_float. lia. }
  erewrite bind_crash; [reflexivity|].
  erewrite bind_crash; [reflexivity|]. exact Hc.
Qed.

(** *** The SSE kernel, on buffers aligned on 16 bytes *)

Hypothesis HaR : buf_base R mod 16 = 0.
Hypothesis HaA : buf_base A mod 16 = 0.
Hypothesis HaB : buf_base B mod 16 = 0.

(** The first [K] iterations, when they stay inside the three buffers. *)
Lemma sse_loop_prefix nsse (K : nat) :
  Z.of_nat (4 * K) <= nsse < 2 ^ 64 ->
  sizeof_float * Z.of_nat (4 * K) <= buf_size R ->
  sizeof_float * Z.of_nat (4 * K) <= buf_size A ->
  sizeof_float * Z.of_nat (4 * K) <= buf_size B ->
  initialised A (Z.of_nat (4 * K)) -> initialised B (Z.of_nat (4 * K)) ->
  forall fuel,
    for_loop (K + fuel) (fun i => i <? nsse) (fun i => to_size_t (i + 4))
      (fun i =>
         sse_a ← _mm_load_ps (Ptr a) i;
         sse_b ← _mm_load_ps (Ptr b) i;
         let sse_r := _mm_add_ps sse_a sse_b in
         _mm_store_ps (Ptr r) i sse_r)
      0 s
    = for_loop fuel (fun i => i <? nsse) (fun i => to_size_t (i + 4))
      (fun i =>
         sse_a ← _mm_load_ps (Ptr a) i;
         sse_b ← _mm_load_ps (Ptr b) i;
         let sse_r := _mm_add_ps sse_a sse_b in
         _mm_store_ps (Ptr r) i sse_r)
      (Z.of_nat (4 * K)) (kernel_state r R A B K (4 * K) s).
Proof.
  intros Hrange HsR HsA HsB HiA HiB fuel.
  pose proof (lookup_lt_Some _ _ _ Hr) as Hlr.
  set (body := fun i : Z => sse_a ← _mm_load_ps (Ptr a) i; sse_b ← _mm_load_ps (Ptr b) i;
                 let sse_r := _mm_add_ps sse_a sse_b in _mm_store_ps (Ptr r) i sse_r).
  pose proof (for_loop_skip (fun i => i <? nsse) (fun i => to_size_t (i + 4)) body
    (fun j => Z.of_nat (4 * j)) (fun j => kernel_state r R A B j (4 * j) s) K) as E.
  transitivity (for_loop (K + fuel) (fun i => i <? nsse) (fun i => to_size_t (i + 4))
    body (Z.of_nat (4 * 0)) (kernel_state r R A B 0 (4 * 0) s)).
  { change (4 * 0)%nat with 0%nat.
    rewrite kernel_state_0 by assumption. reflexivity. }
  apply E. intros j Hj.
  assert (Hj4 : Z.of_nat (4 * j) + 4 <= Z.of_nat (4 * K)) by lia.
  assert (Hm : Z.of_nat (4 * j) mod 4 = 0).
  { rewrite Nat2Z.inj_mul, Z.mul_comm. apply Z.mod_mul. lia. }
  split; [apply Z.ltb_lt; lia|]. split.
  - rewrite to_size_t_small; lia.
  - unfold body.
    destruct (kernel_state_lookup r R A B j (4 * j) s a A Hr Ha) as (A' & LA & SA & BA & DA).
    destruct (kernel_state_lookup r R A B j (4 * j) s b B Hr Hb) as (B' & LB & SB & BB & DB).
    erewrite bind_ok; cycle 1.
    { apply (mm_load_ok a A'); try assumption.
      - congruence.
      - lia.
      - rewrite SA. unfold sizeof_float in *. lia.
      - rewrite DA by lia. apply (rd_lookup A _ _ HiA). lia.
      - rewrite DA by lia. apply (rd_lookup A _ _ HiA). lia.
      - rewrite DA by lia. apply (rd_lookup A _ _ HiA). lia.
      - rewrite DA by lia. apply (rd_lookup A _ _ HiA). lia. }
    erewrite bind_ok; cycle 1.
    { apply (mm_load_ok b B'); try assumption.
      - congruence.
      - lia.
      - rewrite SB. unfold sizeof_float in *. lia.
      - rewrite DB by lia. apply (rd_lookup B _ _ HiB). lia.
      - rewrite DB by lia. apply (rd_lookup B _ _ HiB). lia.
      - rewrite DB by lia. apply (rd_lookup B _ _ HiB). lia.
      - rewrite DB by lia. apply (rd_lookup B _ _ HiB). lia. }
    cbv zeta.
    erewrite mm_store_ok; cycle 1.
    { cbn. apply list_lookup_insert_eq. exact Hlr. }
    { cbn. exact HaR. }
    { exact Hm. }
    { lia. }
    { unfold sizeof_float in *. cbn. lia. }
    f_equal. unfold kernel_state, set_heap, add_iter.
    cbn [st_heap st_brk st_avail st_clock st_out st_iter].
    f_equal; [|lia].
    rewrite list_insert_insert_eq. f_equal.
    replace (4 * S j)%nat with (4 + 4 * j)%nat by lia.
    rewrite <- write_lanes_gen. reflexivity.
Qed.

Lemma compute_sse_spec n :
  sizeof_float * nsse_of n <= buf_size R ->
  sizeof_float * nsse_of n <= buf_size A -> sizeof_float * nsse_of n <= buf_size B ->
  initialised A (nsse_of n) -> initialised B (nsse_of n) ->
  compute_sse (Ptr r) (Ptr a) (Ptr b) n s
  = (Ok tt, kernel_state r R A B (Z.to_nat (nsse_of n / 4)) (Z.to_nat (nsse_of n)) s).
Proof.
  intros HsR HsA HsB HiA HiB. unfold compute_sse.
  pose proof (nsse_of_range n) as Hrange. pose proof (nsse_of_mod4 n) as Hmod.
  set (nsse := nsse_of n) in *.
  assert (Hdiv : nsse = 4 * (nsse / 4)) by (apply Z.div_exact; lia).
  set (K := Z.to_nat (nsse / 4)).
  assert (HK : Z.to_nat nsse = (4 * K)%nat) by (subst K; lia).
  assert (HKz : Z.of_nat (4 * K) = nsse) by lia.
  rewrite HK. rewrite <- (Nat.add_0_r K) at 1.
  rewrite (sse_loop_prefix nsse K); try assumption; try (rewrite HKz; assumption).
  - apply for_loop_done. apply Z.ltb_ge. lia.
  - lia.
Qed.

(** When [nsse] exceeds the length of the buffers, the loop runs off their
    end: the vector load that follows the last full block faults. *)
Lemma compute_sse_overrun n len :
  0 <= len < nsse_of n ->
  buf_size R = sizeof_float * len ->
  buf_size A = sizeof_float * len -> buf_size B = sizeof_float * len ->
  initialised A len -> initialised B len ->
  compute_sse (Ptr r) (Ptr a) (Ptr b) n s
  = (Crash OutOfBounds,
     add_iter 1 (kernel_state r R A B (Z.to_nat (len / 4)) (4 * Z.to_nat (len / 4)) s)).
Proof.
  intros Hlen HsR HsA HsB HiA HiB. unfold compute_sse.
  pose proof (nsse_of_range n) as Hrange. pose proof (nsse_of_mod4 n) as Hmod.
  set (nsse := nsse_of n) in *.
  assert (Hdiv : nsse = 4 * (nsse / 4)) by (apply Z.div_exact; lia).
  pose proof (Z.div_mod len 4 ltac:(lia)) as Hl.
  pose proof (Z.mod_pos_bound len 4 ltac:(lia)) as Hl2.
  pose proof (Z.div_pos len 4 ltac:(lia) ltac:(lia)) as Hl3.
  set (K := Z.to_nat (len / 4)).
  assert (HKz : Z.of_nat (4 * K) = 4 * (len / 4)) by (subst K; lia).
  assert (Hlt : len / 4 < nsse / 4) by lia.
  replace (Z.to_nat (nsse / 4)) with (K + S (Z.to_nat (nsse / 4) - K - 1))%nat by (subst K; lia).
  unfold sizeof_float in *.
  rewrite (sse_loop_prefix nsse K); try assumption;
    try (unfold sizeof_float; lia).
  - cbn [for_loop].
    replace (Z.of_nat (4 * K) <? nsse) with true by (symmetry; apply Z.ltb_lt; lia).
    erewrite bind_ok by reflexivity.
    destruct (kernel_state_lookup r R A B K (4 * K) s a A Hr Ha) as (A' & LA & SA & BA & DA).
    assert (Hc : _mm_load_ps (Ptr a) (Z.of_nat (4 * K))
                   (add_iter 1 (kernel_state r R A B K (4 * K) s))
                 = (Crash OutOfBounds, add_iter 1 (kernel_state r R A B K (4 * K) s))).
    { unfold _mm_load_ps. erewrite bind_ok; cycle 1.
      { apply (deref_ok a A'). exact LA. }
      cbv beta iota. rewrite aligned16_true; [| congruence |].
      2:{ rewrite Nat2Z.inj_mul, Z.mul_comm. apply Z.mod_mul. lia. }
      cbn [negb]. replace (in_bounds A' (Z.of_nat (4 * K)) 4) with false; [reflexivity|].
      symmetry. unfold in_bounds, sizeof_float. apply andb_false_intro2.
      apply Z.leb_gt. lia. }
    erewrite bind_crash; [reflexivity|].
    erewrite bind_crash; [reflexivity|]. exact Hc.
  - intros i Hi. apply HiA. lia.
  - intros i Hi. apply HiB. lia.
Qed.

End Kernels.

(** ** Allocation *)

Lemma posix_memalign_ok p size s :
  size <= st_avail s ->
  posix_memalign p 32 size s = (Ok (0, Ptr (length (st_heap s))), grant 32 size s).
Proof.
  intros H. unfold posix_memalign. change (valid_alignment 32) with true. cbn [negb].
  destruct (st_avail s <? size) eqn:E; [apply Z.ltb_lt in E; lia | reflexivity].
Qed.

Lemma posix_memalign_refused p size s :
  st_avail s < size -> posix_memalign p 32 size s = (Ok (ENOMEM, p), s).
Proof.
  intros H. unfold posix_memalign. change (valid_alignment 32) with true. cbn [negb].
  destruct (st_avail s <? size) eqn:E; [reflexivity | apply Z.ltb_ge in E; lia].
Qed.

Lemma round_up_mod x a : 0 < a -> round_up x a mod a = 0.
Proof. intros H. unfold round_up. apply Z.mod_mul. lia. Qed.

Lemma allocate_ok n s :
  0 <= to_size_t (sizeof_float * n) ->
  3 * to_size_t (sizeof_float * n) <= st_avail s ->
  allocate n s
  = (Ok (Ptr (length (st_heap s)), Ptr (length (st_heap s) + 1),
         Ptr (length (st_heap s) + 2)),
     granted3 (to_size_t (sizeof_float * n)) s).
Proof.
  intros H0 H. unfold allocate. set (sz := to_size_t (sizeof_float * n)) in *.
  rewrite (bind_ok _ _ _ _ _ (posix_memalign_ok Wild sz s ltac:(lia))).
  rewrite (bind_ok _ _ _ _ _ (posix_memalign_ok Wild sz (grant 32 sz s) ltac:(cbn; lia))).
  rewrite (bind_ok _ _ _ _ _ (posix_memalign_ok Wild sz (grant 32 sz (grant 32 sz s))
    ltac:(cbn; lia))).
  unfold mret, M_ret. f_equal.
  - cbn [grant st_heap]. rewrite !length_app. cbn [length].
    replace (length (st_heap s) + 1 + 1)%nat with (length (st_heap s) + 2)%nat by lia.
    reflexivity.
  - unfold grant, granted3. cbn [st_heap st_brk st_avail st_clock st_out st_iter].
    rewrite <- !app_assoc. reflexivity.
Qed.

Lemma app3_lookup {A} (h : list A) x1 x2 x3 :
  (h ++ [x1; x2; x3]) !! length h = Some x1 /\
  (h ++ [x1; x2; x3]) !! (length h + 1)%nat = Some x2 /\
  (h ++ [x1; x2; x3]) !! (length h + 2)%nat = Some x3.
Proof. induction h as [|y h IH]; cbn; auto. Qed.

Lemma app3_insert {A} (h : list A) x1 x2 x3 y1 y2 y3 :
  <[length h := y1]> (h ++ [x1; x2; x3]) = h ++ [y1; x2; x3] /\
  <[(length h + 1)%nat := y2]> (h ++ [x1; x2; x3]) = h ++ [x1; y2; x3] /\
  <[(length h + 2)%nat := y3]> (h ++ [x1; x2; x3]) = h ++ [x1; x2; y3].
Proof.
  induction h as [|y h (IH1 & IH2 & IH3)]; cbn; auto.
  repeat split; f_equal; assumption.
Qed.

Lemma get_timestamp_eq s :
  get_timestamp s = (Ok (stamp (hd (0, 0) (st_clock s))), set_clock (tl (st_clock s)) s).
Proof. reflexivity. Qed.

Lemma initialised_gen f k B n : n <= Z.of_nat k -> initialised (gen_buf f k B) n.
Proof.
  intros H i Hi. cbn. rewrite gen_data_lookup, decide_True by lia. eauto.
Qed.

Lemma rd_gen f k B i : 0 <= i < Z.of_nat k -> rd (gen_buf f k B) i = f i.
Proof.
  intros Hi. unfold rd. cbn. rewrite gen_data_lookup, decide_True by lia. reflexivity.
Qed.

(** ** The runs *)

Lemma fill_state_heap (h : list buffer) F1 F2 F3 k g :
  st_heap g = h ++ [F1; F2; F3] ->
  st_heap (fill_state (length h) (length h + 1) F1 F2 k g)
  = h ++ [gen_buf val1 k F1; gen_buf val2 k F2; F3].
Proof.
  intros Hg. unfold fill_state. cbn [set_heap st_heap]. rewrite Hg.
  destruct (app3_insert h F1 F2 F3 (gen_buf val1 k F1) F2 F3) as (-> & _ & _).
  destruct (app3_insert h (gen_buf val1 k F1) F2 F3 F1 (gen_buf val2 k F2) F3)
    as (_ & -> & _).
  reflexivity.
Qed.

Lemma kernel_state_heap (h : list buffer) G1 G2 F3 iters k g :
  st_heap g = h ++ [G1; G2; F3] ->
  st_heap (kernel_state (length h + 2) F3 G1 G2 iters k g)
  = h ++ [G1; G2; gen_buf (sum_of G1 G2) k F3].
Proof.
  intros Hg. unfold kernel_state. cbn [set_heap st_heap]. rewrite Hg.
  destruct (app3_insert h G1 G2 F3 G1 G2 (gen_buf (sum_of G1 G2) k F3)) as (_ & _ & ->).
  reflexivity.
Qed.

Lemma granted3_fresh n s :
  0 <= n -> sizeof_float * n < 2 ^ 64 ->
  exists F1 F2 F3,
    fresh_for n F1 /\ fresh_for n F2 /\ fresh_for n F3 /\
    st_heap (granted3 (to_size_t (sizeof_float * n)) s) = st_heap s ++ [F1; F2; F3].
Proof.
  intros Hn Hsz. rewrite to_size_t_small by (unfold sizeof_float in *; lia).
  eexists _, _, _. split; [|split; [|split; [|reflexivity]]];
    (split; [reflexivity | split; [reflexivity | apply round_up_mod; lia]]).
Qed.

Lemma fresh_for_mod16 n F : fresh_for n F -> buf_base F mod 16 = 0.
Proof.
  intros (_ & _ & H). apply Z.mod_divide in H; [|lia]. destruct H as [x Hx].
  rewrite Hx. replace (x * 32) with (x * 2 * 16) by ring. apply Z.mod_mul. lia.
Qed.

(** The scalar run on a platform that grants the three buffers. *)
Lemma run_scalar_spec n s :
  0 <= n -> 3 * (sizeof_float * n) <= st_avail s -> st_avail s < 2 ^ 64 ->
  exists F1 F2 F3 s',
    fresh_for n F1 /\ fresh_for n F2 /\ fresh_for n F3 /\
    run_scalar n s
    = (Ok (f64_sub (stamp (hd (0, 0) (tl (st_clock s)))) (stamp (hd (0, 0) (st_clock s))),
           Ptr (length (st_heap s) + 2)), s') /\
    st_heap s' = st_heap s ++
      [gen_buf val1 (Z.to_nat n) F1; gen_buf val2 (Z.to_nat n) F2;
       gen_buf (sum_of (gen_buf val1 (Z.to_nat n) F1) (gen_buf val2 (Z.to_nat n) F2))
         (Z.to_nat n) F3] /\
    st_iter s' = st_iter s + 2 * n /\ st_out s' = st_out s /\
    st_avail s' = st_avail s - 3 * (sizeof_float * n).
Proof.
  intros Hn Hav Hlt.
  assert (Hsz : sizeof_float * n < 2 ^ 64) by (unfold sizeof_float in *; lia).
  destruct (granted3_fresh n s Hn Hsz) as (F1 & F2 & F3 & HF1 & HF2 & HF3 & Hg).
  exists F1, F2, F3.
  assert (Esz : to_size_t (sizeof_float * n) = sizeof_float * n).
  { apply to_size_t_small. unfold sizeof_float in *. lia. }
  set (g := granted3 (to_size_t (sizeof_float * n)) s) in *.
  set (h := st_heap s) in *. set (N := Z.to_nat n).
  destruct (app3_lookup h F1 F2 F3) as (L1 & L2 & L3).
  pose proof HF1 as (S1 & D1 & _). pose proof HF2 as (S2 & D2 & _).
  pose proof HF3 as (S3 & D3 & _).
  set (s1 := fill_state (length h) (length h + 1) F1 F2 N g).
  assert (Hs1 : st_heap s1 = h ++ [gen_buf val1 N F1; gen_buf val2 N F2; F3])
    by (apply fill_state_heap; exact Hg).
  set (G1 := gen_buf val1 N F1) in *. set (G2 := gen_buf val2 N F2) in *.
  destruct (app3_lookup h G1 G2 F3) as (M1 & M2 & M3).
  set (s2 := set_clock (tl (st_clock s1)) s1).
  set (s3 := kernel_state (length h + 2) F3 G1 G2 N N s2).
  exists (set_clock (tl (st_clock s3)) s3).
  split; [exact HF1|]. split; [exact HF2|]. split; [exact HF3|]. split.
  - unfold run_scalar.
    rewrite (bind_ok _ _ _ _ _ (allocate_ok n s ltac:(rewrite Esz; unfold sizeof_float; lia)
      ltac:(rewrite Esz; lia))).
    fold g. fold h.
    erewrite bind_ok; cycle 1.
    { apply (fill_spec (length h) (length h + 1) F1 F2).
      - rewrite Hg. exact L1.
      - rewrite Hg. exact L2.
      - lia.
      - unfold sizeof_float in *. lia.
      - lia.
      - lia. }
    fold N. fold s1.
    rewrite (bind_ok _ _ _ _ _ (get_timestamp_eq s1)). fold s2.
    erewrite bind_ok; cycle 1.
    { apply (compute_spec (length h + 2) (length h) (length h + 1) F3 G1 G2).
      - change (st_heap s2) with (st_heap s1). rewrite Hs1. exact M3.
      - change (st_heap s2) with (st_heap s1). rewrite Hs1. exact M1.
      - change (st_heap s2) with (st_heap s1). rewrite Hs1. exact M2.
      - unfold sizeof_float in *. lia.
      - lia.
      - cbn. lia.
      - cbn. lia.
      - apply initialised_gen. lia.
      - apply initialised_gen. lia. }
    fold N. fold s3.
    rewrite (bind_ok _ _ _ _ _ (get_timestamp_eq s3)).
    reflexivity.
  - split; [|split; [|split]].
    + change (st_heap (set_clock (tl (st_clock s3)) s3)) with (st_heap s3).
      apply kernel_state_heap. change (st_heap s2) with (st_heap s1). exact Hs1.
    + cbn. lia.
    + reflexivity.
    + cbn. rewrite Esz. lia.
Qed.

(** The SSE run on a platform that grants the three buffers, when the
    [nsse] of the converted count does not exceed the count. *)
Lemma run_vectorized_spec n s :
  0 <= n -> 3 * (sizeof_float * n) <= st_avail s -> st_avail s < 2 ^ 64 ->
  nsse_of (to_int n) <= n ->
  exists F1 F2 F3 s',
    fresh_for n F1 /\ fresh_for n F2 /\ fresh_for n F3 /\
    run_vectorized n s
    = (Ok (f64_sub (stamp (hd (0, 0) (tl (st_clock s)))) (stamp (hd (0, 0) (st_clock s))),
           Ptr (length (st_heap s) + 2)), s') /\
    st_heap s' = st_heap s ++
      [gen_buf val1 (Z.to_nat n) F1; gen_buf val2 (Z.to_nat n) F2;
       gen_buf (sum_of (gen_buf val1 (Z.to_nat n) F1) (gen_buf val2 (Z.to_nat n) F2))
         (Z.to_nat (nsse_of (to_int n))) F3] /\
    st_iter s' = st_iter s + n + nsse_of (to_int n) / 4 /\ st_out s' = st_out s /\
    st_avail s' = st_avail s - 3 * (sizeof_float * n).
Proof.
  intros Hn Hav Hlt Hnsse.
  assert (Hsz : sizeof_float * n < 2 ^ 64) by (unfold sizeof_float in *; lia).
  destruct (granted3_fresh n s Hn Hsz) as (F1 & F2 & F3 & HF1 & HF2 & HF3 & Hg).
  exists F1, F2, F3.
  assert (Esz : to_size_t (sizeof_float * n) = sizeof_float * n).
  { apply to_size_t_small. unfold sizeof_float in *. lia. }
  set (g := granted3 (to_size_t (sizeof_float * n)) s) in *.
  set (h := st_heap s) in *. set (N := Z.to_nat n).
  pose proof (nsse_of_range (to_int n)) as Hrange.
  set (nsse := nsse_of (to_int n)) in *.
  destruct (app3_lookup h F1 F2 F3) as (L1 & L2 & L3).
  pose proof HF1 as (S1 & D1 & _). pose proof HF2 as (S2 & D2 & _).
  pose proof HF3 as (S3 & D3 & _).
  set (s1 := fill_state (length h) (length h + 1) F1 F2 N g).
  assert (Hs1 : st_heap s1 = h ++ [gen_buf val1 N F1; gen_buf val2 N F2; F3])
    by (apply fill_state_heap; exact Hg).
  set (G1 := gen_buf val1 N F1) in *. set (G2 := gen_buf val2 N F2) in *.
  destruct (app3_lookup h G1 G2 F3) as (M1 & M2 & M3).
  set (s2 := set_clock (tl (st_clock s1)) s1).
  set (s3 := kernel_state (length h + 2) F3 G1 G2 (Z.to_nat (nsse / 4)) (Z.to_nat nsse) s2).
  exists (set_clock (tl (st_clock s3)) s3).
  split; [exact HF1|]. split; [exact HF2|]. split; [exact HF3|]. split.
  - unfold run_vectorized.
    rewrite (bind_ok _ _ _ _ _ (allocate_ok n s ltac:(rewrite Esz; unfold sizeof_float; lia)
      ltac:(rewrite Esz; lia))).
    fold g. fold h.
    erewrite bind_ok; cycle 1.
    { apply (fill_spec (length h) (length h + 1) F1 F2).
      - rewrite Hg. exact L1.
      - rewrite Hg. exact L2.
      - lia.
      - unfold sizeof_float in *. lia.
      - lia.
      - lia. }
    fold N. fold s1.
    rewrite (bind_ok _ _ _ _ _ (get_timestamp_eq s1)). fold s2.
    erewrite bind_ok; cycle 1.
    { apply (compute_sse_spec (length h + 2) (length h) (length h + 1) F3 G1 G2).
      - change (st_heap s2) with (st_heap s1). rewrite Hs1. exact M3.
      - change (st_heap s2) with (st_heap s1). rewrite Hs1. exact M1.
      - change (st_heap s2) with (st_heap s1). rewrite Hs1. exact M2.
      - apply (fresh_for_mod16 n). exact HF3.
      - change (buf_base G1) with (buf_base F1). apply (fresh_for_mod16 n). exact HF1.
      - change (buf_base G2) with (buf_base F2). apply (fresh_for_mod16 n). exact HF2.
      - fold nsse. unfold sizeof_float in *. lia.
      - fold nsse. cbn. unfold sizeof_float in *. lia.
      - fold nsse. cbn. unfold sizeof_float in *. lia.
      - apply initialised_gen. fold nsse. lia.
      - apply initialised_gen. fold nsse. lia. }
    fold nsse. fold s3.
    rewrite (bind_ok _ _ _ _ _ (get_timestamp_eq s3)).
    reflexivity.
  - split; [|split; [|split]].
    + change (st_heap (set_clock (tl (st_clock s3)) s3)) with (st_heap s3).
      apply kernel_state_heap. change (st_heap s2) with (st_heap s1). exact Hs1.
    + cbn. pose proof (Z.div_pos nsse 4). lia.
    + reflexivity.
    + cbn. rewrite Esz. lia.
Qed.

(** The SSE run when the [nsse] of the converted count exceeds the count:
    the kernel faults on the buffers it was given. *)
Lemma run_vectorized_overrun n s :
  0 <= n -> 3 * (sizeof_float * n) <= st_avail s -> st_avail s < 2 ^ 64 ->
  n < nsse_of (to_int n) ->
  fst (run_vectorized n s) = Crash OutOfBounds.
Proof.
  intros Hn Hav Hlt Hnsse.
  assert (Hsz : sizeof_float * n < 2 ^ 64) by (unfold sizeof_float in *; lia).
  destruct (granted3_fresh n s Hn Hsz) as (F1 & F2 & F3 & HF1 & HF2 & HF3 & Hg).
  assert (Esz : to_size_t (sizeof_float * n) = sizeof_float * n).
  { apply to_size_t_small. unfold sizeof_float in *. lia. }
  set (g := granted3 (to_size_t (sizeof_float * n)) s) in *.
  set (h := st_heap s) in *. set (N := Z.to_nat n).
  destruct (app3_lookup h F1 F2 F3) as (L1 & L2 & L3).
  pose proof HF1 as (S1 & D1 & _). pose proof HF2 as (S2 & D2 & _).
  pose proof HF3 as (S3 & D3 & _).
  set (s1 := fill_state (length h) (length h + 1) F1 F2 N g).
  assert (Hs1 : st_heap s1 = h ++ [gen_buf val1 N F1; gen_buf val2 N F2; F3])
    by (apply fill_state_heap; exact Hg).
  set (G1 := gen_buf val1 N F1) in *. set (G2 := gen_buf val2 N F2) in *.
  destruct (app3_lookup h G1 G2 F3) as (M1 & M2 & M3).
  set (s2 := set_clock (tl (st_clock s1)) s1).
  unfold run_vectorized.
  rewrite (bind_ok _ _ _ _ _ (allocate_ok n s ltac:(rewrite Esz; unfold sizeof_float; lia)
    ltac:(rewrite Esz; lia))).
  fold g. fold h.
  erewrite bind_ok; cycle 1.
  { apply (fill_spec (length h) (length h + 1) F1 F2).
    - rewrite Hg. exact L1.
    - rewrite Hg. exact L2.
    - lia.
    - unfold sizeof_float in *. lia.
    - lia.
    - lia. }
  fold N. fold s1.
  rewrite (bind_ok _ _ _ _ _ (get_timestamp_eq s1)). fold s2.
  erewrite bind_crash; [reflexivity|].
  apply (compute_sse_overrun (length h + 2) (length h) (length h + 1) F3 G1 G2)
    with (len := n).
  - change (st_heap s2) with (st_heap s1). rewrite Hs1. exact M3.
  - change (st_heap s2) with (st_heap s1). rewrite Hs1. exact M1.
  - change (st_heap s2) with (st_heap s1). rewrite Hs1. exact M2.
  - apply (fresh_for_mod16 n). exact HF3.
  - change (buf_base G1) with (buf_base F1). apply (fresh_for_mod16 n). exact HF1.
  - change (buf_base G2) with (buf_base F2). apply (fresh_for_mod16 n). exact HF2.
  - lia.
  - exact S3.
  - exact S1.
  - exact S2.
  - apply initialised_gen. lia.
  - apply initialised_gen. lia.
Qed.

(** ** binary32: the sums are numbers *)

Lemma shr_nonneg mrs e n : 0 <= shr_m mrs -> 0 <= shr_m (fst (shr mrs e n)).
Proof.
  intros H. destruct n as [|k|k]; cbn [shr fst]; try exact H.
  rewrite iter_pos_shr_m by exact H. apply Z.div_pos; [exact H | lia].
Qed.

Lemma shr_record_of_loc_m m l : shr_m (shr_record_of_loc m l) = m.
Proof. destruct l as [|[| |]]; reflexivity. Qed.

Lemma round_aux_not_nan prec emax s m e l :
  0 <= m -> binary_round_aux prec emax s m e l <> S754_nan.
Proof.
  intros Hm. unfold binary_round_aux, shr_fexp.
  pose proof (shr_nonneg (shr_record_of_loc m l) e
    (fexp prec emax (Zdigits2 m + e) - e)) as H1.
  rewrite shr_record_of_loc_m in H1. specialize (H1 Hm).
  destruct (shr (shr_record_of_loc m l) e (fexp prec emax (Zdigits2 m + e) - e))
    as [mrs' e'] eqn:E1. cbn [fst] in H1.
  set (m1 := round_nearest_even (shr_m mrs') (loc_of_shr_record mrs')).
  assert (Hm1 : 0 <= m1).
  { subst m1. destruct (round_nearest_even_cases (shr_m mrs') (loc_of_shr_record mrs'))
      as [-> | ->]; lia. }
  pose proof (shr_nonneg (shr_record_of_loc m1 loc_Exact) e'
    (fexp prec emax (Zdigits2 m1 + e') - e')) as H2.
  rewrite shr_record_of_loc_m in H2. specialize (H2 Hm1).
  destruct (shr (shr_record_of_loc m1 loc_Exact) e' (fexp prec emax (Zdigits2 m1 + e') - e'))
    as [mrs'' e''] eqn:E2. cbn [fst] in H2.
  destruct (shr_m mrs'') as [|q|q]; [discriminate | | lia].
  destruct (e'' <=? emax - prec); discriminate.
Qed.

Lemma f32_of_Z_shape i :
  0 <= i < 2 ^ 64 ->
  f32_of_Z i = S754_zero false \/ exists m e, f32_of_Z i = S754_finite false m e.
Proof.
  intros Hi. destruct i as [|p|p]; [left; reflexivity | right | lia].
  rewrite f32_of_Z_pos.
  pose proof (digits2_pos_bounds p) as Hb.
  set (d := Zpos (digits2_pos p)) in *.
  assert (Hd : 0 < d <= 64).
  { split; [subst d; lia|].
    destruct (Z_lt_le_dec 64 d) as [Hgt|]; [|lia].
    assert (2 ^ 64 <= 2 ^ (d - 1)) by (apply Z.pow_le_mono_r; lia). lia. }
  destruct (d - 24) as [|k|k] eqn:E; eauto.
  - destruct (round_big p) as (m & q & _ & _ & Hr); [fold d; lia|].
    exists m, (q + 0). apply Hr. lia.
  - destruct (round_big p) as (m & q & _ & _ & Hr); [fold d; lia|].
    exists m, (q + 0). apply Hr. lia.
Qed.

Lemma f32_add_not_nan i j :
  0 <= i < 2 ^ 64 -> 0 <= j < 2 ^ 64 -> f32_add (f32_of_Z i) (f32_of_Z j) <> S754_nan.
Proof.
  intros Hi Hj.
  destruct (f32_of_Z_shape i Hi) as [-> | (m1 & e1 & ->)];
    destruct (f32_of_Z_shape j Hj) as [-> | (m2 & e2 & ->)];
    try discriminate.
  unfold f32_add, SFadd. cbn [cond_Zopp].
  set (x := fst (shl_align m1 e1 (Z.min e1 e2))).
  set (y := fst (shl_align m2 e2 (Z.min e1 e2))).
  change (Z.pos x + Z.pos y) with (Z.pos (x + y)).
  unfold binary_normalize, binary_round.
  destruct (shl_align (x + y) (Z.min e1 e2) _) as [mz ez].
  apply round_aux_not_nan. lia.
Qed.

Lemma f32_eqb_refl x : x <> S754_nan -> f32_eqb x x = true.
Proof.
  intros Hx. unfold f32_eqb, SFeqb.
  destruct x as [[|]|[|]| |[|] m e]; try reflexivity; try congruence;
    cbn [SFcompare]; rewrite Z.compare_refl, Pos.compare_cont_refl; reflexivity.
Qed.

(** What both kernels leave at index [i] of the result for the generated
    inputs: C's [a[i] + b[i]] with [a[i] = (float)i] and [b[i] = (float)i*2]. *)
Lemma sum_of_generated k1 k2 F1 F2 i :
  0 <= i < Z.of_nat k1 -> 0 <= i < Z.of_nat k2 -> i < 2 ^ 64 ->
  sum_of (gen_buf val1 k1 F1) (gen_buf val2 k2 F2) i
  = f32_add (f32_of_Z i) (f32_of_Z (2 * i)).
Proof.
  intros H1 H2 H3. unfold sum_of. rewrite !rd_gen by assumption.
  unfold val1, val2. rewrite f32_double by lia. reflexivity.
Qed.

(** The scalar run: where the result is and what it holds. *)
Lemma scalar_run_cells n s :
  0 <= n -> 3 * (sizeof_float * n) <= st_avail s -> st_avail s < 2 ^ 64 ->
  exists d buf s',
    run_scalar n s = (Ok (d, Ptr (length (st_heap s) + 2)), s') /\
    st_heap s' !! (length (st_heap s) + 2)%nat = Some buf /\
    buf_size buf = sizeof_float * n /\
    forall i, 0 <= i < n ->
      buf_data buf !! i = Some (f32_add (f32_of_Z i) (f32_of_Z (2 * i))).
Proof.
  intros Hn Hav Hlt.
  destruct (run_scalar_spec n s Hn Hav Hlt)
    as (F1 & F2 & F3 & s' & HF1 & HF2 & HF3 & Hrun & Hheap & _).
  set (G1 := gen_buf val1 (Z.to_nat n) F1) in *.
  set (G2 := gen_buf val2 (Z.to_nat n) F2) in *.
  set (G3 := gen_buf (sum_of G1 G2) (Z.to_nat n) F3) in *.
  destruct (app3_lookup (st_heap s) G1 G2 G3) as (_ & _ & L3).
  rewrite <- Hheap in L3.
  eexists _, G3, s'. split; [exact Hrun|]. split; [exact L3|]. split.
  { destruct HF3 as (S3 & _). exact S3. }
  intros i Hi. subst G3. cbn [gen_buf buf_data].
  rewrite gen_data_lookup, decide_True by lia. subst G1 G2.
  rewrite sum_of_generated by (unfold sizeof_float in *; lia). reflexivity.
Qed.

(** ** Invariants of loops and what the accesses can change *)

Lemma for_loop_inv (Inv : state -> Prop) (P : Z -> Prop) cond incr body :
  (forall i, P i -> cond i = true -> P (incr i)) ->
  (forall s, Inv s -> Inv (add_iter 1 s)) ->
  (forall i s r s', P i -> Inv s -> body i s = (r, s') -> Inv s') ->
  forall fuel i s r s',
    P i -> Inv s -> for_loop fuel cond incr body i s = (r, s') -> Inv s'.
Proof.
  intros HP Htick Hbody. induction fuel as [|fuel IH]; intros i s r s' Hi Hs Hrun;
    cbn [for_loop] in Hrun; destruct (cond i) eqn:Hc;
    try (inversion Hrun; subst; exact Hs).
  apply bind_inv in Hrun. destruct Hrun as [(u & s1 & Ht & Hrun) | (f & Ht & _)];
    [|discriminate].
  inversion Ht; subst s1. clear Ht.
  apply bind_inv in Hrun. destruct Hrun as [(u' & s2 & Hb & Hrun) | (f & Hb & _)].
  - apply (IH (incr i) s2 r s'); [apply HP; assumption | | exact Hrun].
    apply (Hbody i _ _ _ Hi (Htick s Hs) Hb).
  - apply (Hbody i _ _ _ Hi (Htick s Hs) Hb).
Qed.


Lemma deref_state p s r s' : deref p s = (r, s') -> s' = s.
Proof.
  unfold deref. destruct p as [|b]; [intros H; inversion H; reflexivity|].
  destruct (st_heap s !! b); intros H; inversion H; reflexivity.
Qed.

Lemma deref_inv p s x s' :
  deref p s = (Ok x, s') -> s' = s /\ p = Ptr x.1 /\ st_heap s !! x.1 = Some x.2.
Proof.
  unfold deref. destruct p as [|b]; [discriminate|].
  destruct (st_heap s !! b) as [buf|] eqn:E; [|discriminate].
  intros H. inversion H; subst. auto.
Qed.

Lemma load_state p i s r s' : load p i s = (r, s') -> s' = s.
Proof.
  unfold load. intros H. apply bind_inv in H.
  destruct H as [([b buf] & s1 & Hd & H) | (f & Hd & _)].
  - apply deref_state in Hd. subst s1.
    destruct (in_bounds buf i 1); [|inversion H; reflexivity].
    destruct (buf_data buf !! i); inversion H; reflexivity.
  - apply deref_state in Hd. exact Hd.
Qed.

Lemma mm_load_state p i s r s' : _mm_load_ps p i s = (r, s') -> s' = s.
Proof.
  unfold _mm_load_ps. intros H. apply bind_inv in H.
  destruct H as [([b buf] & s1 & Hd & H) | (f & Hd & _)].
  - apply deref_state in Hd. subst s1.
    destruct (negb (aligned16 buf i)); [inversion H; reflexivity|].
    destruct (negb (in_bounds buf i 4)); [inversion H; reflexivity|].
    destruct (buf_data buf !! i), (buf_data buf !! (i + 1)),
      (buf_data buf !! (i + 2)), (buf_data buf !! (i + 3)); inversion H; reflexivity.
  - apply deref_state in Hd. exact Hd.
Qed.

Lemma store_inv p i v s r s' :
  store p i v s = (r, s') ->
  s' = s \/
  exists b buf, p = Ptr b /\ st_heap s !! b = Some buf /\ in_bounds buf i 1 = true /\
    s' = set_heap (<[b := write_cell i v buf]> (st_heap s)) s.
Proof.
  unfold store. intros H. apply bind_inv in H.
  destruct H as [([b buf] & s1 & Hd & H) | (f & Hd & _)].
  - apply deref_inv in Hd. destruct Hd as (-> & Hp & Hl). cbn [fst snd] in *.
    destruct (in_bounds buf i 1) eqn:Hb; [|inversion H; auto].
    right. exists b, buf. inversion H. auto.
  - apply deref_state in Hd. auto.
Qed.

Lemma mm_store_inv p i v s r s' :
  _mm_store_ps p i v s = (r, s') ->
  s' = s \/
  exists b buf, p = Ptr b /\ st_heap s !! b = Some buf /\
    aligned16 buf i = true /\ in_bounds buf i 4 = true /\
    s' = set_heap (<[b := write_lanes i v buf]> (st_heap s)) s.
Proof.
  unfold _mm_store_ps. intros H. apply bind_inv in H.
  destruct H as [([b buf] & s1 & Hd & H) | (f & Hd & _)].
  - apply deref_inv in Hd. destruct Hd as (-> & Hp & Hl). cbn [fst snd] in *.
    destruct (aligned16 buf i) eqn:Ha; cbn [negb] in H; [|inversion H; auto].
    destruct (in_bounds buf i 4) eqn:Hb; cbn [negb] in H; [|inversion H; auto].
    right. exists b, buf. inversion H. auto.
  - apply deref_state in Hd. auto.
Qed.

Lemma compute_body_effect r a b i s res s' :
  (x ← load a i; y ← load b i; store r i (f32_add x y)) s = (res, s') ->
  s' = s \/
  exists rb buf v, r = Ptr rb /\ st_heap s !! rb = Some buf /\
    in_bounds buf i 1 = true /\
    s' = set_heap (<[rb := write_cell i v buf]> (st_heap s)) s.
Proof.
  intros H. apply bind_inv in H.
  destruct H as [(x & s1 & Hx & H) | (f & Hx & _)];
    apply load_state in Hx; [subst s1 | auto].
  apply bind_inv in H.
  destruct H as [(y & s1 & Hy & H) | (f & Hy & _)];
    apply load_state in Hy; [subst s1 | auto].
  apply store_inv in H. destruct H as [H | (rb & buf & Hp & Hl & Hb & H)]; [auto|].
  right. exists rb, buf, (f32_add x y). auto.
Qed.

Lemma sse_body_effect r a b i s res s' :
  (sse_a ← _mm_load_ps a i; sse_b ← _mm_load_ps b i;
   let sse_r := _mm_add_ps sse_a sse_b in _mm_store_ps r i sse_r) s = (res, s') ->
  s' = s \/
  exists rb buf v, r = Ptr rb /\ st_heap s !! rb = Some buf /\
    aligned16 buf i = true /\ in_bounds buf i 4 = true /\
    s' = set_heap (<[rb := write_lanes i v buf]> (st_heap s)) s.
Proof.
  intros H. apply bind_inv in H.
  destruct H as [(x & s1 & Hx & H) | (f & Hx & _)];
    apply mm_load_state in Hx; [subst s1 | auto].
  apply bind_inv in H.
  destruct H as [(y & s1 & Hy & H) | (f & Hy & _)];
    apply mm_load_state in Hy; [subst s1 | auto].
  cbv zeta in H.
  apply mm_store_inv in H. destruct H as [H | (rb & buf & Hp & Hl & Ha & Hb & H)]; [auto|].
  right. exists rb, buf, (_mm_add_ps x y). auto.
Qed.

Lemma same_but_refl r s : same_but r s s.
Proof. unfold same_but. auto 10. Qed.

Lemma same_but_put r rb buf s0 s :
  r = Ptr rb -> same_but r s0 s ->
  same_but r s0 (set_heap (<[rb := buf]> (st_heap s)) s).
Proof.
  intros -> (H1 & H2 & H3 & H4 & H5 & H6). unfold same_but. cbn.
  rewrite length_insert. repeat (split; [assumption|]).
  intros p Hp. rewrite list_lookup_insert_ne by congruence. apply H6. exact Hp.
Qed.


Lemma compute_same_but r a b n s res s' :
  compute r a b n s = (res, s') -> same_but r s s'.
Proof.
  intros Hrun. unfold compute in Hrun.
  apply (for_loop_inv (same_but r s) (fun _ => True)) in Hrun; auto.
  - intros i s1 r1 s2 _ Hs1 Hb. apply compute_body_effect in Hb.
    destruct Hb as [-> | (rb & buf & v & Hp & _ & _ & ->)]; [exact Hs1|].
    apply same_but_put; assumption.
  - apply same_but_refl.
Qed.

Lemma compute_sse_same_but r a b n s res s' :
  compute_sse r a b n s = (res, s') -> same_but r s s'.
Proof.
  intros Hrun. unfold compute_sse in Hrun.
  apply (for_loop_inv (same_but r s) (fun _ => True)) in Hrun; auto.
  - intros i s1 r1 s2 _ Hs1 Hb. apply sse_body_effect in Hb.
    destruct Hb as [-> | (rb & buf & v & Hp & _ & _ & _ & ->)]; [exact Hs1|].
    apply same_but_put; assumption.
  - apply same_but_refl.
Qed.

(** ** Runs with no element *)

Lemma allocate_zero s :
  0 <= st_avail s ->
  allocate 0 s
  = (Ok (Ptr (length (st_heap s)), Ptr (length (st_heap s) + 1),
         Ptr (length (st_heap s) + 2)), granted3 0 s).
Proof.
  intros Hav. apply (allocate_ok 0 s); change (to_size_t (sizeof_float * 0)) with 0; lia.
Qed.

Lemma granted3_result size s :
  exists base,
    st_heap (granted3 size s) !! (length (st_heap s) + 2)%nat
    = Some (fresh_buffer base size).
Proof.
  eexists. cbn [st_heap granted3].
  match goal with |- (_ ++ [?x1; ?x2; ?x3]) !! _ = _ =>
    destruct (app3_lookup (st_heap s) x1 x2 x3) as (_ & _ & L3) end.
  exact L3.
Qed.

Lemma run_scalar_zero s :
  0 <= st_avail s ->
  run_scalar 0 s
  = (Ok (f64_sub (stamp (hd (0, 0) (tl (st_clock s)))) (stamp (hd (0, 0) (st_clock s))),
         Ptr (length (st_heap s) + 2)),
     set_clock (tl (tl (st_clock s))) (granted3 0 s)).
Proof.
  intros Hav. unfold run_scalar. rewrite (bind_ok _ _ _ _ _ (allocate_zero s Hav)).
  reflexivity.
Qed.

Lemma run_vectorized_zero s :
  0 <= st_avail s ->
  run_vectorized 0 s
  = (Ok (f64_sub (stamp (hd (0, 0) (tl (st_clock s)))) (stamp (hd (0, 0) (st_clock s))),
         Ptr (length (st_heap s) + 2)),
     set_clock (tl (tl (st_clock s))) (granted3 0 s)).
Proof.
  intros Hav. unfold run_vectorized. rewrite (bind_ok _ _ _ _ _ (allocate_zero s Hav)).
  reflexivity.
Qed.

(** ** The drivers *)

Lemma bind_ok_inv {A B} (m : M A) (k : A -> M B) s b s2 :
  (m ≫= k) s = (Ok b, s2) -> exists a s1, m s = (Ok a, s1) /\ k a s1 = (Ok b, s2).
Proof.
  intros H. apply bind_inv in H. destruct H as [H | (f & _ & H)]; [exact H | discriminate].
Qed.

Lemma main_simple_missing prog s :
  main_simple prog [] s = (Ok 1, add_out (usage_line prog) s).
Proof. reflexivity. Qed.

Lemma main_sse_missing prog s :
  main_sse prog [] s = (Ok 1, add_out (usage_line prog) s).
Proof. reflexivity. Qed.

Lemma main_simple_exit prog arg rest s code s' :
  main_simple prog (arg :: rest) s = (Ok code, s') ->
  code = 0 /\
  exists d r s1 s2,
    run_scalar (to_size_t (atoll arg)) (add_out (using_line (to_size_t (atoll arg))) s)
      = (Ok (d, r), s1) /\
    print_first4 r s2 = (Ok tt, s') /\ st_heap s2 = st_heap s1.
Proof.
  unfold main_simple. intros H.
  apply bind_ok_inv in H. destruct H as ([] & s0 & H0 & H). inversion H0; subst s0. clear H0.
  apply bind_ok_inv in H. destruct H as ([d r] & s1 & H1 & H).
  apply bind_ok_inv in H. destruct H as ([] & s2 & H2 & H). inversion H2; subst s2. clear H2.
  apply bind_ok_inv in H. destruct H as ([] & s3 & H3 & H). inversion H; subst.
  split; [reflexivity|]. eexists d, r, s1, _. split; [exact H1|]. split; [exact H3|].
  reflexivity.
Qed.

Lemma main_sse_exit prog arg rest s code s' :
  main_sse prog (arg :: rest) s = (Ok code, s') ->
  code = 0 /\
  exists d r s1 s2,
    run_vectorized (to_size_t (atoll arg)) (add_out (using_line (to_size_t (atoll arg))) s)
      = (Ok (d, r), s1) /\
    print_first4 r s2 = (Ok tt, s') /\ st_heap s2 = st_heap s1.
Proof.
  unfold main_sse. intros H.
  apply bind_ok_inv in H. destruct H as ([] & s0 & H0 & H). inversion H0; subst s0. clear H0.
  apply bind_ok_inv in H. destruct H as ([d r] & s1 & H1 & H).
  apply bind_ok_inv in H. destruct H as ([] & s2 & H2 & H). inversion H2; subst s2. clear H2.
  apply bind_ok_inv in H. destruct H as ([] & s3 & H3 & H). inversion H; subst.
  split; [reflexivity|]. eexists d, r, s1, _. split; [exact H1|]. split; [exact H3|].
  reflexivity.
Qed.

Lemma print_first4_ok r s s' :
  print_first4 r s = (Ok tt, s') ->
  exists b buf, r = Ptr b /\ st_heap s !! b = Some buf /\ st_heap s' = st_heap s.
Proof.
  unfold print_first4. intros H.
  apply bind_ok_inv in H. destruct H as (r0 & s0 & H0 & H).
  pose proof (load_state _ _ _ _ _ H0) as ->.
  apply bind_ok_inv in H. destruct H as (r1 & s1 & H1 & H).
  pose proof (load_state _ _ _ _ _ H1) as ->.
  apply bind_ok_inv in H. destruct H as (r2 & s2 & H2 & H).
  pose proof (load_state _ _ _ _ _ H2) as ->.
  apply bind_ok_inv in H. destruct H as (r3 & s3 & H3 & H).
  pose proof (load_state _ _ _ _ _ H3) as ->.
  inversion H; subst. clear H.
  unfold load in H0. apply bind_ok_inv in H0. destruct H0 as ([b buf] & s0 & Hd & _).
  apply deref_inv in Hd. destruct Hd as (_ & Hp & Hl). eauto.
Qed.

Lemma print_first4_wild s : print_first4 Wild s = (Crash WildPointer, s).
Proof. reflexivity. Qed.

Lemma fill_length d1 d2 n s r s' :
  fill d1 d2 n s = (r, s') -> length (st_heap s') = length (st_heap s).
Proof.
  unfold fill. intros H.
  apply (for_loop_inv (fun x => length (st_heap x) = length (st_heap s)) (fun _ => True))
    in H; auto.
  intros i s1 r1 s2 _ Hs1 Hb.
  apply bind_inv in Hb. destruct Hb as [(u & s3 & Hst & Hb) | (f & Hst & _)].
  - apply store_inv in Hst. apply store_inv in Hb.
    destruct Hst as [-> | (? & ? & _ & _ & _ & ->)];
      destruct Hb as [-> | (? & ? & _ & _ & _ & ->)]; cbn; rewrite ?length_insert; auto.
  - apply store_inv in Hst.
    destruct Hst as [-> | (? & ? & _ & _ & _ & ->)]; cbn; rewrite ?length_insert; auto.
Qed.

(** What the three requests of [allocate] give, by the space left. *)
Lemma allocate_cases n s :
  allocate n s =
  let sz := to_size_t (sizeof_float * n) in
  let l := length (st_heap s) in
  if st_avail s <? sz then (Ok (Wild, Wild, Wild), s)
  else if st_avail s - sz <? sz then (Ok (Ptr l, Wild, Wild), grant 32 sz s)
  else if st_avail s - sz - sz <? sz
    then (Ok (Ptr l, Ptr (l + 1), Wild), grant 32 sz (grant 32 sz s))
  else (Ok (Ptr l, Ptr (l + 1), Ptr (l + 2)), granted3 sz s).
Proof.
  cbv zeta. set (sz := to_size_t (sizeof_float * n)).
  pose proof (to_size_t_range (sizeof_float * n)) as Hsz. fold sz in Hsz.
  destruct (st_avail s <? sz) eqn:E1.
  { apply Z.ltb_lt in E1. unfold allocate. fold sz.
    rewrite !(bind_ok _ _ _ _ _ (posix_memalign_refused Wild sz s E1)). reflexivity. }
  apply Z.ltb_ge in E1.
  destruct (st_avail s - sz <? sz) eqn:E2.
  { apply Z.ltb_lt in E2. unfold allocate. fold sz.
    rewrite (bind_ok _ _ _ _ _ (posix_memalign_ok Wild sz s E1)).
    rewrite !(bind_ok _ _ _ _ _ (posix_memalign_refused Wild sz (grant 32 sz s) E2)).
    reflexivity. }
  apply Z.ltb_ge in E2.
  destruct (st_avail s - sz - sz <? sz) eqn:E3.
  { apply Z.ltb_lt in E3. unfold allocate. fold sz.
    rewrite (bind_ok _ _ _ _ _ (posix_memalign_ok Wild sz s E1)).
    rewrite (bind_ok _ _ _ _ _ (posix_memalign_ok Wild sz (grant 32 sz s) E2)).
    rewrite (bind_ok _ _ _ _ _
      (posix_memalign_refused Wild sz (grant 32 sz (grant 32 sz s)) E3)).
    cbn [grant st_heap]. rewrite length_app. reflexivity. }
  apply Z.ltb_ge in E3. apply allocate_ok; fold sz; lia.
Qed.

Lemma allocate_lengths n s p1 p2 p3 s1 :
  allocate n s = (Ok (p1, p2, p3), s1) ->
  (p3 = Wild /\ length (st_heap s) <= length (st_heap s1))%nat \/
  (length (st_heap s1) = length (st_heap s) + 3)%nat.
Proof.
  rewrite allocate_cases. cbv zeta.
  destruct (_ <? _); [intros H; inversion H; subst; left; auto|].
  destruct (_ <? _); [intros H; inversion H; subst; left; split; [reflexivity|];
    cbn; rewrite length_app; lia|].
  destruct (_ <? _); [intros H; inversion H; subst; left; split; [reflexivity|];
    cbn; rewrite !length_app; lia|].
  intros H; inversion H; subst. right. cbn. rewrite length_app. reflexivity.
Qed.

Lemma run_scalar_ok_inv n s d r s' :
  run_scalar n s = (Ok (d, r), s') ->
  exists p1 p2 s1,
    allocate n s = (Ok (p1, p2, r), s1) /\ length (st_heap s') = length (st_heap s1).
Proof.
  unfold run_scalar. intros H.
  apply bind_ok_inv in H. destruct H as ([[p1 p2] p3] & s1 & Ha & H).
  apply bind_ok_inv in H. destruct H as ([] & s2 & Hf & H).
  apply bind_ok_inv in H. destruct H as (t0 & s3 & Ht & H).
  rewrite get_timestamp_eq in Ht. inversion Ht; subst s3 t0. clear Ht.
  apply bind_ok_inv in H. destruct H as ([] & s4 & Hc & H).
  apply bind_ok_inv in H. destruct H as (t1 & s5 & Ht & H).
  rewrite get_timestamp_eq in Ht. inversion Ht; subst s5 t1. clear Ht.
  inversion H; subst. exists p1, p2, s1. split; [exact Ha|].
  apply fill_length in Hf. apply compute_same_but in Hc. destruct Hc as (Hc & _).
  cbn in *. lia.
Qed.

Lemma run_vectorized_ok_inv n s d r s' :
  run_vectorized n s = (Ok (d, r), s') ->
  exists p1 p2 s1,
    allocate n s = (Ok (p1, p2, r), s1) /\ length (st_heap s') = length (st_heap s1).
Proof.
  unfold run_vectorized. intros H.
  apply bind_ok_inv in H. destruct H as ([[p1 p2] p3] & s1 & Ha & H).
  apply bind_ok_inv in H. destruct H as ([] & s2 & Hf & H).
  apply bind_ok_inv in H. destruct H as (t0 & s3 & Ht & H).
  rewrite get_timestamp_eq in Ht. inversion Ht; subst s3 t0. clear Ht.
  apply bind_ok_inv in H. destruct H as ([] & s4 & Hc & H).
  apply bind_ok_inv in H. destruct H as (t1 & s5 & Ht & H).
  rewrite get_timestamp_eq in Ht. inversion Ht; subst s5 t1. clear Ht.
  inversion H; subst. exists p1, p2, s1. split; [exact Ha|].
  apply fill_length in Hf. apply compute_sse_same_but in Hc. destruct Hc as (Hc & _).
  cbn in *. lia.
Qed.

(** ** The fuel of the loops is enough *)

Lemma deref_fault p s f s' : deref p s = (Crash f, s') -> f = WildPointer.
Proof.
  unfold deref. destruct p as [|b]; [intros H; inversion H; reflexivity|].
  destruct (st_heap s !! b); intros H; inversion H; reflexivity.
Qed.

Lemma load_fault p i s f s' : load p i s = (Crash f, s') -> f <> OutOfFuel.
Proof.
  unfold load. intros H. apply bind_inv in H.
  destruct H as [([b buf] & s1 & _ & H) | (f' & Hd & Hf)].
  - destruct (in_bounds buf i 1); [|inversion H; discriminate].
    destruct (buf_data buf !! i); inversion H; discriminate.
  - apply deref_fault in Hd. inversion Hf; subst. discriminate.
Qed.

Lemma store_fault p i v s f s' : store p i v s = (Crash f, s') -> f <> OutOfFuel.
Proof.
  unfold store. intros H. apply bind_inv in H.
  destruct H as [([b buf] & s1 & _ & H) | (f' & Hd & Hf)].
  - destruct (in_bounds buf i 1); inversion H; discriminate.
  - apply deref_fault in Hd. inversion Hf; subst. discriminate.
Qed.

Lemma mm_load_fault p i s f s' : _mm_load_ps p i s = (Crash f, s') -> f <> OutOfFuel.
Proof.
  unfold _mm_load_ps. intros H. apply bind_inv in H.
  destruct H as [([b buf] & s1 & _ & H) | (f' & Hd & Hf)].
  - destruct (negb (aligned16 buf i)); [inversion H; discriminate|].
    destruct (negb (in_bounds buf i 4)); [inversion H; discriminate|].
    destruct (buf_data buf !! i), (buf_data buf !! (i + 1)),
      (buf_data buf !! (i + 2)), (buf_data buf !! (i + 3)); inversion H; discriminate.
  - apply deref_fault in Hd. inversion Hf; subst. discriminate.
Qed.

Lemma mm_store_fault p i v s f s' :
  _mm_store_ps p i v s = (Crash f, s') -> f <> OutOfFuel.
Proof.
  unfold _mm_store_ps. intros H. apply bind_inv in H.
  destruct H as [([b buf] & s1 & _ & H) | (f' & Hd & Hf)].
  - destruct (negb (aligned16 buf i)); [inversion H; discriminate|].
    destruct (negb (in_bounds buf i 4)); inversion H; discriminate.
  - apply deref_fault in Hd. inversion Hf; subst. discriminate.
Qed.

(** A loop that counts up to [n] by [step] gets through with
    [(n - i) / step] iterations left. *)
Lemma counted_loop_fuel step n body :
  0 < step -> n < 2 ^ 64 -> (step | n) ->
  (forall i s f s', body i s = (Crash f, s') -> f <> OutOfFuel) ->
  forall fuel i s,
    0 <= i -> (step | i) -> n - i <= step * Z.of_nat fuel ->
    fst (for_loop fuel (fun i => i <? n) (fun i => to_size_t (i + step)) body i s)
    <> Crash OutOfFuel.
Proof.
  intros Hstep Hn Hdn Hbody. induction fuel as [|fuel IH]; intros i s Hi Hdi Hfuel;
    cbn [for_loop]; destruct (i <? n) eqn:Hc; try discriminate.
  - apply Z.ltb_lt in Hc. lia.
  - apply Z.ltb_lt in Hc.
    assert (Hnext : i + step <= n).
    { destruct Hdn as [x Hx]. destruct Hdi as [y Hy]. subst n i.
      assert (y < x) by nia. nia. }
    rewrite (bind_ok tick _ s tt (add_iter 1 s)) by reflexivity.
    destruct (body i (add_iter 1 s)) as [[[]|f] s1] eqn:Hb.
    + rewrite (bind_ok _ _ _ _ _ Hb). rewrite to_size_t_small by lia.
      apply IH; [lia | apply Z.divide_add_r; [exact Hdi | apply Z.divide_refl] | lia].
    + rewrite (bind_crash _ _ _ _ _ Hb). cbn [fst]. intros E. inversion E; subst.
      apply (Hbody _ _ _ _ Hb). reflexivity.
Qed.

(** The kernels and the initialisation loop never stop for lack of fuel. *)
Lemma loops_have_fuel r a b n cnt s :
  0 <= n < 2 ^ 64 ->
  fst (fill a b n s) <> Crash OutOfFuel /\
  fst (compute r a b n s) <> Crash OutOfFuel /\
  fst (compute_sse r a b cnt s) <> Crash OutOfFuel.
Proof.
  intros Hn. split; [|split].
  - unfold fill.
    apply counted_loop_fuel;
      [lia | lia | apply Z.divide_1_l | | lia | apply Z.divide_0_r | lia].
    intros i s1 f s2 H. apply bind_inv in H.
    destruct H as [([] & s3 & _ & H) | (f' & H & Hf)].
    + apply store_fault in H. exact H.
    + inversion Hf; subst. apply store_fault in H. exact H.
  - unfold compute.
    apply counted_loop_fuel;
      [lia | lia | apply Z.divide_1_l | | lia | apply Z.divide_0_r | lia].
    intros i s1 f s2 H. apply bind_inv in H.
    destruct H as [(x & s3 & _ & H) | (f' & H & Hf)].
    + apply bind_inv in H. destruct H as [(y & s4 & _ & H) | (f' & H & Hf)].
      * apply store_fault in H. exact H.
      * inversion Hf; subst. apply load_fault in H. exact H.
    + inversion Hf; subst. apply load_fault in H. exact H.
  - unfold compute_sse. pose proof (nsse_of_range cnt) as Hr.
    pose proof (nsse_of_mod4 cnt) as Hm.
    assert (Hd : nsse_of cnt = 4 * (nsse_of cnt / 4)) by (apply Z.div_exact; lia).
    pose proof (Z.div_pos (nsse_of cnt) 4 ltac:(lia) ltac:(lia)) as Hq.
    apply counted_loop_fuel;
      [lia | lia | exists (nsse_of cnt / 4); lia | | lia | apply Z.divide_0_r | lia].
    intros i s1 f s2 H. apply bind_inv in H.
    destruct H as [(x & s3 & _ & H) | (f' & H & Hf)].
    + apply bind_inv in H. destruct H as [(y & s4 & _ & H) | (f' & H & Hf)].
      * cbv zeta in H. apply mm_store_fault in H. exact H.
      * inversion Hf; subst. apply mm_load_fault in H. exact H.
    + inversion Hf; subst. apply mm_load_fault in H. exact H.
Qed.

(** ** Counts that fit [int] *)

(** A count between [INT_MAX] and [2^32]: [2^31] elements convert to
    [INT_MIN], [nsse] is [2^64 - 2^31] and the SSE kernel runs off the end of
    the buffers it was given. *)
Lemma sse_run_overrun_example :
  to_int 2147483648 = INT_MIN /\
  nsse_of (to_int 2147483648) = 2 ^ 64 - 2 ^ 31 /\
  fst (run_vectorized 2147483648 (boot (2 ^ 40))) = Crash OutOfBounds.
Proof.
  split; [reflexivity|]. split; [reflexivity|].
  apply run_vectorized_overrun.
  - lia.
  - vm_compute. discriminate.
  - reflexivity.
  - reflexivity.
Qed.

(** ** Conversion of the count *)

Lemma to_int_cases n :
  0 <= n ->
  (n mod 2 ^ 32 < 2 ^ 31 /\ to_int n = n mod 2 ^ 32) \/
  (2 ^ 31 <= n mod 2 ^ 32 /\ to_int n = n mod 2 ^ 32 - 2 ^ 32).
Proof.
  intros Hn. unfold to_int.
  pose proof (Z.mod_pos_bound n (2 ^ 32) ltac:(lia)) as Hk.
  pose proof (Z.div_mod n (2 ^ 32) ltac:(lia)) as Hq.
  destruct (Z_lt_le_dec (n mod 2 ^ 32) (2 ^ 31)) as [Hlt|Hge]; [left | right];
    (split; [assumption|]).
  - rewrite <- (Z.mod_unique (n + 2 ^ 31) (2 ^ 32) (n / 2 ^ 32) (n mod 2 ^ 32 + 2 ^ 31)); lia.
  - rewrite <- (Z.mod_unique (n + 2 ^ 31) (2 ^ 32) (n / 2 ^ 32 + 1) (n mod 2 ^ 32 - 2 ^ 31)); lia.
Qed.

Lemma nsse_of_to_int n :
  0 <= n < 2 ^ 64 ->
  (0 <= to_int n /\ nsse_of (to_int n) = n mod 2 ^ 32 / 4 * 4) \/
  (to_int n < 0 /\ nsse_of (to_int n) = (2 ^ 64 - 2 ^ 32 + n mod 2 ^ 32) / 4 * 4).
Proof.
  intros Hn.
  pose proof (Z.mod_pos_bound n (2 ^ 32) ltac:(lia)) as Hk.
  destruct (to_int_cases n ltac:(lia)) as [(Hlt & ->) | (Hge & ->)]; [left | right].
  - split; [lia|]. apply nsse_of_nonneg. lia.
  - split; [lia|]. rewrite nsse_of_neg by lia. f_equal. f_equal. lia.
Qed.

Lemma print_first4_empty b base s :
  st_heap s !! b = Some (fresh_buffer base 0) ->
  print_first4 (Ptr b) s = (Crash OutOfBounds, s).
Proof.
  intros Hb. unfold print_first4. apply bind_crash.
  unfold load. rewrite (bind_ok _ _ _ _ _ (deref_ok _ _ _ Hb)). reflexivity.
Qed.

(** ** Arguments that are not numbers *)

Lemma atoll_no_number c str : no_number_start c -> atoll (String c str) = 0.
Proof.
  intros (Hs & Hd & Hm & Hp). unfold atoll. cbn [skip_space]. rewrite Hs.
  assert (E : digits 0 (String c str) = 0) by (cbn [digits]; rewrite Hd; reflexivity).
  destruct c as [[] [] [] [] [] [] [] []];
    try (exfalso; apply Hm; reflexivity); try (exfalso; apply Hp; reflexivity);
    rewrite E; reflexivity.
Qed.

(** ** Runs with a refused allocation *)

Lemma app2_lookup {A} (h : list A) x1 x2 :
  ((h ++ [x1]) ++ [x2]) !! length h = Some x1 /\
  ((h ++ [x1]) ++ [x2]) !! (length h + 1)%nat = Some x2.
Proof. induction h as [|y h IH]; cbn; auto. Qed.

Lemma first_iteration fuel cond incr body s :
  cond 0 = true -> (0 < fuel)%nat ->
  for_loop fuel cond incr body 0 s
  = (body 0 ;; for_loop (fuel - 1) cond incr body (incr 0)) (add_iter 1 s).
Proof.
  intros Hc Hf. destruct fuel as [|fuel]; [lia|]. cbn [for_loop]. rewrite Hc.
  replace (S fuel - 1)%nat with fuel by lia. reflexivity.
Qed.

Lemma fill_wild_first d2 n s :
  0 < n -> fill Wild d2 n s = (Crash WildPointer, add_iter 1 s).
Proof.
  intros Hn. unfold fill. rewrite first_iteration; [reflexivity | | lia].
  apply Z.ltb_lt. exact Hn.
Qed.

Lemma compute_sse_no_block r a b cnt s :
  nsse_of cnt = 0 -> compute_sse r a b cnt s = (Ok tt, s).
Proof. intros H. unfold compute_sse. rewrite H. reflexivity. Qed.

Lemma fill_wild_second b1 B1 n s :
  st_heap s !! b1 = Some B1 -> sizeof_float * 1 <= buf_size B1 -> 0 < n ->
  fill (Ptr b1) Wild n s
  = (Crash WildPointer,
     set_heap (<[b1 := write_cell 0 (f32_of_Z 0) B1]> (st_heap s)) (add_iter 1 s)).
Proof.
  intros Hb Hs Hn. unfold fill. rewrite first_iteration; [| apply Z.ltb_lt; exact Hn | lia].
  erewrite bind_crash; [reflexivity|].
  erewrite bind_ok; cycle 1.
  { apply (store_ok b1 B1 0 _ (add_iter 1 s)); [exact Hb | lia | exact Hs]. }
  reflexivity.
Qed.

Lemma compute_wild_result a b A B n s :
  st_heap s !! a = Some A -> st_heap s !! b = Some B ->
  0 < n -> sizeof_float * n <= buf_size A -> sizeof_float * n <= buf_size B ->
  initialised A n -> initialised B n ->
  compute Wild (Ptr a) (Ptr b) n s = (Crash WildPointer, add_iter 1 s).
Proof.
  intros Ha Hb Hn HsA HsB HiA HiB. unfold compute.
  rewrite first_iteration; [| apply Z.ltb_lt; exact Hn | lia].
  erewrite bind_crash; [reflexivity|].
  erewrite bind_ok; cycle 1.
  { apply (load_ok a A); [exact Ha | lia | unfold sizeof_float in *; lia |].
    apply (rd_lookup A n); [exact HiA | lia]. }
  erewrite bind_ok; cycle 1.
  { apply (load_ok b B); [exact Hb | lia | unfold sizeof_float in *; lia |].
    apply (rd_lookup B n); [exact HiB | lia]. }
  reflexivity.
Qed.

Lemma compute_sse_wild_result a b A B cnt len s :
  st_heap s !! a = Some A -> st_heap s !! b = Some B ->
  buf_base A mod 16 = 0 -> buf_base B mod 16 = 0 ->
  0 < nsse_of cnt -> 4 <= len ->
  sizeof_float * len <= buf_size A -> sizeof_float * len <= buf_size B ->
  initialised A len -> initialised B len ->
  compute_sse Wild (Ptr a) (Ptr b) cnt s = (Crash WildPointer, add_iter 1 s).
Proof.
  intros Ha Hb HaA HaB Hn Hlen HsA HsB HiA HiB. unfold compute_sse.
  pose proof (nsse_of_mod4 cnt) as Hm.
  assert (Hd : nsse_of cnt = 4 * (nsse_of cnt / 4)) by (apply Z.div_exact; lia).
  rewrite first_iteration; [| apply Z.ltb_lt; exact Hn | lia].
  erewrite bind_crash; [reflexivity|].
  erewrite bind_ok; cycle 1.
  { apply (mm_load_ok a A); try assumption; try reflexivity; try lia.
    - unfold sizeof_float in *. lia.
    - apply (rd_lookup A len); [exact HiA | lia].
    - apply (rd_lookup A len); [exact HiA | lia].
    - apply (rd_lookup A len); [exact HiA | lia].
    - apply (rd_lookup A len); [exact HiA | lia]. }
  erewrite bind_ok; cycle 1.
  { apply (mm_load_ok b B); try assumption; try reflexivity; try lia.
    - unfold sizeof_float in *. lia.
    - apply (rd_lookup B len); [exact HiB | lia].
    - apply (rd_lookup B len); [exact HiB | lia].
    - apply (rd_lookup B len); [exact HiB | lia].
    - apply (rd_lookup B len); [exact HiB | lia]. }
  reflexivity.
Qed.

(** After [allocate] granted only the first two buffers, the initialisation
    loop runs to its end: the state it leaves. *)
Lemma fill_two_granted n s (sz := sizeof_float * n) :
  0 <= n -> sz < 2 ^ 64 ->
  exists F1 F2 s1,
    fill (Ptr (length (st_heap s))) (Ptr (length (st_heap s) + 1)) n
      (grant 32 sz (grant 32 sz s)) = (Ok tt, s1) /\
    st_heap s1 !! length (st_heap s) = Some (gen_buf val1 (Z.to_nat n) F1) /\
    st_heap s1 !! (length (st_heap s) + 1)%nat = Some (gen_buf val2 (Z.to_nat n) F2) /\
    buf_size F1 = sz /\ buf_size F2 = sz /\
    buf_base F1 mod 16 = 0 /\ buf_base F2 mod 16 = 0 /\
    st_iter s1 = st_iter s + n /\ st_clock s1 = st_clock s /\ st_out s1 = st_out s.
Proof.
  intros Hn Hsz. subst sz.
  set (sz := sizeof_float * n) in *.
  set (F1 := fresh_buffer (round_up (st_brk s) 32) sz).
  set (F2 := fresh_buffer (round_up (st_brk (grant 32 sz s)) 32) sz).
  assert (Hh : st_heap (grant 32 sz (grant 32 sz s)) = (st_heap s ++ [F1]) ++ [F2])
    by reflexivity.
  destruct (app2_lookup (st_heap s) F1 F2) as (L1 & L2). rewrite <- Hh in L1, L2.
  pose proof (lookup_lt_Some _ _ _ L1) as Hl1.
  pose proof (lookup_lt_Some _ _ _ L2) as Hl2.
  assert (Hmod : forall x, round_up x 32 mod 16 = 0).
  { intros x. unfold round_up. replace ((x + 32 - 1) / 32 * 32)
      with ((x + 32 - 1) / 32 * 2 * 16) by ring. apply Z.mod_mul. lia. }
  exists F1, F2. eexists. split.
  { apply (fill_spec _ _ F1 F2); try assumption; try lia.
    - unfold sz, sizeof_float in *. lia.
    - reflexivity.
    - reflexivity. }
  split; [|split].
  - unfold fill_state. cbn [set_heap st_heap add_iter].
    rewrite list_lookup_insert_ne by lia. apply list_lookup_insert_eq. exact Hl1.
  - unfold fill_state. cbn [set_heap st_heap add_iter].
    apply list_lookup_insert_eq. rewrite length_insert. exact Hl2.
  - repeat split; try reflexivity; try apply Hmod. cbn. lia.
Qed.

(** The scalar run when a request is refused: it stops at the first access
    through the pointer that was never set. When the first or the second
    request is refused, that is in the first body of the initialisation
    loop; when only the third is, the inputs are filled, the clock is read
    once and the access is the first store of the kernel. *)
Lemma run_scalar_refused n s :
  0 < n -> sizeof_float * n < 2 ^ 64 -> st_avail s < 3 * (sizeof_float * n) ->
  exists s',
    run_scalar n s = (Crash WildPointer, s') /\ st_out s' = st_out s /\
    (st_avail s < 2 * (sizeof_float * n) ->
     st_iter s' = st_iter s + 1 /\ st_clock s' = st_clock s) /\
    (2 * (sizeof_float * n) <= st_avail s ->
     st_iter s' = st_iter s + n + 1 /\ st_clock s' = tl (st_clock s)).
Proof.
  intros Hn Hsz Hav.
  assert (Esz : to_size_t (sizeof_float * n) = sizeof_float * n).
  { apply to_size_t_small. unfold sizeof_float in *. lia. }
  pose proof (allocate_cases n s) as Ha. cbv zeta in Ha. rewrite Esz in Ha.
  set (sz := sizeof_float * n) in *. unfold run_scalar.
  destruct (st_avail s <? sz) eqn:E1.
  { apply Z.ltb_lt in E1. rewrite (bind_ok _ _ _ _ _ Ha). eexists. split.
    { erewrite bind_crash; [reflexivity|]. apply fill_wild_first. exact Hn. }
    cbn. split; [reflexivity|]. split; [auto | lia]. }
  apply Z.ltb_ge in E1.
  destruct (st_avail s - sz <? sz) eqn:E2.
  { apply Z.ltb_lt in E2. rewrite (bind_ok _ _ _ _ _ Ha). eexists. split.
    { erewrite bind_crash; [reflexivity|].
      apply (fill_wild_second (length (st_heap s))
               (fresh_buffer (round_up (st_brk s) 32) sz) n (grant 32 sz s)).
      - cbn [grant st_heap]. apply list_lookup_middle. reflexivity.
      - cbn. unfold sz, sizeof_float. lia.
      - exact Hn. }
    cbn. split; [reflexivity|]. split; [auto | lia]. }
  apply Z.ltb_ge in E2.
  destruct (st_avail s - sz - sz <? sz) eqn:E3.
  2:{ apply Z.ltb_ge in E3. lia. }
  rewrite (bind_ok _ _ _ _ _ Ha).
  destruct (fill_two_granted n s ltac:(lia) Hsz)
    as (F1 & F2 & s1 & Hf & L1 & L2 & S1 & S2 & _ & _ & I1 & C1 & O1).
  fold sz in Hf, S1, S2.
  rewrite (bind_ok _ _ _ _ _ Hf).
  rewrite (bind_ok _ _ _ _ _ (get_timestamp_eq s1)).
  eexists. split.
  { erewrite bind_crash; [reflexivity|].
    apply (compute_wild_result (length (st_heap s)) (length (st_heap s) + 1)
      (gen_buf val1 (Z.to_nat n) F1) (gen_buf val2 (Z.to_nat n) F2) n
      (set_clock (tl (st_clock s1)) s1)); try assumption.
    - cbn [gen_buf buf_size]. lia.
    - cbn [gen_buf buf_size]. lia.
    - apply initialised_gen. lia.
    - apply initialised_gen. lia. }
  cbn. rewrite O1, I1, C1. split; [reflexivity|]. split; [lia | auto].
Qed.

(** The SSE run when a request is refused. It differs from the scalar run
    when only the third request is refused and the converted count has no
    full block: the kernel then enters no body and the run ends normally,
    with the result pointer never set. *)
Lemma run_vectorized_refused n s :
  0 < n -> sizeof_float * n < 2 ^ 64 -> st_avail s < 3 * (sizeof_float * n) ->
  exists res s',
    run_vectorized n s = (res, s') /\ st_out s' = st_out s /\
    (st_avail s < 2 * (sizeof_float * n) ->
     res = Crash WildPointer /\ st_iter s' = st_iter s + 1 /\ st_clock s' = st_clock s) /\
    (2 * (sizeof_float * n) <= st_avail s -> 0 < nsse_of (to_int n) ->
     res = Crash WildPointer /\ st_iter s' = st_iter s + n + 1 /\
     st_clock s' = tl (st_clock s)) /\
    (2 * (sizeof_float * n) <= st_avail s -> nsse_of (to_int n) = 0 ->
     res = Ok (elapsed (st_clock s), Wild) /\ st_iter s' = st_iter s + n /\
     st_clock s' = tl (tl (st_clock s))).
Proof.
  intros Hn Hsz Hav.
  assert (Esz : to_size_t (sizeof_float * n) = sizeof_float * n).
  { apply to_size_t_small. unfold sizeof_float in *. lia. }
  pose proof (allocate_cases n s) as Ha. cbv zeta in Ha. rewrite Esz in Ha.
  set (sz := sizeof_float * n) in *. unfold run_vectorized.
  destruct (st_avail s <? sz) eqn:E1.
  { apply Z.ltb_lt in E1. rewrite (bind_ok _ _ _ _ _ Ha). eexists _, _. split.
    { erewrite bind_crash; [reflexivity|]. apply fill_wild_first. exact Hn. }
    cbn. split; [reflexivity|]. split; [auto|]. split; intros; lia. }
  apply Z.ltb_ge in E1.
  destruct (st_avail s - sz <? sz) eqn:E2.
  { apply Z.ltb_lt in E2. rewrite (bind_ok _ _ _ _ _ Ha). eexists _, _. split.
    { erewrite bind_crash; [reflexivity|].
      apply (fill_wild_second (length (st_heap s))
               (fresh_buffer (round_up (st_brk s) 32) sz) n (grant 32 sz s)).
      - cbn [grant st_heap]. apply list_lookup_middle. reflexivity.
      - cbn. unfold sz, sizeof_float. lia.
      - exact Hn. }
    cbn. split; [reflexivity|]. split; [auto|]. split; intros; lia. }
  apply Z.ltb_ge in E2.
  destruct (st_avail s - sz - sz <? sz) eqn:E3.
  2:{ apply Z.ltb_ge in E3. lia. }
  rewrite (bind_ok _ _ _ _ _ Ha).
  destruct (fill_two_granted n s ltac:(lia) Hsz)
    as (F1 & F2 & s1 & Hf & L1 & L2 & S1 & S2 & A1 & A2 & I1 & C1 & O1).
  fold sz in Hf, S1, S2.
  rewrite (bind_ok _ _ _ _ _ Hf).
  rewrite (bind_ok _ _ _ _ _ (get_timestamp_eq s1)).
  pose proof (nsse_of_range (to_int n)) as Hr.
  destruct (Z.eq_dec (nsse_of (to_int n)) 0) as [H0 | H0].
  - rewrite (bind_ok _ _ _ _ _ (compute_sse_no_block _ _ _ _ _ H0)).
    rewrite (bind_ok _ _ _ _ _ (get_timestamp_eq _)). eexists _, _. split; [reflexivity|].
    cbn. rewrite O1, I1, C1. split; [reflexivity|].
    split; [intros; lia|]. split; [intros; lia|]. intros _ _.
    split; [reflexivity|]. split; [lia | reflexivity].
  - assert (Hn4 : 4 <= n).
    { destruct (Z_lt_le_dec n 4) as [Hlt|]; [|assumption]. exfalso. apply H0.
      rewrite to_int_small by (unfold INT_MIN, INT_MAX; lia).
      rewrite nsse_of_nonneg by lia. rewrite Z.div_small by lia. reflexivity. }
    eexists _, _. split.
    { erewrite bind_crash; [reflexivity|].
      apply (compute_sse_wild_result (length (st_heap s)) (length (st_heap s) + 1)
        (gen_buf val1 (Z.to_nat n) F1) (gen_buf val2 (Z.to_nat n) F2) (to_int n) n
        (set_clock (tl (st_clock s1)) s1)); try assumption; try lia.
      - cbn [gen_buf buf_size]. lia.
      - cbn [gen_buf buf_size]. lia.
      - apply initialised_gen. lia.
      - apply initialised_gen. lia. }
    cbn. rewrite O1, I1, C1. split; [reflexivity|].
    split; [intros; lia|]. split; [intros _ _; split; [reflexivity|]; split; [lia|reflexivity]|].
    intros; lia.
Qed.

(** * The claims *)

(** C1, at a count beyond [INT_MAX]. The lane width is the constant 4. With
    4294967304 elements ([2^32 + 8]) on a platform with a terabyte to hand
    out, the SSE run ends normally, index 7 of the result holds
    [float(7) + float(14)] and index 8, which lies below
    [m = floor(n/4)*4 = 4294967304], was never written: [compute_sse]
    received the count 8. *)
Theorem sse_run_narrows_count :
  nb_items = 4 /\
  exists d buf s',
    run_vectorized 4294967304 (boot (2 ^ 40)) = (Ok (d, Ptr 2%nat), s') /\
    st_heap s' !! 2%nat = Some buf /\
    buf_size buf = sizeof_float * 4294967304 /\
    8 < 4294967304 / 4 * 4 /\
    to_int 4294967304 = 8 /\
    buf_data buf !! 7 = Some (f32_add (f32_of_Z 7) (f32_of_Z (2 * 7))) /\
    buf_data buf !! 8 = None.
Proof.
  split; [reflexivity|].
  assert (Hnsse : nsse_of (to_int 4294967304) = 8) by reflexivity.
  destruct (run_vectorized_spec 4294967304 (boot (2 ^ 40)))
    as (F1 & F2 & F3 & s' & HF1 & HF2 & HF3 & Hrun & Hheap & _).
  { lia. }
  { vm_compute. discriminate. }
  { reflexivity. }
  { rewrite Hnsse. lia. }
  rewrite Hnsse in Hheap. change (st_heap (boot (2 ^ 40))) with (@nil buffer) in *.
  change (length (@nil buffer) + 2)%nat with 2%nat in Hrun.
  pose proof (Z2Nat.id 4294967304 ltac:(lia)) as HN.
  set (N := Z.to_nat 4294967304) in *. clearbody N.
  set (G1 := gen_buf val1 N F1) in *.
  set (G2 := gen_buf val2 N F2) in *.
  set (G3 := gen_buf (sum_of G1 G2) (Z.to_nat 8) F3) in *.
  eexists _, G3, s'. split; [exact Hrun|]. split; [rewrite Hheap; reflexivity|]. split.
  { destruct HF3 as (S3 & _). exact S3. }
  split; [reflexivity|]. split; [reflexivity|]. split.
  - subst G3. cbn [gen_buf buf_data].
    rewrite gen_data_lookup, decide_True by lia.
    subst G1 G2. rewrite sum_of_generated by lia. reflexivity.
  - subst G3. cbn [gen_buf buf_data].
    rewrite gen_data_lookup, decide_False by lia.
    destruct HF3 as (_ & -> & _). apply lookup_empty.
Qed.

(** C2. For every element count [n >= 0] that the platform can serve, the
    scalar run (allocation, input generation [a[i] = float(i)],
    [b[i] = float(i)*2], then the scalar kernel) ends normally with a result
    buffer of [n] floats in which every index [i] of [[0, n)] holds
    [float(i) + float(2*i)], as a value and under C's [==]; for [n = 8] the
    result is [[0, 3, 6, 9, 12, 15, 18, 21]]. *)
Theorem scalar_run_correct n s :
  0 <= n -> 3 * (sizeof_float * n) <= st_avail s -> st_avail s < 2 ^ 64 ->
  exists d r buf s',
    run_scalar n s = (Ok (d, Ptr r), s') /\
    st_heap s' !! r = Some buf /\ buf_size buf = sizeof_float * n /\
    (forall i, 0 <= i < n ->
       buf_data buf !! i = Some (f32_add (f32_of_Z i) (f32_of_Z (2 * i))) /\
       f32_eqb (rd buf i) (f32_add (f32_of_Z i) (f32_of_Z (2 * i))) = true) /\
    (n = 8 -> cells s' r 8 = Some <$> (f32_of_Z <$> [0; 3; 6; 9; 12; 15; 18; 21])).
Proof.
  intros Hn Hav Hlt.
  destruct (scalar_run_cells n s Hn Hav Hlt) as (d & buf & s' & Hrun & L3 & Hsz & Hcell).
  exists d, (length (st_heap s) + 2)%nat, buf, s'.
  split; [exact Hrun|]. split; [exact L3|]. split; [exact Hsz|]. split.
  - intros i Hi. split; [apply Hcell; exact Hi|].
    unfold rd. rewrite (Hcell i Hi). cbn [default].
    apply f32_eqb_refl. apply f32_add_not_nan; unfold sizeof_float in *; lia.
  - intros ->. unfold cells. rewrite L3. cbn [fmap list_fmap seq].
    rewrite (Hcell (Z.of_nat 0)), (Hcell (Z.of_nat 1)), (Hcell (Z.of_nat 2)),
      (Hcell (Z.of_nat 3)), (Hcell (Z.of_nat 4)), (Hcell (Z.of_nat 5)),
      (Hcell (Z.of_nat 6)), (Hcell (Z.of_nat 7)) by lia.
    vm_compute. reflexivity.
Qed.

(** A run the theorem applies to: eight floats on a platform with 1000 bytes. *)
Lemma scalar_run_correct_witness :
  exists d r buf s',
    run_scalar 8 (boot 1000) = (Ok (d, Ptr r), s') /\
    st_heap s' !! r = Some buf /\ buf_size buf = sizeof_float * 8 /\
    (forall i, 0 <= i < 8 ->
       buf_data buf !! i = Some (f32_add (f32_of_Z i) (f32_of_Z (2 * i))) /\
       f32_eqb (rd buf i) (f32_add (f32_of_Z i) (f32_of_Z (2 * i))) = true) /\
    (8 = 8 -> cells s' r 8 = Some <$> (f32_of_Z <$> [0; 3; 6; 9; 12; 15; 18; 21])).
Proof.
  apply (scalar_run_correct 8 (boot 1000)); [lia | vm_compute; discriminate | reflexivity].
Defined.

(** C3, at a count beyond [INT_MAX]. With 4294967300 elements ([2^32 + 4])
    on a platform with a terabyte to hand out, both runs end normally on the
    same generated inputs; index 4 lies below [floor(n/4)*4]; the scalar
    kernel wrote [float(4) + float(8)] there and the SSE kernel, which
    received the count 4, wrote nothing. *)
Theorem kernels_differ_beyond_int_max :
  4 < 4294967300 / 4 * 4 /\
  to_int 4294967300 = 4 /\
  (exists d buf s',
     run_scalar 4294967300 (boot (2 ^ 40)) = (Ok (d, Ptr 2%nat), s') /\
     st_heap s' !! 2%nat = Some buf /\
     buf_data buf !! 4 = Some (f32_add (f32_of_Z 4) (f32_of_Z (2 * 4)))) /\
  (exists d buf s',
     run_vectorized 4294967300 (boot (2 ^ 40)) = (Ok (d, Ptr 2%nat), s') /\
     st_heap s' !! 2%nat = Some buf /\
     buf_data buf !! 4 = None).
Proof.
  split; [reflexivity|]. split; [reflexivity|]. split.
  - destruct (scalar_run_cells 4294967300 (boot (2 ^ 40)))
      as (d & buf & s' & Hrun & Hl & _ & Hc).
    { lia. }
    { vm_compute. discriminate. }
    { reflexivity. }
    exists d, buf, s'. split; [exact Hrun|]. split; [exact Hl|]. apply Hc. lia.
  - assert (Hnsse : nsse_of (to_int 4294967300) = 4) by reflexivity.
    destruct (run_vectorized_spec 4294967300 (boot (2 ^ 40)))
      as (F1 & F2 & F3 & s' & HF1 & HF2 & HF3 & Hrun & Hheap & _).
    { lia. }
    { vm_compute. discriminate. }
    { reflexivity. }
    { rewrite Hnsse. lia. }
    rewrite Hnsse in Hheap. change (st_heap (boot (2 ^ 40))) with (@nil buffer) in *.
    change (length (@nil buffer) + 2)%nat with 2%nat in Hrun.
    set (N := Z.to_nat 4294967300) in *. clearbody N.
    eexists _, _, s'. split; [exact Hrun|]. split; [rewrite Hheap; reflexivity|].
    cbn [gen_buf buf_data].
    rewrite gen_data_lookup, decide_False by lia.
    destruct HF3 as (_ & -> & _). apply lookup_empty.
Qed.



(** C5, as the code has it. The drivers do not look at the status of
    [posix_memalign]. When one of the three requests is refused, for a count
    [n > 0] whose byte size fits [size_t], the run is not aborted and gives
    no exit status: after the line that announces the table it goes on to
    the initialisation loop and stops at the first access through the
    pointer that was never set. When the first or the second request is
    refused, that access is in the first body of the initialisation loop and
    the kernel is not reached. When only the third is refused, the two
    inputs are filled, the clock is read and the access is the first store
    of the kernel to the result; in the SSE program, when the converted
    count has no full block, the kernel enters no body, the time is printed
    and the access is the read of the result in the last [printf]. *)
Theorem refused_allocation_not_checked prog arg rest n s :
  to_size_t (atoll arg) = n ->
  0 < n -> sizeof_float * n < 2 ^ 64 -> st_avail s < 3 * (sizeof_float * n) ->
  (exists s1,
     main_simple prog (arg :: rest) s = (Crash WildPointer, s1) /\
     (st_avail s < 2 * (sizeof_float * n) ->
      st_iter s1 = st_iter s + 1 /\ st_clock s1 = st_clock s /\
      st_out s1 = [using_line n] ++ st_out s) /\
     (2 * (sizeof_float * n) <= st_avail s ->
      st_iter s1 = st_iter s + n + 1 /\ st_clock s1 = tl (st_clock s) /\
      st_out s1 = [using_line n] ++ st_out s)) /\
  (exists s2,
     main_sse prog (arg :: rest) s = (Crash WildPointer, s2) /\
     (st_avail s < 2 * (sizeof_float * n) ->
      st_iter s2 = st_iter s + 1 /\ st_clock s2 = st_clock s /\
      st_out s2 = [using_line n] ++ st_out s) /\
     (2 * (sizeof_float * n) <= st_avail s -> 0 < nsse_of (to_int n) ->
      st_iter s2 = st_iter s + n + 1 /\ st_clock s2 = tl (st_clock s) /\
      st_out s2 = [using_line n] ++ st_out s) /\
     (2 * (sizeof_float * n) <= st_avail s -> nsse_of (to_int n) = 0 ->
      st_iter s2 = st_iter s + n /\ st_clock s2 = tl (tl (st_clock s)) /\
      st_out s2 = [time_line_sse (elapsed (st_clock s)); using_line n] ++ st_out s)).
Proof.
  intros En Hn Hsz Hav.
  set (s0 := add_out (using_line n) s).
  split.
  - destruct (run_scalar_refused n s0 Hn Hsz Hav) as (s1 & Hr & Ho & Hlt & Hge).
    exists s1. split.
    { unfold main_simple. rewrite En. fold (using_line n).
      rewrite (bind_ok (printf _ _) _ s tt s0) by reflexivity.
      erewrite bind_crash; [reflexivity | exact Hr]. }
    rewrite Ho. split; intros H.
    + destruct (Hlt H) as (-> & ->). auto.
    + destruct (Hge H) as (-> & ->). auto.
  - destruct (run_vectorized_refused n s0 Hn Hsz Hav)
      as (res & s1 & Hr & Ho & Hlt & Hge & Hnone).
    destruct (Z_lt_le_dec (st_avail s) (2 * (sizeof_float * n))) as [Hc | Hc].
    { destruct (Hlt Hc) as (-> & Hi & Hk). exists s1. split.
      { unfold main_sse. rewrite En. fold (using_line n).
        rewrite (bind_ok (printf _ _) _ s tt s0) by reflexivity.
        erewrite bind_crash; [reflexivity | exact Hr]. }
      rewrite Ho, Hi, Hk. split; [auto|]. split; intros; lia. }
    pose proof (nsse_of_range (to_int n)) as Hrange.
    destruct (Z.eq_dec (nsse_of (to_int n)) 0) as [H0 | H0].
    + destruct (Hnone Hc H0) as (-> & Hi & Hk).
      exists (add_out (time_line_sse (elapsed (st_clock s))) s1). split.
      { unfold main_sse. rewrite En. fold (using_line n).
        rewrite (bind_ok (printf _ _) _ s tt s0) by reflexivity.
        rewrite (bind_ok _ _ _ _ _ Hr). cbv beta iota.
        erewrite (bind_ok (printf _ _)) by reflexivity.
        erewrite bind_crash; [reflexivity | apply print_first4_wild]. }
      cbn [add_out st_iter st_clock st_out]. rewrite Ho, Hi, Hk.
      split; [intros; lia|]. split; [intros; lia|]. intros _ _. auto.
    + destruct (Hge Hc ltac:(lia)) as (-> & Hi & Hk). exists s1. split.
      { unfold main_sse. rewrite En. fold (using_line n).
        rewrite (bind_ok (printf _ _) _ s tt s0) by reflexivity.
        erewrite bind_crash; [reflexivity | exact Hr]. }
      rewrite Ho, Hi, Hk. split; [intros; lia|]. split; [auto|]. intros; lia.
Qed.

(** A run the theorem applies to: eight elements on a platform with room for
    two of the three buffers. *)
Lemma refused_allocation_not_checked_witness :
  (exists s1,
     main_simple "a.out" ["8"%string] (boot 70) = (Crash WildPointer, s1) /\
     (st_avail (boot 70) < 2 * (sizeof_float * 8) ->
      st_iter s1 = st_iter (boot 70) + 1 /\ st_clock s1 = st_clock (boot 70) /\
      st_out s1 = [using_line 8] ++ st_out (boot 70)) /\
     (2 * (sizeof_float * 8) <= st_avail (boot 70) ->
      st_iter s1 = st_iter (boot 70) + 8 + 1 /\ st_clock s1 = tl (st_clock (boot 70)) /\
      st_out s1 = [using_line 8] ++ st_out (boot 70))) /\
  (exists s2,
     main_sse "a.out" ["8"%string] (boot 70) = (Crash WildPointer, s2) /\
     (st_avail (boot 70) < 2 * (sizeof_float * 8) ->
      st_iter s2 = st_iter (boot 70) + 1 /\ st_clock s2 = st_clock (boot 70) /\
      st_out s2 = [using_line 8] ++ st_out (boot 70)) /\
     (2 * (sizeof_float * 8) <= st_avail (boot 70) -> 0 < nsse_of (to_int 8) ->
      st_iter s2 = st_iter (boot 70) + 8 + 1 /\ st_clock s2 = tl (st_clock (boot 70)) /\
      st_out s2 = [using_line 8] ++ st_out (boot 70)) /\
     (2 * (sizeof_float * 8) <= st_avail (boot 70) -> nsse_of (to_int 8) = 0 ->
      st_iter s2 = st_iter (boot 70) + 8 /\ st_clock s2 = tl (tl (st_clock (boot 70))) /\
      st_out s2 = [time_line_sse (elapsed (st_clock (boot 70))); using_line 8]
                  ++ st_out (boot 70))).
Proof.
  apply (refused_allocation_not_checked "a.out" "8" [] 8 (boot 70));
    vm_compute; reflexivity.
Defined.

(** C5 as stated fails: on a platform with 70 bytes, the third request of 32
    bytes is refused; neither program aborts: the initialisation loop runs
    its eight iterations on the two buffers that were granted and the kernel
    is entered, where the store to the result goes through the unset
    pointer. *)
Lemma allocation_failure_not_fatal :
  posix_memalign Wild 32 32 (grant 32 32 (grant 32 32 (boot 70)))
    = (Ok (ENOMEM, Wild), grant 32 32 (grant 32 32 (boot 70))) /\
  ~ aborted main_simple "a.out" ["8"%string] (boot 70) /\
  ~ aborted main_sse "a.out" ["8"%string] (boot 70) /\
  fst (main_simple "a.out" ["8"%string] (boot 70)) = Crash WildPointer /\
  st_iter (snd (main_simple "a.out" ["8"%string] (boot 70))) = 9 /\
  fst (main_sse "a.out" ["8"%string] (boot 70)) = Crash WildPointer /\
  st_iter (snd (main_sse "a.out" ["8"%string] (boot 70))) = 9.
Proof.
  split; [reflexivity|]. split; [|split].
  - intros (code & s' & H & _). vm_compute in H. discriminate.
  - intros (code & s' & H & _). vm_compute in H. discriminate.
  - vm_compute. repeat split.
Qed.

(** C6, as the code has it: the drivers release nothing. When [main] returns,
    either no count was given, the status is 1 and the heap is as before
    (nothing was allocated), or the status is 0 and the three buffers it was
    granted are still allocated. *)
Theorem buffers_live_at_exit prog args s code s' :
  main_simple prog args s = (Ok code, s') \/ main_sse prog args s = (Ok code, s') ->
  (args = [] /\ code = 1 /\ st_heap s' = st_heap s) \/
  (args <> [] /\ code = 0 /\ length (st_heap s') = (length (st_heap s) + 3)%nat).
Proof.
  intros Hrun. destruct args as [|arg rest].
  - left. destruct Hrun as [H | H];
      [rewrite main_simple_missing in H | rewrite main_sse_missing in H];
      inversion H; subst; auto.
  - right. split; [discriminate|].
    destruct Hrun as [H | H].
    + apply main_simple_exit in H.
      destruct H as (-> & d & r & s1 & s2 & Hr & Hp & Hh). split; [reflexivity|].
      apply print_first4_ok in Hp. destruct Hp as (b & buf & -> & _ & Hs').
      apply run_scalar_ok_inv in Hr. destruct Hr as (p1 & p2 & sa & Ha & Hl).
      apply allocate_lengths in Ha. destruct Ha as [(Hw & _) | Ha]; [discriminate|].
      rewrite Hs', Hh, Hl, Ha. reflexivity.
    + apply main_sse_exit in H.
      destruct H as (-> & d & r & s1 & s2 & Hr & Hp & Hh). split; [reflexivity|].
      apply print_first4_ok in Hp. destruct Hp as (b & buf & -> & _ & Hs').
      apply run_vectorized_ok_inv in Hr. destruct Hr as (p1 & p2 & sa & Ha & Hl).
      apply allocate_lengths in Ha. destruct Ha as [(Hw & _) | Ha]; [discriminate|].
      rewrite Hs', Hh, Hl, Ha. reflexivity.
Qed.

(** A run the theorem applies to: eight elements, exit status 0, three
    buffers still allocated. *)
Lemma buffers_live_at_exit_witness :
  (["8"%string] = [] /\ 0 = 1 /\
     st_heap (snd (main_simple "a.out" ["8"%string] (boot 1000))) = st_heap (boot 1000)) \/
  (["8"%string] <> [] /\ 0 = 0 /\
     length (st_heap (snd (main_simple "a.out" ["8"%string] (boot 1000))))
     = (length (st_heap (boot 1000)) + 3)%nat).
Proof.
  apply (buffers_live_at_exit "a.out" ["8"%string] (boot 1000) 0).
  left. vm_compute. reflexivity.
Defined.

(** C6 as stated fails: after a normal run on eight elements, with exit
    status 0, the three buffers are still allocated, in either program. *)
Lemma buffers_not_released :
  length (st_heap (boot 1000)) = 0%nat /\
  fst (main_simple "a.out" ["8"%string] (boot 1000)) = Ok 0 /\
  length (st_heap (snd (main_simple "a.out" ["8"%string] (boot 1000)))) = 3%nat /\
  fst (main_sse "a.out" ["8"%string] (boot 1000)) = Ok 0 /\
  length (st_heap (snd (main_sse "a.out" ["8"%string] (boot 1000)))) = 3%nat.
Proof. vm_compute. repeat split. Qed.

(** C7, as the code has it. A missing count is rejected: the usage message is
    printed, the status is 1 and nothing else happens. A count that is
    present is never rejected, numeric or not: [atoll] converts it (to 0 when
    it does not start with a number) and the run goes on with that count;
    when the count is 0 the line announcing the table is printed and the
    three buffers are allocated. *)
Theorem cli_argument_handling :
  (forall prog s,
     main_simple prog [] s = (Ok 1, add_out (usage_line prog) s) /\
     main_sse prog [] s = (Ok 1, add_out (usage_line prog) s) /\
     rejected main_simple prog [] s /\ rejected main_sse prog [] s) /\
  (forall prog arg rest s,
     ~ rejected main_simple prog (arg :: rest) s /\
     ~ rejected main_sse prog (arg :: rest) s) /\
  (forall c str, no_number_start c -> atoll (String c str) = 0) /\
  (forall prog arg rest s,
     to_size_t (atoll arg) = 0 -> 0 <= st_avail s ->
     exists res1 s1 res2 s2 l1 l2,
       main_simple prog (arg :: rest) s = (res1, s1) /\
       main_sse prog (arg :: rest) s = (res2, s2) /\
       length (st_heap s1) = (length (st_heap s) + 3)%nat /\
       length (st_heap s2) = (length (st_heap s) + 3)%nat /\
       st_out s1 = l1 ++ using_line 0 :: st_out s /\
       st_out s2 = l2 ++ using_line 0 :: st_out s).
Proof.
  split; [|split; [|split]].
  - intros prog s. split; [reflexivity|]. split; [reflexivity|].
    split; exists 1; split; try reflexivity; discriminate.
  - intros prog arg rest s. split; intros (code & H & Hc).
    + apply main_simple_exit in H. destruct H as (-> & _). apply Hc. reflexivity.
    + apply main_sse_exit in H. destruct H as (-> & _). apply Hc. reflexivity.
  - exact atoll_no_number.
  - intros prog arg rest s Hn Hav.
    set (s0 := add_out (using_line 0) s).
    assert (Hav0 : 0 <= st_avail s0) by exact Hav.
    pose proof (run_scalar_zero s0 Hav0) as H1.
    pose proof (run_vectorized_zero s0 Hav0) as H2.
    destruct (granted3_result 0 s0) as (base & Hb).
    unfold main_simple, main_sse. rewrite Hn. fold (using_line 0).
    rewrite (bind_ok (printf _ _) _ s tt s0) by reflexivity.
    rewrite (bind_ok (printf _ _) _ s tt s0) by reflexivity.
    rewrite (bind_ok _ _ _ _ _ H1), (bind_ok _ _ _ _ _ H2).
    erewrite (bind_ok (printf _ _)) by reflexivity.
    erewrite (bind_ok (printf _ _)) by reflexivity.
    erewrite bind_crash by (apply (print_first4_empty _ base); exact Hb).
    erewrite bind_crash by (apply (print_first4_empty _ base); exact Hb).
    eexists _, _, _, _, [_], [_].
    split; [reflexivity|]. split; [reflexivity|].
    cbn [st_heap st_out add_out set_clock granted3 s0]. rewrite !length_app.
    repeat split; reflexivity.
Qed.

(** A call the theorem applies to: no count, and a count that is no number. *)
Lemma cli_argument_handling_witness :
  rejected main_simple "a.out" [] (boot 1000) /\
  atoll "abc" = 0 /\
  exists res1 s1 res2 s2 l1 l2,
    main_simple "a.out" ["abc"%string] (boot 1000) = (res1, s1) /\
    main_sse "a.out" ["abc"%string] (boot 1000) = (res2, s2) /\
    length (st_heap s1) = (length (st_heap (boot 1000)) + 3)%nat /\
    length (st_heap s2) = (length (st_heap (boot 1000)) + 3)%nat /\
    st_out s1 = l1 ++ using_line 0 :: st_out (boot 1000) /\
    st_out s2 = l2 ++ using_line 0 :: st_out (boot 1000).
Proof.
  destruct cli_argument_handling as (H1 & _ & H3 & H4).
  split; [apply (H1 "a.out"%string (boot 1000))|]. split.
  - apply (H3 "a"%char "bc"%string). repeat split; discriminate.
  - apply (H4 "a.out"%string "abc"%string [] (boot 1000)); [reflexivity | vm_compute; discriminate].
Defined.

(** C7 as stated fails: with the count ["abc"], which is no number, neither
    program prints the usage message or exits with a non-zero status; both
    announce a table of 0 floats and allocate the three buffers. *)
Lemma nonnumeric_count_not_rejected :
  ~ rejected main_simple "a.out" ["abc"%string] (boot 1000) /\
  ~ rejected main_sse "a.out" ["abc"%string] (boot 1000) /\
  length (st_heap (snd (main_simple "a.out" ["abc"%string] (boot 1000)))) = 3%nat /\
  length (st_heap (snd (main_sse "a.out" ["abc"%string] (boot 1000)))) = 3%nat /\
  last (st_out (snd (main_simple "a.out" ["abc"%string] (boot 1000))))
    = Some (using_line 0) /\
  last (st_out (snd (main_sse "a.out" ["abc"%string] (boot 1000))))
    = Some (using_line 0).
Proof.
  split; [|split].
  - intros (code & H & _). vm_compute in H. discriminate.
  - intros (code & H & _). vm_compute in H. discriminate.
  - vm_compute. repeat split.
Qed.

(** C8. For [n = 0] on a platform whose free space is not negative: the
    three zero-byte requests are granted (each [posix_memalign] returns 0),
    the initialisation loop and the loop of either kernel enter no body, and
    the result is an empty buffer. *)
Theorem zero_count_run s :
  0 <= st_avail s ->
  fst (posix_memalign Wild 32 (to_size_t (sizeof_float * 0)) s)
    = Ok (0, Ptr (length (st_heap s))) /\
  allocate 0 s
    = (Ok (Ptr (length (st_heap s)), Ptr (length (st_heap s) + 1),
           Ptr (length (st_heap s) + 2)), granted3 0 s) /\
  (forall d1 d2 s1, fill d1 d2 0 s1 = (Ok tt, s1)) /\
  (forall r a b s1, compute r a b 0 s1 = (Ok tt, s1)) /\
  (forall r a b s1, compute_sse r a b (to_int 0) s1 = (Ok tt, s1)) /\
  (exists d s', run_scalar 0 s = (Ok (d, Ptr (length (st_heap s) + 2)), s') /\
     st_iter s' = st_iter s /\
     exists base, st_heap s' !! (length (st_heap s) + 2)%nat = Some (fresh_buffer base 0)) /\
  (exists d s', run_vectorized 0 s = (Ok (d, Ptr (length (st_heap s) + 2)), s') /\
     st_iter s' = st_iter s /\
     exists base, st_heap s' !! (length (st_heap s) + 2)%nat = Some (fresh_buffer base 0)).
Proof.
  intros Hav.
  split; [|split; [exact (allocate_zero s Hav)|]].
  { rewrite posix_memalign_ok; [reflexivity|].
    change (to_size_t (sizeof_float * 0)) with 0. exact Hav. }
  split; [reflexivity|]. split; [reflexivity|]. split; [reflexivity|].
  split.
  - eexists _, _. split; [exact (run_scalar_zero s Hav)|]. split; [reflexivity|].
    apply granted3_result.
  - eexists _, _. split; [exact (run_vectorized_zero s Hav)|]. split; [reflexivity|].
    apply granted3_result.
Qed.

(** A platform the theorem applies to. *)
Lemma zero_count_run_witness :
  (exists d s', run_scalar 0 (boot 1000) = (Ok (d, Ptr 2%nat), s') /\
     st_iter s' = 0 /\
     exists base, st_heap s' !! 2%nat = Some (fresh_buffer base 0)) /\
  (exists d s', run_vectorized 0 (boot 1000) = (Ok (d, Ptr 2%nat), s') /\
     st_iter s' = 0 /\
     exists base, st_heap s' !! 2%nat = Some (fresh_buffer base 0)).
Proof.
  destruct (zero_count_run (boot 1000)) as (_ & _ & _ & _ & _ & H1 & H2).
  - vm_compute. discriminate.
  - split; [exact H1 | exact H2].
Defined.

(** C9. Both kernels are pure with respect to their inputs: whatever the
    count and the outcome, after [compute(r, a, b, n)] or
    [compute_sse(r, a, b, n)] every block other than the one [r] points to
    has the content it had before, in particular the blocks of [a] and [b]
    when they are not the block of [r]; nothing else in the state changes
    but the count of loop bodies entered. *)
Theorem kernels_pure r a b n s res s' :
  compute r a b n s = (res, s') \/ compute_sse r a b n s = (res, s') ->
  same_but r s s' /\
  (forall pa, a = Ptr pa -> a <> r -> st_heap s' !! pa = st_heap s !! pa) /\
  (forall pb, b = Ptr pb -> b <> r -> st_heap s' !! pb = st_heap s !! pb).
Proof.
  intros Hrun.
  assert (H : same_but r s s').
  { destruct Hrun as [Hrun | Hrun];
      [eapply compute_same_but | eapply compute_sse_same_but]; exact Hrun. }
  split; [exact H|]. destruct H as (_ & _ & _ & _ & _ & H).
  split; intros p -> Hne; apply H; exact Hne.
Qed.

(** A call the theorem applies to: the scalar kernel on ten generated
    elements. *)
Lemma kernels_pure_witness :
  same_but (Ptr 2%nat) (prepared 10)
    (snd (compute (Ptr 2%nat) (Ptr 0%nat) (Ptr 1%nat) 10 (prepared 10))) /\
  (forall pa, Ptr 0%nat = Ptr pa -> Ptr 0%nat <> Ptr 2%nat ->
     st_heap (snd (compute (Ptr 2%nat) (Ptr 0%nat) (Ptr 1%nat) 10 (prepared 10))) !! pa
     = st_heap (prepared 10) !! pa) /\
  (forall pb, Ptr 1%nat = Ptr pb -> Ptr 1%nat <> Ptr 2%nat ->
     st_heap (snd (compute (Ptr 2%nat) (Ptr 0%nat) (Ptr 1%nat) 10 (prepared 10))) !! pb
     = st_heap (prepared 10) !! pb).
Proof.
  apply (kernels_pure (Ptr 2%nat) (Ptr 0%nat) (Ptr 1%nat) 10 (prepared 10)
    (fst (compute (Ptr 2%nat) (Ptr 0%nat) (Ptr 1%nat) 10 (prepared 10)))).
  left. apply surjective_pairing.
Defined.

(** C10. [compute_sse] takes its count as an [int] and the driver holds a
    [size_t]: the number of cells the kernel processes is computed from the
    converted count. It is [floor(n/4)*4] exactly when [n <= INT_MAX] or
    [n >= 2^64 - 2^31]; a converted count that is negative goes back to
    [size_t] in the division and gives a bound of at least [2^64 - 2^32].
    On a platform that serves the count, the SSE run writes exactly the cells
    below that bound when it does not exceed [n] and faults when it does;
    the scalar run, whose parameter is a [size_t], writes exactly the cells
    below [n]. *)
Theorem count_narrowing :
  (forall n, 0 <= n < 2 ^ 64 ->
     (nsse_of (to_int n) = n / 4 * 4 <-> n <= INT_MAX \/ 2 ^ 64 - 2 ^ 31 <= n)) /\
  (forall n, 0 <= n < 2 ^ 64 -> 0 <= to_int n ->
     nsse_of (to_int n) = n mod 2 ^ 32 / 4 * 4) /\
  (forall n, 0 <= n < 2 ^ 64 -> to_int n < 0 ->
     nsse_of (to_int n) = (2 ^ 64 - 2 ^ 32 + n mod 2 ^ 32) / 4 * 4 /\
     2 ^ 64 - 2 ^ 32 <= nsse_of (to_int n)) /\
  (forall n s,
     0 <= n -> 3 * (sizeof_float * n) <= st_avail s -> st_avail s < 2 ^ 64 ->
     (nsse_of (to_int n) <= n ->
      exists d r buf s',
        run_vectorized n s = (Ok (d, Ptr r), s') /\ st_heap s' !! r = Some buf /\
        forall i, is_Some (buf_data buf !! i) <-> 0 <= i < nsse_of (to_int n)) /\
     (n < nsse_of (to_int n) -> fst (run_vectorized n s) = Crash OutOfBounds) /\
     (exists d r buf s',
        run_scalar n s = (Ok (d, Ptr r), s') /\ st_heap s' !! r = Some buf /\
        forall i, is_Some (buf_data buf !! i) <-> 0 <= i < n)).
Proof.
  split; [|split; [|split]].
  - intros n Hn.
    pose proof (Z.mod_pos_bound n (2 ^ 32) ltac:(lia)) as Hk.
    pose proof (Z.div_mod n (2 ^ 32) ltac:(lia)) as Hq.
    pose proof (Z.div_mod (n mod 2 ^ 32) 4 ltac:(lia)) as Hk4.
    pose proof (Z.mod_pos_bound (n mod 2 ^ 32) 4 ltac:(lia)) as Hk5.
    assert (Hn4 : n / 4 * 4 = 2 ^ 32 * (n / 2 ^ 32) + n mod 2 ^ 32 / 4 * 4).
    { assert (E : n / 4 = 2 ^ 30 * (n / 2 ^ 32) + n mod 2 ^ 32 / 4).
      { symmetry. apply (Z.div_unique n 4 _ (n mod 2 ^ 32 mod 4)); lia. }
      rewrite E. lia. }
    assert (Hq0 : 0 <= n / 2 ^ 32 < 2 ^ 32).
    { split; [apply Z.div_pos; lia | apply Z.div_lt_upper_bound; lia]. }
    unfold INT_MAX.
    assert (E1 : (2 ^ 64 - 2 ^ 32 + n mod 2 ^ 32) / 4
                 = 2 ^ 62 - 2 ^ 30 + n mod 2 ^ 32 / 4).
    { symmetry. apply (Z.div_unique _ 4 _ (n mod 2 ^ 32 mod 4)); lia. }
    destruct (to_int_cases n ltac:(lia)) as [(Hc & Hc') | (Hc & Hc')];
      (destruct (nsse_of_to_int n Hn) as [(Hs & ->) | (Hs & ->)]; [|]);
      rewrite ?E1, Hn4; split; intros H; lia.
  - intros n Hn Hs. destruct (nsse_of_to_int n Hn) as [(_ & ->) | (Hneg & _)]; [reflexivity | lia].
  - intros n Hn Hs. destruct (nsse_of_to_int n Hn) as [(Hpos & _) | (_ & ->)]; [lia|].
    split; [reflexivity|].
    pose proof (Z.mod_pos_bound n (2 ^ 32) ltac:(lia)) as Hk.
    pose proof (Z.div_mod (2 ^ 64 - 2 ^ 32 + n mod 2 ^ 32) 4 ltac:(lia)) as Hd.
    pose proof (Z.mod_pos_bound (2 ^ 64 - 2 ^ 32 + n mod 2 ^ 32) 4 ltac:(lia)) as Hd2.
    assert (Hmod : (2 ^ 64 - 2 ^ 32 + n mod 2 ^ 32) mod 4 = (n mod 2 ^ 32) mod 4).
    { replace (2 ^ 64 - 2 ^ 32 + n mod 2 ^ 32)
        with (n mod 2 ^ 32 + (2 ^ 62 - 2 ^ 30) * 4) by lia.
      apply Z.mod_add. lia. }
    pose proof (Z.mod_pos_bound (n mod 2 ^ 32) 4 ltac:(lia)) as Hk5.
    pose proof (Z.div_mod (n mod 2 ^ 32) 4 ltac:(lia)) as Hk4.
    lia.
  - intros n s Hn Hav Hlt. split; [|split].
    + intros Hnsse.
      destruct (run_vectorized_spec n s Hn Hav Hlt Hnsse)
        as (F1 & F2 & F3 & s' & HF1 & HF2 & HF3 & Hrun & Hheap & _).
      match type of Hheap with _ = _ ++ [?g1; ?g2; ?g3] =>
        destruct (app3_lookup (st_heap s) g1 g2 g3) as (_ & _ & L3) end.
      rewrite <- Hheap in L3.
      eexists _, _, _, s'. split; [exact Hrun|]. split; [exact L3|].
      intros i. cbn [gen_buf buf_data]. rewrite gen_data_lookup.
      pose proof (nsse_of_range (to_int n)) as Hr.
      destruct (decide (0 <= i < Z.of_nat (Z.to_nat (nsse_of (to_int n))))) as [Hi|Hi].
      * split; [intros _; lia | eauto].
      * destruct HF3 as (_ & -> & _). rewrite lookup_empty.
        split; [intros [x Hx]; discriminate | intros; lia].
    + apply run_vectorized_overrun; assumption.
    + destruct (run_scalar_spec n s Hn Hav Hlt)
        as (F1 & F2 & F3 & s' & HF1 & HF2 & HF3 & Hrun & Hheap & _).
      match type of Hheap with _ = _ ++ [?g1; ?g2; ?g3] =>
        destruct (app3_lookup (st_heap s) g1 g2 g3) as (_ & _ & L3) end.
      rewrite <- Hheap in L3.
      eexists _, _, _, s'. split; [exact Hrun|]. split; [exact L3|].
      intros i. cbn [gen_buf buf_data]. rewrite gen_data_lookup.
      destruct (decide (0 <= i < Z.of_nat (Z.to_nat n))) as [Hi|Hi].
      * split; [intros _; lia | eauto].
      * destruct HF3 as (_ & -> & _). rewrite lookup_empty.
        split; [intros [x Hx]; discriminate | intros; lia].
Qed.

(** Counts the theorem applies to: [2^32 + 8], which converts to 8, [2^31],
    which converts to [INT_MIN], and a run on eight elements. *)
Lemma count_narrowing_witness :
  (nsse_of (to_int 4294967304) = 4294967304 / 4 * 4 <->
     4294967304 <= INT_MAX \/ 2 ^ 64 - 2 ^ 31 <= 4294967304) /\
  nsse_of (to_int 4294967304) = 4294967304 mod 2 ^ 32 / 4 * 4 /\
  (nsse_of (to_int 2147483648) = (2 ^ 64 - 2 ^ 32 + 2147483648 mod 2 ^ 32) / 4 * 4 /\
   2 ^ 64 - 2 ^ 32 <= nsse_of (to_int 2147483648)) /\
  (exists d r buf s',
     run_vectorized 8 (boot 1000) = (Ok (d, Ptr r), s') /\ st_heap s' !! r = Some buf /\
     forall i, is_Some (buf_data buf !! i) <-> 0 <= i < nsse_of (to_int 8)).
Proof.
  destruct count_narrowing as (H1 & H2 & H3 & H4).
  split; [apply (H1 4294967304); lia|].
  split; [apply (H2 4294967304); [lia | vm_compute; discriminate]|].
  split; [apply (H3 2147483648); [lia | reflexivity]|].
  destruct (H4 8 (boot 1000)) as (H & _); [lia | vm_compute; discriminate | reflexivity |].
  apply H. vm_compute. discriminate.
Defined.

(** * Further properties of the kernels and the drivers *)

(** ** The kernels on any three blocks *)

Lemma prepared_10_heap :
  st_heap (prepared 10)
  = [gen_buf val1 10 (fresh_buffer 4096 40); gen_buf val2 10 (fresh_buffer 4160 40);
     fresh_buffer 4224 40].
Proof. vm_compute. reflexivity. Qed.

(** X1. The scalar kernel on any three blocks of at least [n] floats whose
    inputs are initialised, whether or not the blocks coincide: it ends
    normally after [n] loop bodies, cell [i] of the result holds
    [a[i] + b[i]] for the values the inputs had before the call, for every
    [i] in [[0, n)], and the other cells of the result are as before. Called
    in place, [compute(a, a, b, n)] adds [b] into [a]. *)
Theorem compute_sums_elementwise r a b R A B n s :
  st_heap s !! r = Some R -> st_heap s !! a = Some A -> st_heap s !! b = Some B ->
  0 <= n < 2 ^ 64 ->
  sizeof_float * n <= buf_size R ->
  sizeof_float * n <= buf_size A -> sizeof_float * n <= buf_size B ->
  initialised A n -> initialised B n ->
  exists s' R',
    compute (Ptr r) (Ptr a) (Ptr b) n s = (Ok tt, s') /\
    st_heap s' !! r = Some R' /\
    buf_size R' = buf_size R /\ buf_base R' = buf_base R /\
    (forall i, 0 <= i < n -> buf_data R' !! i = Some (f32_add (rd A i) (rd B i))) /\
    (forall i, i < 0 \/ n <= i -> buf_data R' !! i = buf_data R !! i) /\
    st_iter s' = st_iter s + n.
Proof.
  intros Hr Ha Hb Hn HsR HsA HsB HiA HiB.
  eexists _, _. split.
  { apply (compute_spec r a b R A B); assumption. }
  split; [apply kernel_state_result; exact Hr|].
  split; [reflexivity|]. split; [reflexivity|]. split; [|split].
  - intros i Hi. cbn. rewrite gen_data_lookup, decide_True by lia. reflexivity.
  - intros i Hi. cbn. rewrite gen_data_lookup, decide_False by lia. reflexivity.
  - cbn. lia.
Qed.

(** A call the theorem applies to: the scalar kernel in place, the first
    input of ten generated elements being the result. *)
Lemma compute_sums_elementwise_witness :
  exists s' R',
    compute (Ptr 0%nat) (Ptr 0%nat) (Ptr 1%nat) 10 (prepared 10) = (Ok tt, s') /\
    st_heap s' !! 0%nat = Some R' /\
    buf_size R' = buf_size (gen_buf val1 10 (fresh_buffer 4096 40)) /\
    buf_base R' = buf_base (gen_buf val1 10 (fresh_buffer 4096 40)) /\
    (forall i, 0 <= i < 10 ->
       buf_data R' !! i
       = Some (f32_add (rd (gen_buf val1 10 (fresh_buffer 4096 40)) i)
                       (rd (gen_buf val2 10 (fresh_buffer 4160 40)) i))) /\
    (forall i, i < 0 \/ 10 <= i ->
       buf_data R' !! i = buf_data (gen_buf val1 10 (fresh_buffer 4096 40)) !! i) /\
    st_iter s' = st_iter (prepared 10) + 10.
Proof.
  apply (compute_sums_elementwise 0 0 1); rewrite ?prepared_10_heap;
    try reflexivity; try (apply initialised_gen; vm_compute; discriminate);
    try (vm_compute; discriminate); try (split; vm_compute; congruence).
Defined.

(** X2. The SSE kernel, called with a count [n] of [[0, INT_MAX]], on any
    three blocks that start on a multiple of 16 and hold at least
    [floor(n/4)*4] floats, the inputs initialised that far, whether or not
    the blocks coincide: it ends normally after [floor(n/4)] loop bodies,
    cell [i] of the result holds [a[i] + b[i]] for every [i] below
    [floor(n/4)*4], and the other cells of the result are as before. The
    inputs are not read beyond [floor(n/4)*4]. *)
Theorem compute_sse_sums_full_blocks r a b R A B n s :
  st_heap s !! r = Some R -> st_heap s !! a = Some A -> st_heap s !! b = Some B ->
  buf_base R mod 16 = 0 -> buf_base A mod 16 = 0 -> buf_base B mod 16 = 0 ->
  0 <= n <= INT_MAX ->
  sizeof_float * (n / 4 * 4) <= buf_size R ->
  sizeof_float * (n / 4 * 4) <= buf_size A -> sizeof_float * (n / 4 * 4) <= buf_size B ->
  initialised A (n / 4 * 4) -> initialised B (n / 4 * 4) ->
  exists s' R',
    compute_sse (Ptr r) (Ptr a) (Ptr b) n s = (Ok tt, s') /\
    st_heap s' !! r = Some R' /\
    buf_size R' = buf_size R /\ buf_base R' = buf_base R /\
    (forall i, 0 <= i < n / 4 * 4 ->
       buf_data R' !! i = Some (f32_add (rd A i) (rd B i))) /\
    (forall i, i < 0 \/ n / 4 * 4 <= i -> buf_data R' !! i = buf_data R !! i) /\
    st_iter s' = st_iter s + n / 4.
Proof.
  intros Hr Ha Hb HaR HaA HaB Hn HsR HsA HsB HiA HiB.
  assert (Hnsse : nsse_of n = n / 4 * 4).
  { apply nsse_of_nonneg. unfold INT_MAX in *. lia. }
  pose proof (Z.div_pos n 4 ltac:(lia) ltac:(lia)) as Hm0.
  eexists _, _. split.
  { apply (compute_sse_spec r a b R A B); rewrite ?Hnsse; assumption. }
  split; [apply kernel_state_result; exact Hr|].
  split; [reflexivity|]. split; [reflexivity|]. rewrite Hnsse. split; [|split].
  - intros i Hi. cbn. rewrite gen_data_lookup, decide_True by lia. reflexivity.
  - intros i Hi. cbn. rewrite gen_data_lookup, decide_False by lia. reflexivity.
  - cbn. rewrite Z.div_mul by lia. lia.
Qed.

(** A call the theorem applies to: the SSE kernel on ten generated
    elements. *)
Lemma compute_sse_sums_full_blocks_witness :
  exists s' R',
    compute_sse (Ptr 2%nat) (Ptr 0%nat) (Ptr 1%nat) 10 (prepared 10) = (Ok tt, s') /\
    st_heap s' !! 2%nat = Some R' /\
    buf_size R' = buf_size (fresh_buffer 4224 40) /\
    buf_base R' = buf_base (fresh_buffer 4224 40) /\
    (forall i, 0 <= i < 10 / 4 * 4 ->
       buf_data R' !! i
       = Some (f32_add (rd (gen_buf val1 10 (fresh_buffer 4096 40)) i)
                       (rd (gen_buf val2 10 (fresh_buffer 4160 40)) i))) /\
    (forall i, i < 0 \/ 10 / 4 * 4 <= i ->
       buf_data R' !! i = buf_data (fresh_buffer 4224 40) !! i) /\
    st_iter s' = st_iter (prepared 10) + 10 / 4.
Proof.
  apply (compute_sse_sums_full_blocks 2 0 1); rewrite ?prepared_10_heap;
    try reflexivity; try (apply initialised_gen; vm_compute; discriminate);
    try (vm_compute; discriminate); try (split; vm_compute; congruence).
Defined.

(** X3. For a count that is a multiple of 4 and fits [int], on aligned
    buffers of at least [n] floats, the SSE kernel is a replacement for the
    scalar one: both end normally and leave the same memory; the scalar
    kernel enters [n] loop bodies and the SSE kernel [n/4]. *)
Theorem sse_matches_scalar_on_full_blocks r a b R A B n s :
  st_heap s !! r = Some R -> st_heap s !! a = Some A -> st_heap s !! b = Some B ->
  buf_base R mod 16 = 0 -> buf_base A mod 16 = 0 -> buf_base B mod 16 = 0 ->
  0 <= n <= INT_MAX -> n mod 4 = 0 ->
  sizeof_float * n <= buf_size R ->
  sizeof_float * n <= buf_size A -> sizeof_float * n <= buf_size B ->
  initialised A n -> initialised B n ->
  exists s1 s2,
    compute (Ptr r) (Ptr a) (Ptr b) n s = (Ok tt, s1) /\
    compute_sse (Ptr r) (Ptr a) (Ptr b) n s = (Ok tt, s2) /\
    st_heap s2 = st_heap s1 /\
    st_iter s1 = st_iter s + n /\ st_iter s2 = st_iter s + n / 4.
Proof.
  intros Hr Ha Hb HaR HaA HaB Hn Hmod HsR HsA HsB HiA HiB.
  assert (Hdiv : n = 4 * (n / 4)) by (apply Z.div_exact; lia).
  assert (Hnsse : nsse_of n = n).
  { rewrite nsse_of_nonneg by (unfold INT_MAX in *; lia). lia. }
  eexists _, _. split.
  { apply (compute_spec r a b R A B); try assumption. unfold INT_MAX in *. lia. }
  split.
  { apply (compute_sse_spec r a b R A B); rewrite ?Hnsse; assumption. }
  rewrite Hnsse. split; [reflexivity|].
  pose proof (Z.div_pos n 4 ltac:(lia) ltac:(lia)) as Hm0.
  cbn. lia.
Qed.

(** A call the theorem applies to: both kernels on the first eight of ten
    generated elements. *)
Lemma sse_matches_scalar_on_full_blocks_witness :
  exists s1 s2,
    compute (Ptr 2%nat) (Ptr 0%nat) (Ptr 1%nat) 8 (prepared 10) = (Ok tt, s1) /\
    compute_sse (Ptr 2%nat) (Ptr 0%nat) (Ptr 1%nat) 8 (prepared 10) = (Ok tt, s2) /\
    st_heap s2 = st_heap s1 /\
    st_iter s1 = st_iter (prepared 10) + 8 /\ st_iter s2 = st_iter (prepared 10) + 8 / 4.
Proof.
  apply (sse_matches_scalar_on_full_blocks 2 0 1
           (fresh_buffer 4224 40) (gen_buf val1 10 (fresh_buffer 4096 40))
           (gen_buf val2 10 (fresh_buffer 4160 40)));
    rewrite ?prepared_10_heap;
    try reflexivity; try (apply initialised_gen; vm_compute; discriminate);
    try (vm_compute; discriminate); try (split; vm_compute; congruence).
Defined.

(** X4. The two kernels on the same aligned, initialised buffers of [n]
    floats, the result apart from the inputs, for any count that fits [int]
    (the SSE kernel receiving the converted count): both end normally and
    the result cells below [floor(n/4)*4] are the same, [a[i] + b[i]]. *)
Theorem kernels_agree_int_range r a b R A B n s :
  st_heap s !! r = Some R -> st_heap s !! a = Some A -> st_heap s !! b = Some B ->
  r <> a -> r <> b ->
  buf_base R mod 16 = 0 -> buf_base A mod 16 = 0 -> buf_base B mod 16 = 0 ->
  0 <= n <= INT_MAX ->
  sizeof_float * n <= buf_size R ->
  sizeof_float * n <= buf_size A -> sizeof_float * n <= buf_size B ->
  initialised A n -> initialised B n ->
  exists s1 s2 R1 R2,
    compute (Ptr r) (Ptr a) (Ptr b) n s = (Ok tt, s1) /\
    compute_sse (Ptr r) (Ptr a) (Ptr b) (to_int n) s = (Ok tt, s2) /\
    st_heap s1 !! r = Some R1 /\ st_heap s2 !! r = Some R2 /\
    forall i, 0 <= i < n / 4 * 4 ->
      buf_data R1 !! i = Some (f32_add (rd A i) (rd B i)) /\
      buf_data R2 !! i = Some (f32_add (rd A i) (rd B i)).
Proof.
  intros Hr Ha Hb Hra Hrb HaR HaA HaB Hn HsR HsA HsB HiA HiB.
  assert (Hint : to_int n = n) by (apply to_int_small; unfold INT_MIN, INT_MAX in *; lia).
  assert (Hnsse : nsse_of n = n / 4 * 4).
  { apply nsse_of_nonneg. unfold INT_MAX in *. lia. }
  pose proof (Z.mul_div_le n 4 ltac:(lia)) as Hm.
  pose proof (Z.div_pos n 4 ltac:(lia) ltac:(lia)) as Hm0.
  pose proof (lookup_lt_Some _ _ _ Hr) as Hlr.
  eexists _, _, _, _. split.
  { apply (compute_spec r a b R A B); try assumption. unfold INT_MAX in *. lia. }
  split.
  { rewrite Hint. apply (compute_sse_spec r a b R A B); try assumption;
      rewrite Hnsse; unfold sizeof_float in *; try lia.
    - intros i Hi. apply HiA. lia.
    - intros i Hi. apply HiB. lia. }
  split; [cbn; apply list_lookup_insert_eq; exact Hlr|].
  split; [cbn; apply list_lookup_insert_eq; exact Hlr|].
  intros i Hi. cbn [gen_buf buf_data]. rewrite !gen_data_lookup, Hnsse.
  rewrite !decide_True by lia. split; reflexivity.
Qed.

(** A call the theorem applies to: both kernels on ten generated
    elements. *)
Lemma kernels_agree_int_range_witness :
  exists s1 s2 R1 R2,
    compute (Ptr 2%nat) (Ptr 0%nat) (Ptr 1%nat) 10 (prepared 10) = (Ok tt, s1) /\
    compute_sse (Ptr 2%nat) (Ptr 0%nat) (Ptr 1%nat) (to_int 10) (prepared 10)
      = (Ok tt, s2) /\
    st_heap s1 !! 2%nat = Some R1 /\ st_heap s2 !! 2%nat = Some R2 /\
    forall i, 0 <= i < 10 / 4 * 4 ->
      buf_data R1 !! i
      = Some (f32_add (rd (gen_buf val1 10 (fresh_buffer 4096 40)) i)
                      (rd (gen_buf val2 10 (fresh_buffer 4160 40)) i)) /\
      buf_data R2 !! i
      = Some (f32_add (rd (gen_buf val1 10 (fresh_buffer 4096 40)) i)
                      (rd (gen_buf val2 10 (fresh_buffer 4160 40)) i)).
Proof.
  apply (kernels_agree_int_range 2 0 1
           (fresh_buffer 4224 40) (gen_buf val1 10 (fresh_buffer 4096 40))
           (gen_buf val2 10 (fresh_buffer 4160 40)));
    rewrite ?prepared_10_heap;
    try reflexivity; try (apply initialised_gen; vm_compute; discriminate);
    try (vm_compute; discriminate); try (split; vm_compute; congruence); lia.
Defined.

(** X5. A count above the length of the buffers is not detected, and the
    sums that fit are still made. On aligned, initialised buffers of [len]
    floats, whatever the outcome: after the scalar kernel was called with a
    count above [len], every result cell below [len] holds [a[i] + b[i]];
    after the SSE kernel was called with a count whose [nsse] is above
    [len], every result cell below [floor(len/4)*4] does. Nothing is said
    of what the kernels do once their loop has left the buffers. *)
Theorem kernels_sum_what_fits r a b R A B n cnt len s :
  st_heap s !! r = Some R -> st_heap s !! a = Some A -> st_heap s !! b = Some B ->
  buf_base R mod 16 = 0 -> buf_base A mod 16 = 0 -> buf_base B mod 16 = 0 ->
  buf_size R = sizeof_float * len ->
  buf_size A = sizeof_float * len -> buf_size B = sizeof_float * len ->
  initialised A len -> initialised B len ->
  0 <= len -> len < n < 2 ^ 64 -> len < nsse_of cnt ->
  (exists res s1 R1,
     compute (Ptr r) (Ptr a) (Ptr b) n s = (res, s1) /\
     st_heap s1 !! r = Some R1 /\
     forall i, 0 <= i < len -> buf_data R1 !! i = Some (f32_add (rd A i) (rd B i))) /\
  (exists res s2 R2,
     compute_sse (Ptr r) (Ptr a) (Ptr b) cnt s = (res, s2) /\
     st_heap s2 !! r = Some R2 /\
     forall i, 0 <= i < len / 4 * 4 ->
       buf_data R2 !! i = Some (f32_add (rd A i) (rd B i))).
Proof.
  intros Hr Ha Hb HaR HaA HaB HsR HsA HsB HiA HiB Hlen Hn Hcnt.
  pose proof (Z.div_pos len 4 ltac:(lia) ltac:(lia)) as Hm0.
  split.
  - eexists _, _, _. split.
    { apply (compute_overrun r a b R A B) with (len := len); try assumption; lia. }
    split.
    { change (st_heap (add_iter 1 ?x)) with (st_heap x).
      apply kernel_state_result; exact Hr. }
    intros i Hi. cbn. rewrite gen_data_lookup, decide_True by lia. reflexivity.
  - eexists _, _, _. split.
    { apply (compute_sse_overrun r a b R A B) with (len := len); try assumption; lia. }
    split.
    { change (st_heap (add_iter 1 ?x)) with (st_heap x).
      apply kernel_state_result; exact Hr. }
    intros i Hi. cbn [gen_buf buf_data].
    rewrite gen_data_lookup, decide_True by lia. reflexivity.
Qed.

(** Calls the theorem applies to: both kernels with the count 12 on buffers
    of ten floats. *)
Lemma kernels_sum_what_fits_witness :
  (exists res s1 R1,
     compute (Ptr 2%nat) (Ptr 0%nat) (Ptr 1%nat) 12 (prepared 10) = (res, s1) /\
     st_heap s1 !! 2%nat = Some R1 /\
     forall i, 0 <= i < 10 ->
       buf_data R1 !! i
       = Some (f32_add (rd (gen_buf val1 10 (fresh_buffer 4096 40)) i)
                       (rd (gen_buf val2 10 (fresh_buffer 4160 40)) i))) /\
  (exists res s2 R2,
     compute_sse (Ptr 2%nat) (Ptr 0%nat) (Ptr 1%nat) 12 (prepared 10) = (res, s2) /\
     st_heap s2 !! 2%nat = Some R2 /\
     forall i, 0 <= i < 10 / 4 * 4 ->
       buf_data R2 !! i
       = Some (f32_add (rd (gen_buf val1 10 (fresh_buffer 4096 40)) i)
                       (rd (gen_buf val2 10 (fresh_buffer 4160 40)) i))).
Proof.
  apply (kernels_sum_what_fits 2 0 1
           (fresh_buffer 4224 40) (gen_buf val1 10 (fresh_buffer 4096 40))
           (gen_buf val2 10 (fresh_buffer 4160 40)) 12 12 10);
    rewrite ?prepared_10_heap;
    try reflexivity; try (apply initialised_gen; vm_compute; discriminate);
    try (vm_compute; discriminate); try (split; vm_compute; congruence).
Defined.

(** *** Alignment *)

Lemma aligned16_base buf : aligned16 buf 0 = (buf_base buf mod 16 =? 0).
Proof. unfold aligned16. rewrite Z.mul_0_r, Z.add_0_r. reflexivity. Qed.

Lemma mm_load_misaligned b buf s :
  st_heap s !! b = Some buf -> buf_base buf mod 16 <> 0 ->
  _mm_load_ps (Ptr b) 0 s = (Crash Misaligned, s).
Proof.
  intros Hb Hm. unfold _mm_load_ps. rewrite (bind_ok _ _ _ _ _ (deref_ok _ _ _ Hb)).
  rewrite aligned16_base. apply Z.eqb_neq in Hm. rewrite Hm. reflexivity.
Qed.

Lemma mm_store_misaligned b buf v s :
  st_heap s !! b = Some buf -> buf_base buf mod 16 <> 0 ->
  _mm_store_ps (Ptr b) 0 v s = (Crash Misaligned, s).
Proof.
  intros Hb Hm. unfold _mm_store_ps. rewrite (bind_ok _ _ _ _ _ (deref_ok _ _ _ Hb)).
  rewrite aligned16_base. apply Z.eqb_neq in Hm. rewrite Hm. reflexivity.
Qed.

(** X6. The SSE kernel needs its three buffers on a multiple of 16 bytes:
    when one of them is not and there is at least one block to process, the
    first loop body faults on its aligned load or store and memory is as
    before the call. (The scalar kernel has no such requirement.) *)
Theorem compute_sse_needs_alignment r a b R A B n s :
  st_heap s !! r = Some R -> st_heap s !! a = Some A -> st_heap s !! b = Some B ->
  0 < nsse_of n ->
  sizeof_float * 4 <= buf_size A -> sizeof_float * 4 <= buf_size B ->
  initialised A 4 -> initialised B 4 ->
  buf_base R mod 16 <> 0 \/ buf_base A mod 16 <> 0 \/ buf_base B mod 16 <> 0 ->
  compute_sse (Ptr r) (Ptr a) (Ptr b) n s = (Crash Misaligned, add_iter 1 s).
Proof.
  intros Hr Ha Hb Hn HsA HsB HiA HiB Hmis. unfold compute_sse.
  pose proof (nsse_of_mod4 n) as Hm.
  assert (Hd : nsse_of n = 4 * (nsse_of n / 4)) by (apply Z.div_exact; lia).
  rewrite first_iteration; [| apply Z.ltb_lt; exact Hn | lia].
  set (s1 := add_iter 1 s).
  erewrite bind_crash; [reflexivity|].
  destruct (decide (buf_base A mod 16 = 0)) as [HaA|HaA].
  2:{ erewrite bind_crash; [reflexivity|]. apply (mm_load_misaligned a A); assumption. }
  erewrite bind_ok; cycle 1.
  { apply (mm_load_ok a A); try assumption; try reflexivity; try lia.
    all: apply (rd_lookup A 4); [exact HiA | lia]. }
  destruct (decide (buf_base B mod 16 = 0)) as [HaB|HaB].
  2:{ erewrite bind_crash; [reflexivity|]. apply (mm_load_misaligned b B); assumption. }
  erewrite bind_ok; cycle 1.
  { apply (mm_load_ok b B); try assumption; try reflexivity; try lia.
    all: apply (rd_lookup B 4); [exact HiB | lia]. }
  cbv zeta. apply (mm_store_misaligned r R); [exact Hr|].
  destruct Hmis as [H | [H | H]]; [exact H | contradiction | contradiction].
Qed.

(** A call the theorem applies to: three buffers of four floats on
    multiples of 8 that are not multiples of 16. *)
Lemma compute_sse_needs_alignment_witness :
  compute_sse (Ptr 2%nat) (Ptr 0%nat) (Ptr 1%nat) 4
    (with_heap [gen_buf val1 4 (fresh_buffer 4104 16);
                gen_buf val2 4 (fresh_buffer 4136 16); fresh_buffer 4168 16])
  = (Crash Misaligned,
     add_iter 1 (with_heap [gen_buf val1 4 (fresh_buffer 4104 16);
                            gen_buf val2 4 (fresh_buffer 4136 16);
                            fresh_buffer 4168 16])).
Proof.
  apply (compute_sse_needs_alignment 2 0 1
           (fresh_buffer 4168 16) (gen_buf val1 4 (fresh_buffer 4104 16))
           (gen_buf val2 4 (fresh_buffer 4136 16)));
    try reflexivity; try (apply initialised_gen; lia); try (vm_compute; discriminate).
  left. vm_compute. discriminate.
Defined.

(** *** Calling a kernel again *)

Lemma gen_buf_again f j k B : (j <= k)%nat -> gen_buf f j (gen_buf f k B) = gen_buf f k B.
Proof.
  intros Hjk. unfold gen_buf. cbn [buf_base buf_size buf_data]. f_equal.
  apply map_eq. intros i. rewrite !gen_data_lookup.
  destruct (decide (0 <= i < Z.of_nat j)); [|reflexivity].
  rewrite decide_True by lia. reflexivity.
Qed.

(** X7. When the result buffer is apart from the inputs, a second call of a
    kernel with the same arguments leaves memory as the first call left it,
    and so does a call of the SSE kernel after the scalar one. *)
Theorem kernels_idempotent r a b R A B n s :
  st_heap s !! r = Some R -> st_heap s !! a = Some A -> st_heap s !! b = Some B ->
  r <> a -> r <> b ->
  buf_base R mod 16 = 0 -> buf_base A mod 16 = 0 -> buf_base B mod 16 = 0 ->
  0 <= n <= INT_MAX ->
  sizeof_float * n <= buf_size R ->
  sizeof_float * n <= buf_size A -> sizeof_float * n <= buf_size B ->
  initialised A n -> initialised B n ->
  (exists s1 s2,
     compute (Ptr r) (Ptr a) (Ptr b) n s = (Ok tt, s1) /\
     compute (Ptr r) (Ptr a) (Ptr b) n s1 = (Ok tt, s2) /\
     st_heap s2 = st_heap s1) /\
  (exists s1 s2,
     compute_sse (Ptr r) (Ptr a) (Ptr b) n s = (Ok tt, s1) /\
     compute_sse (Ptr r) (Ptr a) (Ptr b) n s1 = (Ok tt, s2) /\
     st_heap s2 = st_heap s1) /\
  (exists s1 s2,
     compute (Ptr r) (Ptr a) (Ptr b) n s = (Ok tt, s1) /\
     compute_sse (Ptr r) (Ptr a) (Ptr b) n s1 = (Ok tt, s2) /\
     st_heap s2 = st_heap s1).
Proof.
  intros Hr Ha Hb Hra Hrb HaR HaA HaB Hn HsR HsA HsB HiA HiB.
  assert (Hnsse : nsse_of n = n / 4 * 4).
  { apply nsse_of_nonneg. unfold INT_MAX in *. lia. }
  pose proof (Z.mul_div_le n 4 ltac:(lia)) as Hm.
  pose proof (Z.div_pos n 4 ltac:(lia) ltac:(lia)) as Hm0.
  assert (Hn64 : 0 <= n < 2 ^ 64) by (unfold INT_MAX in *; lia).
  assert (HiA4 : initialised A (n / 4 * 4)) by (intros i Hi; apply HiA; lia).
  assert (HiB4 : initialised B (n / 4 * 4)) by (intros i Hi; apply HiB; lia).
  pose proof (lookup_lt_Some _ _ _ Hr) as Hlr.
  assert (E1 : compute (Ptr r) (Ptr a) (Ptr b) n s
               = (Ok tt, kernel_state r R A B (Z.to_nat n) (Z.to_nat n) s))
    by (apply compute_spec; assumption).
  assert (E2 : compute_sse (Ptr r) (Ptr a) (Ptr b) n s
               = (Ok tt, kernel_state r R A B (Z.to_nat (nsse_of n / 4))
                           (Z.to_nat (nsse_of n)) s)).
  { apply compute_sse_spec; rewrite ?Hnsse; unfold sizeof_float in *;
      try assumption; lia. }
  assert (Hothers : forall it k x X, x <> r -> st_heap s !! x = Some X ->
    st_heap (kernel_state r R A B it k s) !! x = Some X).
  { intros it k x X Hx HX. cbn. rewrite list_lookup_insert_ne by congruence. exact HX. }
  assert (Hagain : forall it k it' j, (j <= k)%nat ->
    st_heap (kernel_state r (gen_buf (sum_of A B) k R) A B it' j
               (kernel_state r R A B it k s))
    = st_heap (kernel_state r R A B it k s)).
  { intros it k it' j Hjk. cbn. rewrite list_insert_insert_eq, gen_buf_again by exact Hjk.
    reflexivity. }
  split; [|split].
  - eexists _, _. split; [exact E1|]. split.
    + apply (compute_spec r a b (gen_buf (sum_of A B) (Z.to_nat n) R) A B);
        try assumption; auto using kernel_state_result.
    + apply Hagain. lia.
  - eexists _, _. split; [exact E2|]. split.
    + apply (compute_sse_spec r a b
               (gen_buf (sum_of A B) (Z.to_nat (nsse_of n)) R) A B);
        rewrite ?Hnsse; unfold sizeof_float in *; try assumption;
        auto using kernel_state_result; cbn; lia.
    + apply Hagain. lia.
  - eexists _, _. split; [exact E1|]. split.
    + apply (compute_sse_spec r a b (gen_buf (sum_of A B) (Z.to_nat n) R) A B);
        rewrite ?Hnsse; unfold sizeof_float in *; try assumption;
        auto using kernel_state_result; cbn; lia.
    + apply Hagain. lia.
Qed.

(** Calls the theorem applies to: the kernels on ten generated elements. *)
Lemma kernels_idempotent_witness :
  (exists s1 s2,
     compute (Ptr 2%nat) (Ptr 0%nat) (Ptr 1%nat) 10 (prepared 10) = (Ok tt, s1) /\
     compute (Ptr 2%nat) (Ptr 0%nat) (Ptr 1%nat) 10 s1 = (Ok tt, s2) /\
     st_heap s2 = st_heap s1) /\
  (exists s1 s2,
     compute_sse (Ptr 2%nat) (Ptr 0%nat) (Ptr 1%nat) 10 (prepared 10) = (Ok tt, s1) /\
     compute_sse (Ptr 2%nat) (Ptr 0%nat) (Ptr 1%nat) 10 s1 = (Ok tt, s2) /\
     st_heap s2 = st_heap s1) /\
  (exists s1 s2,
     compute (Ptr 2%nat) (Ptr 0%nat) (Ptr 1%nat) 10 (prepared 10) = (Ok tt, s1) /\
     compute_sse (Ptr 2%nat) (Ptr 0%nat) (Ptr 1%nat) 10 s1 = (Ok tt, s2) /\
     st_heap s2 = st_heap s1).
Proof.
  apply (kernels_idempotent 2 0 1
           (fresh_buffer 4224 40) (gen_buf val1 10 (fresh_buffer 4096 40))
           (gen_buf val2 10 (fresh_buffer 4160 40)));
    rewrite ?prepared_10_heap;
    try reflexivity; try (apply initialised_gen; vm_compute; discriminate);
    try (vm_compute; discriminate); try (split; vm_compute; congruence); try lia.
Defined.

(** *** How many loop bodies are entered *)

(** A loop that counts from [i] up to [n] by [step], with bodies that leave
    the counter of entered bodies alone: it enters at most [(n - i) / step]
    bodies, and exactly that many when it ends normally. *)
Lemma counted_loop_iters step n body :
  0 < step -> n < 2 ^ 64 -> (step | n) ->
  (forall i s r s', body i s = (r, s') -> st_iter s' = st_iter s) ->
  forall fuel i s r s',
    0 <= i <= n -> (step | i) -> n - i <= step * Z.of_nat fuel ->
    for_loop fuel (fun i => i <? n) (fun i => to_size_t (i + step)) body i s = (r, s') ->
    0 <= step * (st_iter s' - st_iter s) <= n - i /\
    (r = Ok tt -> step * (st_iter s' - st_iter s) = n - i).
Proof.
  intros Hstep Hn Hdn Hbody. induction fuel as [|fuel IH]; intros i s r s' Hi Hdi Hfuel Hrun;
    cbn [for_loop] in Hrun; destruct (i <? n) eqn:Hc.
  - apply Z.ltb_lt in Hc. lia.
  - apply Z.ltb_ge in Hc. inversion Hrun; subst. lia.
  - apply Z.ltb_lt in Hc.
    assert (Hnext : i + step <= n).
    { destruct Hdn as [x Hx]. destruct Hdi as [y Hy]. subst n i.
      assert (y < x) by nia. nia. }
    rewrite (bind_ok tick _ s tt (add_iter 1 s)) in Hrun by reflexivity.
    apply bind_inv in Hrun. destruct Hrun as [(u & s1 & Hb & Hrun) | (f & Hb & ->)].
    + pose proof (Hbody _ _ _ _ Hb) as E1. cbn in E1.
      rewrite to_size_t_small in Hrun by lia.
      apply IH in Hrun; [| lia | apply Z.divide_add_r; [exact Hdi | apply Z.divide_refl] | lia].
      destruct Hrun as (Hle & Heq). split; [nia|]. intros Hr. specialize (Heq Hr). nia.
    + pose proof (Hbody _ _ _ _ Hb) as E1. cbn in E1. split; [nia | discriminate].
  - apply Z.ltb_ge in Hc. inversion Hrun; subst. lia.
Qed.

Lemma compute_body_iter r a b i s res s' :
  (x ← load a i; y ← load b i; store r i (f32_add x y)) s = (res, s') ->
  st_iter s' = st_iter s.
Proof.
  intros H. apply compute_body_effect in H.
  destruct H as [-> | (? & ? & ? & _ & _ & _ & ->)]; reflexivity.
Qed.

Lemma sse_body_iter r a b i s res s' :
  (sse_a ← _mm_load_ps a i; sse_b ← _mm_load_ps b i;
   let sse_r := _mm_add_ps sse_a sse_b in _mm_store_ps r i sse_r) s = (res, s') ->
  st_iter s' = st_iter s.
Proof.
  intros H. apply sse_body_effect in H.
  destruct H as [-> | (? & ? & ? & _ & _ & _ & _ & ->)]; reflexivity.
Qed.

(** X8. Whatever the pointers and the outcome, the loops of the kernels are
    bounded by the count: the scalar kernel enters at most [n] loop bodies
    and the SSE kernel at most [nsse / 4] (which is [floor(n/4)] for a count
    that is not negative), exactly that many when they end normally; the
    fuel the model gives the loops is never what stops them. *)
Theorem kernels_iteration_counts r a b n cnt s :
  0 <= n < 2 ^ 64 ->
  (forall res s', compute r a b n s = (res, s') ->
     res <> Crash OutOfFuel /\
     st_iter s <= st_iter s' <= st_iter s + n /\
     (res = Ok tt -> st_iter s' = st_iter s + n)) /\
  (forall res s', compute_sse r a b cnt s = (res, s') ->
     res <> Crash OutOfFuel /\
     st_iter s <= st_iter s' <= st_iter s + nsse_of cnt / 4 /\
     (res = Ok tt -> st_iter s' = st_iter s + nsse_of cnt / 4)) /\
  (0 <= cnt <= INT_MAX -> nsse_of cnt / 4 = cnt / 4).
Proof.
  intros Hn. destruct (loops_have_fuel r a b n cnt s Hn) as (_ & Hf1 & Hf2).
  split; [|split].
  - intros res s' Hrun. rewrite Hrun in Hf1. split; [exact Hf1|].
    unfold compute in Hrun.
    apply (counted_loop_iters 1 n) in Hrun;
      [| lia | lia | apply Z.divide_1_l | | lia | apply Z.divide_0_r | lia].
    + destruct Hrun as (H1 & H2). split; [lia|]. intros Hr. specialize (H2 Hr). lia.
    + intros i s1 r1 s2 H. apply (compute_body_iter _ _ _ _ _ _ _ H).
  - intros res s' Hrun. rewrite Hrun in Hf2. split; [exact Hf2|].
    unfold compute_sse in Hrun. pose proof (nsse_of_range cnt) as Hr.
    pose proof (nsse_of_mod4 cnt) as Hm.
    assert (Hd : nsse_of cnt = 4 * (nsse_of cnt / 4)) by (apply Z.div_exact; lia).
    pose proof (Z.div_pos (nsse_of cnt) 4 ltac:(lia) ltac:(lia)) as Hq.
    apply (counted_loop_iters 4 (nsse_of cnt)) in Hrun;
      [| lia | lia | exists (nsse_of cnt / 4); lia | | lia | apply Z.divide_0_r | lia].
    + destruct Hrun as (H1 & H2). split; [lia|]. intros Hr'. specialize (H2 Hr'). lia.
    + intros i s1 r1 s2 H. apply (sse_body_iter _ _ _ _ _ _ _ H).
  - intros Hc. rewrite nsse_of_nonneg by (unfold INT_MAX in *; lia).
    apply Z.div_mul. lia.
Qed.

(** Calls the theorem applies to: the kernels on ten generated elements. *)
Lemma kernels_iteration_counts_witness :
  (forall res s',
     compute (Ptr 2%nat) (Ptr 0%nat) (Ptr 1%nat) 10 (prepared 10) = (res, s') ->
     res <> Crash OutOfFuel /\
     st_iter (prepared 10) <= st_iter s' <= st_iter (prepared 10) + 10 /\
     (res = Ok tt -> st_iter s' = st_iter (prepared 10) + 10)) /\
  (forall res s',
     compute_sse (Ptr 2%nat) (Ptr 0%nat) (Ptr 1%nat) 10 (prepared 10) = (res, s') ->
     res <> Crash OutOfFuel /\
     st_iter (prepared 10) <= st_iter s' <= st_iter (prepared 10) + nsse_of 10 / 4 /\
     (res = Ok tt -> st_iter s' = st_iter (prepared 10) + nsse_of 10 / 4)) /\
  (0 <= 10 <= INT_MAX -> nsse_of 10 / 4 = 10 / 4).
Proof.
  apply (kernels_iteration_counts (Ptr 2%nat) (Ptr 0%nat) (Ptr 1%nat) 10 10 (prepared 10)).
  lia.
Defined.

(** ** The generated inputs and their sums *)

(** Rounding a mantissa of 25 or 26 bits whose one or two low bits are zero
    only drops them. *)
Lemma round_aux_drop (P q : positive) j e :
  Zpos P = Zpos q * 2 ^ j -> j = 1 \/ j = 2 ->
  Zpos (digits2_pos q) = 24 -> -149 <= e -> e + j <= 104 ->
  binary_round_aux prec32 emax32 false (Zpos P) e loc_Exact = S754_finite false q (e + j).
Proof.
  intros HP Hj Hd He1 He2.
  assert (Hle : (e + j <=? emax32 - prec32) = true)
    by (apply Z.leb_le; unfold emax32, prec32; lia).
  destruct Hj as [-> | ->].
  - assert (P = q~0%positive) by (change (2 ^ 1) with 2 in HP; lia). subst P.
    unfold binary_round_aux, shr_fexp. rewrite fexp32. cbn [Zdigits2 digits2_pos].
    rewrite Pos2Z.inj_succ, Hd.
    replace (Z.max (Z.succ 24 + e - 24) (-149) - e) with 1 by lia.
    cbn [shr_record_of_loc shr SpecFloat.iter_pos shr_1 shr_m orb loc_of_shr_record
         shr_r shr_s round_nearest_even].
    rewrite fexp32. cbn [Zdigits2]. rewrite Hd.
    replace (Z.max (24 + (e + 1) - 24) (-149) - (e + 1)) with 0 by lia.
    cbn [shr_record_of_loc shr shr_m]. rewrite Hle. reflexivity.
  - assert (P = q~0~0%positive) by (change (2 ^ 2) with 4 in HP; lia). subst P.
    unfold binary_round_aux, shr_fexp. rewrite fexp32. cbn [Zdigits2 digits2_pos].
    rewrite !Pos2Z.inj_succ, Hd.
    replace (Z.max (Z.succ (Z.succ 24) + e - 24) (-149) - e) with 2 by lia.
    cbn [shr_record_of_loc shr SpecFloat.iter_pos shr_1 shr_m orb loc_of_shr_record
         shr_r shr_s round_nearest_even].
    rewrite fexp32. cbn [Zdigits2]. rewrite Hd.
    replace (Z.max (24 + (e + 2) - 24) (-149) - (e + 2)) with 0 by lia.
    cbn [shr_record_of_loc shr shr_m]. rewrite Hle. reflexivity.
Qed.

(** The conversion of an integer below [2^24]: the mantissa is the integer
    shifted to 24 bits. *)
Lemma f32_of_Z_small (p : positive) :
  Zpos p < 2 ^ 24 ->
  exists q : positive,
    f32_of_Z (Zpos p) = S754_finite false q (Zpos (digits2_pos p) - 24) /\
    Zpos (digits2_pos q) = 24 /\
    Zpos q = Zpos p * 2 ^ (24 - Zpos (digits2_pos p)).
Proof.
  intros Hp. rewrite f32_of_Z_pos.
  pose proof (digits2_pos_bounds p) as Hb.
  set (d := Zpos (digits2_pos p)) in *.
  assert (Hd : 0 < d <= 24).
  { split; [subst d; lia|].
    destruct (Z_lt_le_dec 24 d) as [Hgt|]; [|lia].
    assert (2 ^ 24 <= 2 ^ (d - 1)) by (apply Z.pow_le_mono_r; lia). lia. }
  destruct (d - 24) as [|k|k] eqn:E; try lia.
  - exists p. assert (d = 24) by lia.
    rewrite round_aux_exact by (fold d; lia).
    split; [reflexivity|]. split; [fold d; lia|].
    replace (24 - d) with 0 by lia. lia.
  - exists (Pos.iter xO p k). split; [reflexivity|]. split.
    + apply round_small. fold d. lia.
    + rewrite iter_xO_Z. f_equal. f_equal. lia.
Qed.

(** [(float)i + (float)(2*i)] is [(float)(3*i)] as long as [3*i] has at most
    24 bits. *)
Lemma f32_add_triple (i : Z) :
  0 <= i -> 3 * i < 2 ^ 24 ->
  f32_add (f32_of_Z i) (f32_of_Z (2 * i)) = f32_of_Z (3 * i).
Proof.
  intros Hi H3. destruct i as [|p|p]; [reflexivity | | lia].
  rewrite <- (f32_double (Zpos p)) by lia. change (f32_of_Z 2) with f32_two.
  destruct (f32_of_Z_small p ltac:(lia)) as (M & -> & HdM & HM).
  pose proof (digits2_pos_bounds p) as Hb.
  set (d := Zpos (digits2_pos p)) in *.
  assert (Hd : 0 < d <= 23).
  { split; [subst d; lia|].
    destruct (Z_lt_le_dec 23 d) as [Hgt|]; [|lia].
    assert (2 ^ 23 <= 2 ^ (d - 1)) by (apply Z.pow_le_mono_r; lia).
    change (2 ^ 24) with (2 * 2 ^ 23) in H3. lia. }
  rewrite mul_two by (auto; lia).
  destruct (3 * Zpos p) as [|p3|p3] eqn:E3; try lia.
  destruct (f32_of_Z_small p3 ltac:(lia)) as (q & -> & Hdq & Hq).
  pose proof (digits2_pos_bounds p3) as Hb3.
  set (d3 := Zpos (digits2_pos p3)) in *.
  assert (Hpow : 2 ^ d = 2 * 2 ^ (d - 1)).
  { rewrite <- Z.pow_succ_r by lia. f_equal. lia. }
  assert (Hd3 : d + 1 <= d3 <= d + 2).
  { split.
    - destruct (Z_lt_le_dec d3 (d + 1)) as [Hlt|]; [|lia].
      assert (2 ^ d3 <= 2 ^ d) by (apply Z.pow_le_mono_r; lia). lia.
    - destruct (Z_lt_le_dec (d + 2) d3) as [Hgt|]; [|lia].
      assert (2 ^ (d + 2) <= 2 ^ (d3 - 1)) by (apply Z.pow_le_mono_r; lia).
      assert (2 ^ (d + 2) = 4 * 2 ^ d).
      { replace (d + 2) with (2 + d) by lia. rewrite Z.pow_add_r by lia. reflexivity. }
      lia. }
  assert (Hd324 : d3 <= 24).
  { destruct (Z_lt_le_dec 24 d3) as [Hgt|]; [|lia].
    assert (2 ^ 24 <= 2 ^ (d3 - 1)) by (apply Z.pow_le_mono_r; lia). lia. }
  unfold f32_add, SFadd. cbn [cond_Zopp].
  replace (Z.min (d - 24) (d - 24 + 1)) with (d - 24) by lia.
  unfold shl_align at 1 2.
  replace (d - 24 - (d - 24)) with 0 by lia.
  replace (d - 24 - (d - 24 + 1)) with (-1) by lia.
  cbn [fst Pos.iter].
  change (Zpos M + Zpos M~0) with (Zpos (M + M~0)).
  unfold binary_normalize, binary_round.
  set (P := (M + M~0)%positive).
  assert (HPq : Zpos P = Zpos q * 2 ^ (d3 - d)).
  { subst P. rewrite Pos2Z.inj_add, Pos2Z.inj_xO, HM, Hq, <- E3.
    replace (24 - d) with ((24 - d3) + (d3 - d)) by lia.
    rewrite Z.pow_add_r by lia. ring. }
  assert (HdP : Zpos (digits2_pos P) = 24 + (d3 - d)).
  { apply digits2_pos_unique. rewrite HPq.
    pose proof (digits2_pos_bounds q) as Hbq. rewrite Hdq in Hbq.
    replace (24 + (d3 - d) - 1) with (23 + (d3 - d)) by lia.
    rewrite !Z.pow_add_r by lia. change (24 - 1) with 23 in Hbq.
    assert (0 < 2 ^ (d3 - d)) by (apply Z.pow_pos_nonneg; lia). nia. }
  unfold shl_align. rewrite fexp32, HdP.
  replace (Z.max (24 + (d3 - d) + (d - 24) - 24) (-149) - (d - 24)) with (d3 - d) by lia.
  destruct (d3 - d) as [|j|j] eqn:Ej; try lia.
  rewrite (round_aux_drop P q (Zpos j)); try assumption; try lia.
  f_equal. lia.
Qed.

(** The conversion of an integer below [2^24] is that integer. *)
Lemma f32_of_Z_exact j : 0 <= j < 2 ^ 24 -> f32_to_Z (f32_of_Z j) = Some j.
Proof.
  intros Hj. destruct j as [|p|p]; [reflexivity | | lia].
  destruct (f32_of_Z_small p ltac:(lia)) as (q & -> & Hdq & Hq).
  pose proof (digits2_pos_bounds p) as Hb.
  set (d := Zpos (digits2_pos p)) in *.
  assert (Hd : 0 < d <= 24).
  { split; [subst d; lia|].
    destruct (Z_lt_le_dec 24 d) as [Hgt|]; [|lia].
    assert (2 ^ 24 <= 2 ^ (d - 1)) by (apply Z.pow_le_mono_r; lia). lia. }
  unfold f32_to_Z. cbn [cond_Zopp].
  destruct (0 <=? d - 24) eqn:E.
  - apply Z.leb_le in E. assert (d = 24) by lia.
    replace (d - 24) with 0 by lia. replace (24 - d) with 0 in Hq by lia.
    f_equal. change (2 ^ 0) with 1 in *. lia.
  - replace (- (d - 24)) with (24 - d) by lia. rewrite Hq.
    assert (0 < 2 ^ (24 - d)) by (apply Z.pow_pos_nonneg; lia).
    rewrite Z.mod_mul by lia. cbn [Z.eqb]. rewrite Z.div_mul by lia. reflexivity.
Qed.

(** X9. The initialisation loop of the drivers, on two distinct buffers of
    at least [n] floats: it ends normally after [n] loop bodies with
    [data1[i] = (float)i] and [data2[i] = (float)(2*i)] for every [i] in
    [[0, n)] (the multiplication by 2 is exact), these being the integers
    [i] and [2*i] themselves as long as they are below [2^24]; the cells
    from [n] on and the other blocks are as before. *)
Theorem fill_generates_inputs b1 b2 B1 B2 n s :
  st_heap s !! b1 = Some B1 -> st_heap s !! b2 = Some B2 -> b1 <> b2 ->
  0 <= n < 2 ^ 64 ->
  sizeof_float * n <= buf_size B1 -> sizeof_float * n <= buf_size B2 ->
  exists s' D1 D2,
    fill (Ptr b1) (Ptr b2) n s = (Ok tt, s') /\
    st_heap s' !! b1 = Some D1 /\ st_heap s' !! b2 = Some D2 /\
    (forall i, 0 <= i < n ->
       buf_data D1 !! i = Some (f32_of_Z i) /\
       buf_data D2 !! i = Some (f32_of_Z (2 * i))) /\
    (forall i, 0 <= i < n ->
       (i < 2 ^ 24 -> f32_to_Z (rd D1 i) = Some i) /\
       (2 * i < 2 ^ 24 -> f32_to_Z (rd D2 i) = Some (2 * i))) /\
    (forall i, i < 0 \/ n <= i ->
       buf_data D1 !! i = buf_data B1 !! i /\ buf_data D2 !! i = buf_data B2 !! i) /\
    (forall p, p <> b1 -> p <> b2 -> st_heap s' !! p = st_heap s !! p) /\
    st_iter s' = st_iter s + n.
Proof.
  intros H1 H2 Hne Hn Hs1 Hs2.
  pose proof (lookup_lt_Some _ _ _ H1) as Hl1.
  pose proof (lookup_lt_Some _ _ _ H2) as Hl2.
  eexists _, _, _. split; [apply (fill_spec b1 b2 B1 B2); assumption|].
  unfold fill_state. cbn [set_heap st_heap add_iter st_iter].
  split; [|split; [|split; [|split; [|split; [|split]]]]].
  - rewrite list_lookup_insert_ne by congruence. apply list_lookup_insert_eq. exact Hl1.
  - apply list_lookup_insert_eq. rewrite length_insert. exact Hl2.
  - intros i Hi. cbn [gen_buf buf_data]. rewrite !gen_data_lookup, !decide_True by lia.
    split; [reflexivity|]. unfold val2. rewrite f32_double by lia. reflexivity.
  - intros i Hi. rewrite !rd_gen by lia. unfold val1, val2.
    rewrite f32_double by lia. split; intros Hlt; apply f32_of_Z_exact; lia.
  - intros i Hi. cbn [gen_buf buf_data]. rewrite !gen_data_lookup, !decide_False by lia.
    split; reflexivity.
  - intros p Hp1 Hp2. rewrite !list_lookup_insert_ne by congruence. reflexivity.
  - lia.
Qed.

(** A call the theorem applies to: two fresh buffers of four floats. *)
Lemma fill_generates_inputs_witness :
  exists s' D1 D2,
    fill (Ptr 0%nat) (Ptr 1%nat) 4
      (with_heap [fresh_buffer 4096 16; fresh_buffer 4128 16]) = (Ok tt, s') /\
    st_heap s' !! 0%nat = Some D1 /\ st_heap s' !! 1%nat = Some D2 /\
    (forall i, 0 <= i < 4 ->
       buf_data D1 !! i = Some (f32_of_Z i) /\
       buf_data D2 !! i = Some (f32_of_Z (2 * i))) /\
    (forall i, 0 <= i < 4 ->
       (i < 2 ^ 24 -> f32_to_Z (rd D1 i) = Some i) /\
       (2 * i < 2 ^ 24 -> f32_to_Z (rd D2 i) = Some (2 * i))) /\
    (forall i, i < 0 \/ 4 <= i ->
       buf_data D1 !! i = buf_data (fresh_buffer 4096 16) !! i /\
       buf_data D2 !! i = buf_data (fresh_buffer 4128 16) !! i) /\
    (forall p, p <> 0%nat -> p <> 1%nat ->
       st_heap s' !! p
       = st_heap (with_heap [fresh_buffer 4096 16; fresh_buffer 4128 16]) !! p) /\
    st_iter s' = st_iter (with_heap [fresh_buffer 4096 16; fresh_buffer 4128 16]) + 4.
Proof.
  apply (fill_generates_inputs 0 1 (fresh_buffer 4096 16) (fresh_buffer 4128 16));
    try reflexivity; try (vm_compute; discriminate); lia.
Defined.

(** The result of a run: the block, its size and the cells written. *)
Lemma run_scalar_result n s :
  0 <= n -> 3 * (sizeof_float * n) <= st_avail s -> st_avail s < 2 ^ 64 ->
  exists buf s',
    run_scalar n s = (Ok (elapsed (st_clock s), Ptr (length (st_heap s) + 2)), s') /\
    st_heap s' !! (length (st_heap s) + 2)%nat = Some buf /\
    buf_size buf = sizeof_float * n /\
    (forall i, 0 <= i < n ->
       buf_data buf !! i = Some (f32_add (f32_of_Z i) (f32_of_Z (2 * i)))) /\
    (forall i, n <= i -> buf_data buf !! i = None) /\
    st_out s' = st_out s.
Proof.
  intros Hn Hav Hlt.
  destruct (run_scalar_spec n s Hn Hav Hlt)
    as (F1 & F2 & F3 & s' & HF1 & HF2 & HF3 & Hrun & Hheap & _ & Hout & _).
  set (G1 := gen_buf val1 (Z.to_nat n) F1) in *.
  set (G2 := gen_buf val2 (Z.to_nat n) F2) in *.
  set (G3 := gen_buf (sum_of G1 G2) (Z.to_nat n) F3) in *.
  destruct (app3_lookup (st_heap s) G1 G2 G3) as (_ & _ & L3).
  rewrite <- Hheap in L3.
  exists G3, s'. split; [exact Hrun|]. split; [exact L3|].
  destruct HF3 as (S3 & D3 & _). split; [exact S3|]. split; [|split; [|exact Hout]].
  - intros i Hi. subst G3. cbn [gen_buf buf_data].
    rewrite gen_data_lookup, decide_True by lia. f_equal.
    apply sum_of_generated; unfold sizeof_float in *; lia.
  - intros i Hi. subst G3. cbn [gen_buf buf_data].
    rewrite gen_data_lookup, decide_False by lia. rewrite D3. apply lookup_empty.
Qed.

Lemma run_vectorized_result n s :
  0 <= n <= INT_MAX -> 3 * (sizeof_float * n) <= st_avail s -> st_avail s < 2 ^ 64 ->
  exists buf s',
    run_vectorized n s = (Ok (elapsed (st_clock s), Ptr (length (st_heap s) + 2)), s') /\
    st_heap s' !! (length (st_heap s) + 2)%nat = Some buf /\
    buf_size buf = sizeof_float * n /\
    (forall i, 0 <= i < n / 4 * 4 ->
       buf_data buf !! i = Some (f32_add (f32_of_Z i) (f32_of_Z (2 * i)))) /\
    (forall i, n / 4 * 4 <= i -> buf_data buf !! i = None) /\
    st_out s' = st_out s.
Proof.
  intros Hn Hav Hlt.
  assert (Hint : to_int n = n) by (apply to_int_small; unfold INT_MIN, INT_MAX in *; lia).
  assert (Hnsse : nsse_of (to_int n) = n / 4 * 4).
  { rewrite Hint. apply nsse_of_nonneg. unfold INT_MAX in *. lia. }
  pose proof (Z.mul_div_le n 4 ltac:(lia)) as Hm.
  pose proof (Z.div_pos n 4 ltac:(lia) ltac:(lia)) as Hm0.
  destruct (run_vectorized_spec n s ltac:(lia) Hav Hlt ltac:(lia))
    as (F1 & F2 & F3 & s' & HF1 & HF2 & HF3 & Hrun & Hheap & _ & Hout & _).
  rewrite Hnsse in Hheap.
  set (G1 := gen_buf val1 (Z.to_nat n) F1) in *.
  set (G2 := gen_buf val2 (Z.to_nat n) F2) in *.
  set (G3 := gen_buf (sum_of G1 G2) (Z.to_nat (n / 4 * 4)) F3) in *.
  destruct (app3_lookup (st_heap s) G1 G2 G3) as (_ & _ & L3).
  rewrite <- Hheap in L3.
  exists G3, s'. split; [exact Hrun|]. split; [exact L3|].
  destruct HF3 as (S3 & D3 & _). split; [exact S3|]. split; [|split; [|exact Hout]].
  - intros i Hi. subst G3. cbn [gen_buf buf_data].
    rewrite gen_data_lookup, decide_True by lia. f_equal.
    apply sum_of_generated; unfold INT_MAX in *; lia.
  - intros i Hi. subst G3. cbn [gen_buf buf_data].
    rewrite gen_data_lookup, decide_False by lia. rewrite D3. apply lookup_empty.
Qed.

(** X10. The results of a run are exact where they can be: in the result of
    the scalar run, and in the full blocks of the result of the SSE run for
    a count that fits [int], every cell [i] with [3*i < 2^24] holds
    [(float)(3*i)], which is the integer [3*i] itself. Beyond that bound the
    sum is rounded and need not be [(float)(3*i)]: it is not for
    [i = 16777217]. *)
Theorem small_sums_are_exact n s :
  0 <= n -> 3 * (sizeof_float * n) <= st_avail s -> st_avail s < 2 ^ 64 ->
  (exists d r buf s',
     run_scalar n s = (Ok (d, Ptr r), s') /\ st_heap s' !! r = Some buf /\
     forall i, 0 <= i < n -> 3 * i < 2 ^ 24 ->
       buf_data buf !! i = Some (f32_of_Z (3 * i)) /\
       f32_to_Z (rd buf i) = Some (3 * i)) /\
  (n <= INT_MAX ->
   exists d r buf s',
     run_vectorized n s = (Ok (d, Ptr r), s') /\ st_heap s' !! r = Some buf /\
     forall i, 0 <= i < n / 4 * 4 -> 3 * i < 2 ^ 24 ->
       buf_data buf !! i = Some (f32_of_Z (3 * i)) /\
       f32_to_Z (rd buf i) = Some (3 * i)) /\
  f32_add (f32_of_Z 16777217) (f32_of_Z (2 * 16777217)) <> f32_of_Z (3 * 16777217).
Proof.
  intros Hn Hav Hlt. split; [|split].
  - destruct (run_scalar_result n s Hn Hav Hlt) as (buf & s' & Hrun & Hl & _ & Hc & _).
    eexists _, _, buf, s'. split; [exact Hrun|]. split; [exact Hl|].
    intros i Hi H3. assert (E : buf_data buf !! i = Some (f32_of_Z (3 * i))).
    { rewrite (Hc i Hi). f_equal. apply f32_add_triple; lia. }
    split; [exact E|]. unfold rd. rewrite E. cbn [default]. apply f32_of_Z_exact. lia.
  - intros Hmax.
    destruct (run_vectorized_result n s ltac:(lia) Hav Hlt)
      as (buf & s' & Hrun & Hl & _ & Hc & _).
    eexists _, _, buf, s'. split; [exact Hrun|]. split; [exact Hl|].
    intros i Hi H3. assert (E : buf_data buf !! i = Some (f32_of_Z (3 * i))).
    { rewrite (Hc i Hi). f_equal. apply f32_add_triple; lia. }
    split; [exact E|]. unfold rd. rewrite E. cbn [default]. apply f32_of_Z_exact. lia.
  - vm_compute. discriminate.
Qed.

(** Runs the theorem applies to: eight elements on a platform with 1000
    bytes. *)
Lemma small_sums_are_exact_witness :
  (exists d r buf s',
     run_scalar 8 (boot 1000) = (Ok (d, Ptr r), s') /\ st_heap s' !! r = Some buf /\
     forall i, 0 <= i < 8 -> 3 * i < 2 ^ 24 ->
       buf_data buf !! i = Some (f32_of_Z (3 * i)) /\
       f32_to_Z (rd buf i) = Some (3 * i)) /\
  (8 <= INT_MAX ->
   exists d r buf s',
     run_vectorized 8 (boot 1000) = (Ok (d, Ptr r), s') /\ st_heap s' !! r = Some buf /\
     forall i, 0 <= i < 8 / 4 * 4 -> 3 * i < 2 ^ 24 ->
       buf_data buf !! i = Some (f32_of_Z (3 * i)) /\
       f32_to_Z (rd buf i) = Some (3 * i)) /\
  f32_add (f32_of_Z 16777217) (f32_of_Z (2 * 16777217)) <> f32_of_Z (3 * 16777217).
Proof.
  apply (small_sums_are_exact 8 (boot 1000)); [lia | vm_compute; discriminate | reflexivity].
Defined.

(** ** [get_timestamp] *)

Lemma round_aux_not_negative prec emax m e l :
  0 <= m -> not_negative (binary_round_aux prec emax false m e l) = true.
Proof.
  intros Hm. unfold binary_round_aux, shr_fexp.
  pose proof (shr_nonneg (shr_record_of_loc m l) e
    (fexp prec emax (Zdigits2 m + e) - e)) as H1.
  rewrite shr_record_of_loc_m in H1. specialize (H1 Hm).
  destruct (shr (shr_record_of_loc m l) e (fexp prec emax (Zdigits2 m + e) - e))
    as [mrs' e'] eqn:E1. cbn [fst] in H1.
  set (m1 := round_nearest_even (shr_m mrs') (loc_of_shr_record mrs')).
  assert (Hm1 : 0 <= m1).
  { subst m1. destruct (round_nearest_even_cases (shr_m mrs') (loc_of_shr_record mrs'))
      as [-> | ->]; lia. }
  pose proof (shr_nonneg (shr_record_of_loc m1 loc_Exact) e'
    (fexp prec emax (Zdigits2 m1 + e') - e')) as H2.
  rewrite shr_record_of_loc_m in H2. specialize (H2 Hm1).
  destruct (shr (shr_record_of_loc m1 loc_Exact) e' (fexp prec emax (Zdigits2 m1 + e') - e'))
    as [mrs'' e''] eqn:E2. cbn [fst] in H2.
  destruct (shr_m mrs'') as [|q|q]; [reflexivity | | lia].
  destruct (e'' <=? emax - prec); reflexivity.
Qed.

Lemma normalize_not_negative prec emax m e :
  0 <= m -> not_negative (binary_normalize prec emax m e false) = true.
Proof.
  intros Hm. destruct m as [|p|p]; [reflexivity | | lia].
  unfold binary_normalize, binary_round.
  destruct (shl_align p e _) as [mz ez]. apply round_aux_not_negative. lia.
Qed.

Lemma f64_add_not_negative x y :
  not_negative x = true -> not_negative y = true -> not_negative (f64_add x y) = true.
Proof.
  intros Hx Hy.
  destruct x as [[|]|[|]| |[|] mx ex]; try discriminate;
    destruct y as [[|]|[|]| |[|] my ey]; try discriminate; try reflexivity.
  unfold f64_add, SFadd. cbn [cond_Zopp].
  apply normalize_not_negative. lia.
Qed.

Lemma f64_div_not_negative x y :
  not_negative x = true -> (exists m e, y = S754_finite false m e) ->
  not_negative (f64_div x y) = true.
Proof.
  intros Hx (my & ey & ->).
  destruct x as [[|]|[|]| |[|] mx ex]; try discriminate; try reflexivity.
  unfold f64_div, SFdiv, SFdiv_core_binary. cbn [xorb].
  set (sh := _ - _ - _).
  set (m' := match sh with Z0 => Zpos mx | Zpos _ => Z.shiftl (Zpos mx) sh | Zneg _ => 0 end).
  assert (Hm' : 0 <= m').
  { subst m'. destruct sh; try lia. apply Z.shiftl_nonneg. lia. }
  pose proof (Z_div_mod m' (Zpos my) ltac:(lia)) as Hdm.
  destruct (Z.div_eucl m' (Zpos my)) as [q r].
  apply round_aux_not_negative. destruct Hdm as (Hq & Hr). nia.
Qed.

Lemma stamp_not_negative sec usec :
  0 <= sec -> 0 <= usec -> not_negative (stamp (sec, usec)) = true.
Proof.
  intros Hs Hu. unfold stamp. cbn [fst snd].
  apply f64_add_not_negative.
  - apply normalize_not_negative. exact Hs.
  - apply f64_div_not_negative.
    + apply normalize_not_negative. exact Hu.
    + eexists _, _. reflexivity.
Qed.

(** X11. [get_timestamp] takes one reading of the clock and changes nothing
    else. For a reading whose seconds and microseconds are not negative it
    returns a number that is not NaN and not negative, whatever the size of
    the fields; when the microseconds are 0 it returns the seconds converted
    to [double]. *)
Theorem get_timestamp_not_negative sec usec clock s :
  st_clock s = (sec, usec) :: clock -> 0 <= sec -> 0 <= usec ->
  exists t,
    get_timestamp s = (Ok t, set_clock clock s) /\
    not_negative t = true /\
    (usec = 0 -> t = f64_of_Z sec).
Proof.
  intros Hc Hs Hu. exists (stamp (sec, usec)).
  rewrite get_timestamp_eq, Hc. split; [reflexivity|]. split.
  - apply stamp_not_negative; assumption.
  - intros ->. unfold stamp. cbn [fst snd].
    change (f64_div (f64_of_Z 0) (f64_of_Z 1000000)) with (S754_zero false).
    pose proof (normalize_not_negative prec64 emax64 sec 0 Hs) as Hn.
    fold (f64_of_Z sec) in Hn.
    destruct (f64_of_Z sec) as [[|]|[|]| |[|] m e]; try discriminate; reflexivity.
Qed.

(** A call the theorem applies to: the first reading of the example
    platform. *)
Lemma get_timestamp_not_negative_witness :
  exists t,
    get_timestamp (boot 0) = (Ok t, set_clock [(100, 750000)] (boot 0)) /\
    not_negative t = true /\
    (250000 = 0 -> t = f64_of_Z 100).
Proof.
  apply (get_timestamp_not_negative 100 250000 [(100, 750000)] (boot 0));
    [reflexivity | lia | lia].
Defined.

(** ** The drivers *)

(** X12. The SSE run for a count [n] of [[0, INT_MAX]] that the platform can
    serve (allocation, input generation, then the SSE kernel with the
    converted count) ends normally with a result buffer of [n] floats in
    which every index below [floor(n/4)*4] holds [float(i) + float(2*i)],
    as a value and under C's [==], and no cell from [floor(n/4)*4] on was
    ever written. *)
Theorem sse_run_correct_int_range n s :
  0 <= n <= INT_MAX -> 3 * (sizeof_float * n) <= st_avail s -> st_avail s < 2 ^ 64 ->
  exists d r buf s',
    run_vectorized n s = (Ok (d, Ptr r), s') /\
    st_heap s' !! r = Some buf /\ buf_size buf = sizeof_float * n /\
    (forall i, 0 <= i < n / 4 * 4 ->
       buf_data buf !! i = Some (f32_add (f32_of_Z i) (f32_of_Z (2 * i))) /\
       f32_eqb (rd buf i) (f32_add (f32_of_Z i) (f32_of_Z (2 * i))) = true) /\
    (forall i, n / 4 * 4 <= i -> buf_data buf !! i = None).
Proof.
  intros Hn Hav Hlt.
  assert (Hint : to_int n = n) by (apply to_int_small; unfold INT_MIN, INT_MAX in *; lia).
  assert (Hnsse : nsse_of (to_int n) = n / 4 * 4).
  { rewrite Hint. apply nsse_of_nonneg. unfold INT_MAX in *. lia. }
  pose proof (Z.mul_div_le n 4 ltac:(lia)) as Hm.
  pose proof (Z.div_pos n 4 ltac:(lia) ltac:(lia)) as Hm0.
  destruct (run_vectorized_spec n s ltac:(lia) Hav Hlt ltac:(lia))
    as (F1 & F2 & F3 & s' & HF1 & HF2 & HF3 & Hrun & Hheap & _).
  rewrite Hnsse in Hheap.
  set (G1 := gen_buf val1 (Z.to_nat n) F1) in *.
  set (G2 := gen_buf val2 (Z.to_nat n) F2) in *.
  set (G3 := gen_buf (sum_of G1 G2) (Z.to_nat (n / 4 * 4)) F3) in *.
  destruct (app3_lookup (st_heap s) G1 G2 G3) as (_ & _ & L3).
  rewrite <- Hheap in L3.
  assert (Hcell : forall i, 0 <= i < n / 4 * 4 ->
    buf_data G3 !! i = Some (f32_add (f32_of_Z i) (f32_of_Z (2 * i)))).
  { intros i Hi. subst G3. cbn [gen_buf buf_data].
    rewrite gen_data_lookup, decide_True by lia. f_equal.
    apply sum_of_generated; unfold INT_MAX in *; lia. }
  eexists _, _, G3, s'. split; [exact Hrun|]. split; [exact L3|]. split.
  { destruct HF3 as (S3 & _). exact S3. }
  split.
  - intros i Hi. split; [apply Hcell; exact Hi|].
    unfold rd. rewrite (Hcell i Hi). cbn [default].
    apply f32_eqb_refl. apply f32_add_not_nan; unfold INT_MAX in *; lia.
  - intros i Hi. subst G3. cbn [gen_buf buf_data].
    rewrite gen_data_lookup, decide_False by lia.
    destruct HF3 as (_ & -> & _). apply lookup_empty.
Qed.

(** A run the theorem applies to: ten floats on a platform with 1000
    bytes. *)
Lemma sse_run_correct_int_range_witness :
  exists d r buf s',
    run_vectorized 10 (boot 1000) = (Ok (d, Ptr r), s') /\
    st_heap s' !! r = Some buf /\ buf_size buf = sizeof_float * 10 /\
    (forall i, 0 <= i < 10 / 4 * 4 ->
       buf_data buf !! i = Some (f32_add (f32_of_Z i) (f32_of_Z (2 * i))) /\
       f32_eqb (rd buf i) (f32_add (f32_of_Z i) (f32_of_Z (2 * i))) = true) /\
    (forall i, 10 / 4 * 4 <= i -> buf_data buf !! i = None).
Proof.
  apply (sse_run_correct_int_range 10 (boot 1000));
    [split; vm_compute; discriminate | vm_compute; discriminate | reflexivity].
Defined.

(** *** What the drivers print *)

(** The last [printf] on a result whose first four cells hold the sums of
    the generated inputs. *)
Lemma print_first4_sums b buf s :
  st_heap s !! b = Some buf -> sizeof_float * 4 <= buf_size buf ->
  (forall i, 0 <= i < 4 ->
     buf_data buf !! i = Some (f32_add (f32_of_Z i) (f32_of_Z (2 * i)))) ->
  print_first4 (Ptr b) s = (Ok tt, add_out (first4_line 0 3 6 9) s).
Proof.
  intros Hb Hs Hc. unfold print_first4.
  rewrite (bind_ok _ _ _ _ _ (load_ok b buf 0 _ s Hb ltac:(lia)
    ltac:(unfold sizeof_float in *; lia) (Hc 0 ltac:(lia)))).
  rewrite (bind_ok _ _ _ _ _ (load_ok b buf 1 _ s Hb ltac:(lia)
    ltac:(unfold sizeof_float in *; lia) (Hc 1 ltac:(lia)))).
  rewrite (bind_ok _ _ _ _ _ (load_ok b buf 2 _ s Hb ltac:(lia)
    ltac:(unfold sizeof_float in *; lia) (Hc 2 ltac:(lia)))).
  rewrite (bind_ok _ _ _ _ _ (load_ok b buf 3 _ s Hb ltac:(lia)
    ltac:(unfold sizeof_float in *; lia) (Hc 3 ltac:(lia)))).
  reflexivity.
Qed.

(** X13. The scalar driver, given a count [n >= 4] that the platform can
    serve, returns 0 after printing three lines: the size of the table, the
    elapsed time (the difference of the two clock readings) and the first
    four results, which are 0, 3, 6 and 9. *)
Theorem main_simple_output prog arg rest n s :
  to_size_t (atoll arg) = n ->
  4 <= n -> 3 * (sizeof_float * n) <= st_avail s -> st_avail s < 2 ^ 64 ->
  exists s',
    main_simple prog (arg :: rest) s = (Ok 0, s') /\
    st_out s' = [first4_line 0 3 6 9; time_line_simple (elapsed (st_clock s));
                 using_line n] ++ st_out s.
Proof.
  intros En Hn Hav Hlt. unfold main_simple. rewrite En.
  erewrite bind_ok by reflexivity.
  destruct (run_scalar_result n (add_out (using_line n) s) ltac:(lia) Hav Hlt)
    as (buf & s1 & Hrun & Hl & Hs & Hc & _ & Hout).
  fold (using_line n).
  rewrite (bind_ok _ _ _ _ _ Hrun). cbv beta iota.
  erewrite bind_ok by reflexivity.
  erewrite bind_ok; cycle 1.
  { apply (print_first4_sums _ buf).
    - exact Hl.
    - rewrite Hs. unfold sizeof_float. lia.
    - intros i Hi. apply Hc. lia. }
  eexists. split; [reflexivity|]. cbn. rewrite Hout. reflexivity.
Qed.

(** A run the theorem applies to: eight elements. *)
Lemma main_simple_output_witness :
  exists s',
    main_simple "a.out" ["8"%string] (boot 1000) = (Ok 0, s') /\
    st_out s' = [first4_line 0 3 6 9; time_line_simple (elapsed (st_clock (boot 1000)));
                 using_line 8] ++ st_out (boot 1000).
Proof.
  apply (main_simple_output "a.out" "8" [] 8 (boot 1000)); try reflexivity;
    vm_compute; discriminate.
Defined.

(** X14. The SSE driver, given a count [n] of [[4, INT_MAX]] that the
    platform can serve, returns 0 after printing three lines: the size of
    the table, the elapsed time and the first four results, which are 0, 3,
    6 and 9 (the first block is always a full one). *)
Theorem main_sse_output prog arg rest n s :
  to_size_t (atoll arg) = n ->
  4 <= n <= INT_MAX -> 3 * (sizeof_float * n) <= st_avail s -> st_avail s < 2 ^ 64 ->
  exists s',
    main_sse prog (arg :: rest) s = (Ok 0, s') /\
    st_out s' = [first4_line 0 3 6 9; time_line_sse (elapsed (st_clock s));
                 using_line n] ++ st_out s.
Proof.
  intros En Hn Hav Hlt. unfold main_sse. rewrite En.
  erewrite bind_ok by reflexivity.
  destruct (run_vectorized_result n (add_out (using_line n) s) ltac:(lia) Hav Hlt)
    as (buf & s1 & Hrun & Hl & Hs & Hc & _ & Hout).
  fold (using_line n).
  rewrite (bind_ok _ _ _ _ _ Hrun). cbv beta iota.
  erewrite bind_ok by reflexivity.
  erewrite bind_ok; cycle 1.
  { apply (print_first4_sums _ buf).
    - exact Hl.
    - rewrite Hs. unfold sizeof_float. lia.
    - intros i Hi. apply Hc. pose proof (Z.div_le_mono 4 n 4 ltac:(lia) ltac:(lia)) as H4.
      change (4 / 4) with 1 in H4. lia. }
  eexists. split; [reflexivity|]. cbn. rewrite Hout. reflexivity.
Qed.

(** A run the theorem applies to: six elements. *)
Lemma main_sse_output_witness :
  exists s',
    main_sse "a.out" ["6"%string] (boot 1000) = (Ok 0, s') /\
    st_out s' = [first4_line 0 3 6 9; time_line_sse (elapsed (st_clock (boot 1000)));
                 using_line 6] ++ st_out (boot 1000).
Proof.
  apply (main_sse_output "a.out" "6" [] 6 (boot 1000)); try reflexivity;
    try (vm_compute; discriminate); split; vm_compute; discriminate.
Defined.

(** The last [printf] changes no buffer and only adds to what was printed,
    whatever its outcome. *)
Lemma print_first4_frame r s res s' :
  print_first4 r s = (res, s') ->
  st_heap s' = st_heap s /\ exists out, st_out s' = out ++ st_out s.
Proof.
  unfold print_first4. intros H.
  repeat (apply bind_inv in H; destruct H as [(? & s0 & H0 & H) | (? & H0 & _)];
          [apply load_state in H0; subst s0
          |apply load_state in H0; subst s'; split; [reflexivity | exists []; reflexivity]]).
  unfold printf in H. inversion H; subst.
  split; [reflexivity | eexists [_]; reflexivity].
Qed.

(** X15. With fewer than four elements the last [printf] is given values
    that are no results. For a count [n < 4] that the platform can serve,
    both drivers get to that [printf] with the size of the table and the
    elapsed time printed and a result buffer of [n] floats only: after the
    scalar kernel its cells below [n] hold the sums and no cell from [n] on
    was written; after the SSE kernel, which has no full block, no cell was
    written at all. The [printf] is passed [result[0]] to [result[3]]
    regardless; what it does with them is left open here, and it changes no
    buffer. *)
Theorem fewer_than_four_elements prog arg rest n s :
  to_size_t (atoll arg) = n ->
  0 <= n < 4 -> 3 * (sizeof_float * n) <= st_avail s -> st_avail s < 2 ^ 64 ->
  (exists res s' out buf,
     main_simple prog (arg :: rest) s = (res, s') /\
     st_out s' = out ++ [time_line_simple (elapsed (st_clock s)); using_line n]
                     ++ st_out s /\
     st_heap s' !! (length (st_heap s) + 2)%nat = Some buf /\
     buf_size buf = sizeof_float * n /\ buf_size buf < sizeof_float * 4 /\
     (forall i, 0 <= i < n ->
        buf_data buf !! i = Some (f32_add (f32_of_Z i) (f32_of_Z (2 * i)))) /\
     (forall i, n <= i -> buf_data buf !! i = None)) /\
  (exists res s' out buf,
     main_sse prog (arg :: rest) s = (res, s') /\
     st_out s' = out ++ [time_line_sse (elapsed (st_clock s)); using_line n]
                     ++ st_out s /\
     st_heap s' !! (length (st_heap s) + 2)%nat = Some buf /\
     buf_size buf = sizeof_float * n /\ buf_size buf < sizeof_float * 4 /\
     (forall i, 0 <= i -> buf_data buf !! i = None)).
Proof.
  intros En Hn Hav Hlt. split.
  - destruct (run_scalar_result n (add_out (using_line n) s) ltac:(lia) Hav Hlt)
      as (buf & s1 & Hrun & Hl & Hs & Hc & Hnone & Hout).
    destruct (print_first4 (Ptr (length (st_heap s) + 2))
                (add_out (time_line_simple (elapsed (st_clock s))) s1))
      as [pres s2] eqn:Ep.
    destruct (print_first4_frame _ _ _ _ Ep) as (Hh2 & out & Ho2).
    exists (match pres with Ok _ => Ok 0 | Crash f => Crash f end), s2, out, buf.
    split.
    { unfold main_simple. rewrite En. erewrite bind_ok by reflexivity.
      erewrite bind_ok by exact Hrun. cbv beta iota.
      erewrite bind_ok by reflexivity.
      destruct pres as [[]|f].
      - erewrite bind_ok by exact Ep. reflexivity.
      - erewrite bind_crash by exact Ep. reflexivity. }
    rewrite Ho2, Hh2. cbn [add_out st_out st_heap] in *. rewrite Hout.
    split; [reflexivity|]. split; [exact Hl|]. split; [exact Hs|].
    split; [rewrite Hs; unfold sizeof_float; lia|]. split; assumption.
  - destruct (run_vectorized_result n (add_out (using_line n) s)
                ltac:(unfold INT_MAX; lia) Hav Hlt)
      as (buf & s1 & Hrun & Hl & Hs & _ & Hnone & Hout).
    assert (Hq : n / 4 * 4 = 0) by (rewrite Z.div_small by lia; reflexivity).
    destruct (print_first4 (Ptr (length (st_heap s) + 2))
                (add_out (time_line_sse (elapsed (st_clock s))) s1))
      as [pres s2] eqn:Ep.
    destruct (print_first4_frame _ _ _ _ Ep) as (Hh2 & out & Ho2).
    exists (match pres with Ok _ => Ok 0 | Crash f => Crash f end), s2, out, buf.
    split.
    { unfold main_sse. rewrite En. erewrite bind_ok by reflexivity.
      erewrite bind_ok by exact Hrun. cbv beta iota.
      erewrite bind_ok by reflexivity.
      destruct pres as [[]|f].
      - erewrite bind_ok by exact Ep. reflexivity.
      - erewrite bind_crash by exact Ep. reflexivity. }
    rewrite Ho2, Hh2. cbn [add_out st_out st_heap] in *. rewrite Hout.
    split; [reflexivity|]. split; [exact Hl|]. split; [exact Hs|].
    split; [rewrite Hs; unfold sizeof_float; lia|].
    intros i Hi. apply Hnone. lia.
Qed.

(** Runs the theorem applies to: three elements. *)
Lemma fewer_than_four_elements_witness :
  (exists res s' out buf,
     main_simple "a.out" ["3"%string] (boot 1000) = (res, s') /\
     st_out s' = out ++ [time_line_simple (elapsed (st_clock (boot 1000))); using_line 3]
                     ++ st_out (boot 1000) /\
     st_heap s' !! (length (st_heap (boot 1000)) + 2)%nat = Some buf /\
     buf_size buf = sizeof_float * 3 /\ buf_size buf < sizeof_float * 4 /\
     (forall i, 0 <= i < 3 ->
        buf_data buf !! i = Some (f32_add (f32_of_Z i) (f32_of_Z (2 * i)))) /\
     (forall i, 3 <= i -> buf_data buf !! i = None)) /\
  (exists res s' out buf,
     main_sse "a.out" ["3"%string] (boot 1000) = (res, s') /\
     st_out s' = out ++ [time_line_sse (elapsed (st_clock (boot 1000))); using_line 3]
                     ++ st_out (boot 1000) /\
     st_heap s' !! (length (st_heap (boot 1000)) + 2)%nat = Some buf /\
     buf_size buf = sizeof_float * 3 /\ buf_size buf < sizeof_float * 4 /\
     (forall i, 0 <= i -> buf_data buf !! i = None)).
Proof.
  apply (fewer_than_four_elements "a.out" "3" [] 3 (boot 1000)); try reflexivity;
    try (vm_compute; discriminate); lia.
Defined.

(** *** Counts whose byte size does not fit [size_t] *)

Lemma size_wraps n :
  0 <= n -> to_size_t (sizeof_float * n) = sizeof_float * (n mod 2 ^ 62).
Proof.
  intros Hn. unfold to_size_t, SIZE_WIDTH, sizeof_float.
  change (2 ^ 64) with (4 * 2 ^ 62). apply Z.mul_mod_distr_l; lia.
Qed.

(** Allocation and initialisation for a count of [2^62] or more: the byte
    size wraps around, the buffers are too short for the count and the
    initialisation loop faults, whatever the platform grants. *)
Lemma fill_phase_huge n s :
  2 ^ 62 <= n < 2 ^ 64 ->
  exists p1 p2 p3 s0 f s1,
    allocate n s = (Ok (p1, p2, p3), s0) /\
    fill p1 p2 n s0 = (Crash f, s1) /\
    (f = WildPointer \/ f = OutOfBounds) /\
    st_clock s1 = st_clock s /\ st_out s1 = st_out s /\
    st_iter s1 <= st_iter s + n mod 2 ^ 62 + 1.
Proof.
  intros Hn.
  pose proof (allocate_cases n s) as Ha. cbv zeta in Ha.
  rewrite size_wraps in Ha by lia.
  pose proof (Z.mod_pos_bound n (2 ^ 62) ltac:(lia)) as Hm.
  set (m := n mod 2 ^ 62) in *. set (sz := sizeof_float * m) in *.
  destruct (st_avail s <? sz) eqn:E1.
  { eexists _, _, _, _, _, _. split; [exact Ha|]. split.
    { apply fill_wild_first. lia. }
    split; [left; reflexivity|]. cbn. repeat split; lia. }
  destruct (st_avail s - sz <? sz) eqn:E2.
  { apply Z.ltb_ge in E1. apply Z.ltb_lt in E2.
    eexists _, _, _, _, _, _. split; [exact Ha|]. split.
    { apply (fill_wild_second (length (st_heap s))
               (fresh_buffer (round_up (st_brk s) 32) sz) n (grant 32 sz s)).
      - cbn [grant st_heap]. apply list_lookup_middle. reflexivity.
      - cbn. unfold sz, sizeof_float in *. lia.
      - lia. }
    split; [left; reflexivity|]. cbn. repeat split; lia. }
  set (F1 := fresh_buffer (round_up (st_brk s) 32) sz).
  set (F2 := fresh_buffer (round_up (st_brk (grant 32 sz s)) 32) sz).
  destruct (st_avail s - sz - sz <? sz) eqn:E3.
  { destruct (app2_lookup (st_heap s) F1 F2) as (L1 & L2).
    eexists _, _, _, _, _, _. split; [exact Ha|]. split.
    { apply (fill_overrun _ _ F1 F2 n m); try assumption; try reflexivity; lia. }
    split; [right; reflexivity|]. cbn. repeat split; lia. }
  set (F3 := fresh_buffer (round_up (st_brk (grant 32 sz (grant 32 sz s))) 32) sz).
  destruct (app3_lookup (st_heap s) F1 F2 F3) as (L1 & L2 & _).
  eexists _, _, _, _, _, _. split; [exact Ha|]. split.
  { apply (fill_overrun _ _ F1 F2 n m); try assumption; try reflexivity; lia. }
  split; [right; reflexivity|]. cbn. repeat split; lia.
Qed.

Lemma atoll_range str : LLONG_MIN <= atoll str <= LLONG_MAX.
Proof.
  assert (H : forall z, LLONG_MIN <= clamp_llong z <= LLONG_MAX).
  { intros z. unfold clamp_llong, LLONG_MIN, LLONG_MAX. lia. }
  unfold atoll. destruct (skip_space str) as [|c str']; [apply H|].
  destruct c as [[] [] [] [] [] [] [] []]; apply H.
Qed.

(** X16. A count of [2^62] or more, which is what every negative argument
    converts to, has a byte size [sizeof(float)*n] that wraps around
    [size_t]: the drivers request less than the count needs, and whatever
    the platform grants, the initialisation loop faults (through a pointer
    that was never set, or past the end of a buffer that is too short)
    after the first line was printed and before the clock is read. *)
Theorem oversized_count_faults_in_initialisation prog arg rest s :
  atoll arg < 0 \/ 2 ^ 62 <= atoll arg ->
  2 ^ 62 <= to_size_t (atoll arg) /\
  to_size_t (sizeof_float * to_size_t (atoll arg)) < sizeof_float * to_size_t (atoll arg) /\
  (exists f s',
     main_simple prog (arg :: rest) s = (Crash f, s') /\
     (f = WildPointer \/ f = OutOfBounds) /\
     st_clock s' = st_clock s /\
     st_out s' = using_line (to_size_t (atoll arg)) :: st_out s) /\
  (exists f s',
     main_sse prog (arg :: rest) s = (Crash f, s') /\
     (f = WildPointer \/ f = OutOfBounds) /\
     st_clock s' = st_clock s /\
     st_out s' = using_line (to_size_t (atoll arg)) :: st_out s).
Proof.
  intros Harg. pose proof (atoll_range arg) as Hr. unfold LLONG_MIN, LLONG_MAX in Hr.
  pose proof (to_size_t_range (atoll arg)) as Hn.
  assert (Hbig : 2 ^ 62 <= to_size_t (atoll arg)).
  { destruct Harg as [Hneg | Hpos].
    - unfold to_size_t, SIZE_WIDTH.
      rewrite <- (Z.mod_unique (atoll arg) (2 ^ 64) (-1) (2 ^ 64 + atoll arg)); lia.
    - rewrite to_size_t_small; lia. }
  set (n := to_size_t (atoll arg)) in *.
  split; [exact Hbig|]. split.
  { rewrite size_wraps by lia. pose proof (Z.mod_pos_bound n (2 ^ 62) ltac:(lia)).
    unfold sizeof_float. lia. }
  destruct (fill_phase_huge n (add_out (using_line n) s) ltac:(lia))
    as (p1 & p2 & p3 & s0 & f & s1 & Ha & Hf & Hk & Hc & Ho & _).
  split.
  - exists f, s1. split; [|auto].
    unfold main_simple. fold n. erewrite bind_ok by reflexivity. fold (using_line n).
    apply bind_crash. unfold run_scalar.
    rewrite (bind_ok _ _ _ _ _ Ha). apply bind_crash. exact Hf.
  - exists f, s1. split; [|auto].
    unfold main_sse. fold n. erewrite bind_ok by reflexivity. fold (using_line n).
    apply bind_crash. unfold run_vectorized.
    rewrite (bind_ok _ _ _ _ _ Ha). apply bind_crash. exact Hf.
Qed.

(** A run the theorem applies to: the argument [-1]. *)
Lemma oversized_count_faults_in_initialisation_witness :
  2 ^ 62 <= to_size_t (atoll "-1") /\
  to_size_t (sizeof_float * to_size_t (atoll "-1")) < sizeof_float * to_size_t (atoll "-1") /\
  (exists f s',
     main_simple "a.out" ["-1"%string] (boot 1000) = (Crash f, s') /\
     (f = WildPointer \/ f = OutOfBounds) /\
     st_clock s' = st_clock (boot 1000) /\
     st_out s' = using_line (to_size_t (atoll "-1")) :: st_out (boot 1000)) /\
  (exists f s',
     main_sse "a.out" ["-1"%string] (boot 1000) = (Crash f, s') /\
     (f = WildPointer \/ f = OutOfBounds) /\
     st_clock s' = st_clock (boot 1000) /\
     st_out s' = using_line (to_size_t (atoll "-1")) :: st_out (boot 1000)).
Proof.
  apply (oversized_count_faults_in_initialisation "a.out" "-1" [] (boot 1000)).
  left. reflexivity.
Defined.

(** *** The SSE driver never makes a misaligned access *)

Lemma aligned_from_put l0 b buf buf' s :
  aligned_from l0 s -> st_heap s !! b = Some buf -> buf_base buf' = buf_base buf ->
  aligned_from l0 (set_heap (<[b := buf']> (st_heap s)) s).
Proof.
  intros Hs Hb Hbase b' x Hl Hx. cbn in Hx.
  destruct (decide (b' = b)) as [->|Hne].
  - rewrite list_lookup_insert_eq in Hx by (eapply lookup_lt_Some; exact Hb).
    inversion Hx; subst x. rewrite Hbase. apply (Hs b buf Hl Hb).
  - rewrite list_lookup_insert_ne in Hx by congruence. apply (Hs b' x Hl Hx).
Qed.

Lemma store_aligned_from l0 p i v s r s' :
  aligned_from l0 s -> store p i v s = (r, s') ->
  aligned_from l0 s' /\ r <> Crash Misaligned.
Proof.
  intros Hs H. split.
  - apply store_inv in H. destruct H as [-> | (b & buf & _ & Hb & _ & ->)]; [exact Hs|].
    apply (aligned_from_put l0 b buf); auto.
  - destruct r as [u|f]; [discriminate|]. intros E. inversion E; subst f.
    unfold store in H. apply bind_inv in H.
    destruct H as [([b buf] & s1 & _ & H) | (f' & Hd & Hf)].
    + destruct (in_bounds buf i 1); inversion H.
    + apply deref_fault in Hd. inversion Hf; subst. discriminate.
Qed.

Lemma load_not_misaligned p i s f s' : load p i s = (Crash f, s') -> f <> Misaligned.
Proof.
  intros H E. subst f.
  unfold load in H. apply bind_inv in H.
  destruct H as [([b buf] & s1 & _ & H) | (f' & Hd & Hf)].
  - destruct (in_bounds buf i 1); [|inversion H].
    destruct (buf_data buf !! i); inversion H.
  - apply deref_fault in Hd. inversion Hf; subst. discriminate.
Qed.

Lemma mm_load_aligned_from l0 p i s f s' :
  aligned_from l0 s -> from_block l0 p -> i mod 4 = 0 ->
  _mm_load_ps p i s = (Crash f, s') -> f <> Misaligned.
Proof.
  intros Hs Hp Hi H E. subst f.
  unfold _mm_load_ps in H. apply bind_inv in H.
  destruct H as [([b buf] & s1 & Hd & H) | (f' & Hd & Hf)].
  - apply deref_inv in Hd. destruct Hd as (-> & -> & Hl). cbn [fst snd] in *.
    rewrite aligned16_true in H by (try apply (Hs b buf Hp Hl); assumption).
    cbn [negb] in H.
    destruct (negb (in_bounds buf i 4)); [inversion H|].
    destruct (buf_data buf !! i), (buf_data buf !! (i + 1)),
      (buf_data buf !! (i + 2)), (buf_data buf !! (i + 3)); inversion H.
  - apply deref_fault in Hd. inversion Hf; subst. discriminate.
Qed.

Lemma mm_store_aligned_from l0 p i v s r s' :
  aligned_from l0 s -> from_block l0 p -> i mod 4 = 0 ->
  _mm_store_ps p i v s = (r, s') ->
  aligned_from l0 s' /\ r <> Crash Misaligned.
Proof.
  intros Hs Hp Hi H. split.
  - apply mm_store_inv in H. destruct H as [-> | (b & buf & _ & Hb & _ & _ & ->)]; [exact Hs|].
    apply (aligned_from_put l0 b buf); auto.
  - destruct r as [u|f]; [discriminate|]. intros E. inversion E; subst f.
    unfold _mm_store_ps in H. apply bind_inv in H.
    destruct H as [([b buf] & s1 & Hd & H) | (f' & Hd & Hf)].
    + apply deref_inv in Hd. destruct Hd as (-> & -> & Hl). cbn [fst snd] in *.
      rewrite aligned16_true in H by (try apply (Hs b buf Hp Hl); assumption).
      cbn [negb] in H.
      destruct (negb (in_bounds buf i 4)); inversion H.
    + apply deref_fault in Hd. inversion Hf; subst. discriminate.
Qed.

(** A loop whose bodies keep an invariant and never fault in a given way
    does not fault in that way. *)
Lemma for_loop_never (Inv : state -> Prop) (P : Z -> Prop) (bad : fault) cond incr body :
  bad <> OutOfFuel ->
  (forall i, P i -> cond i = true -> P (incr i)) ->
  (forall s, Inv s -> Inv (add_iter 1 s)) ->
  (forall i s r s', P i -> Inv s -> body i s = (r, s') -> Inv s' /\ r <> Crash bad) ->
  forall fuel i s r s',
    P i -> Inv s -> for_loop fuel cond incr body i s = (r, s') ->
    Inv s' /\ r <> Crash bad.
Proof.
  intros Hbad HP Htick Hbody. induction fuel as [|fuel IH]; intros i s r s' Hi Hs Hrun;
    cbn [for_loop] in Hrun; destruct (cond i) eqn:Hc;
    try (inversion Hrun; subst; split; [exact Hs | discriminate]).
  - inversion Hrun; subst. split; [exact Hs | congruence].
  - apply bind_inv in Hrun. destruct Hrun as [(u & s1 & Ht & Hrun) | (f & Ht & _)];
      [|discriminate].
    inversion Ht; subst s1. clear Ht.
    apply bind_inv in Hrun. destruct Hrun as [(u' & s2 & Hb & Hrun) | (f & Hb & Hf)].
    + destruct (Hbody i _ _ _ Hi (Htick s Hs) Hb) as (Hs2 & _).
      apply (IH (incr i) s2 r s'); [apply HP; assumption | exact Hs2 | exact Hrun].
    + destruct (Hbody i _ _ _ Hi (Htick s Hs) Hb) as (Hs2 & Hr). subst r. auto.
Qed.

Lemma fill_aligned_from l0 d1 d2 n s r s' :
  aligned_from l0 s -> fill d1 d2 n s = (r, s') ->
  aligned_from l0 s' /\ r <> Crash Misaligned.
Proof.
  intros Hs H. unfold fill in H.
  refine (for_loop_never (aligned_from l0) (fun _ => True) Misaligned _ _ _
            ltac:(discriminate) (fun _ _ _ => I) (fun _ H => H) _ _ _ _ _ _ I Hs H).
  intros i s1 r1 s2 _ Hs1 Hb. apply bind_inv in Hb.
  destruct Hb as [(u & s3 & Hst & Hb) | (f & Hst & ->)].
  - apply (store_aligned_from l0) in Hst; [|exact Hs1]. destruct Hst as (Hs3 & _).
    apply (store_aligned_from l0) in Hb; [exact Hb | exact Hs3].
  - apply (store_aligned_from l0) in Hst; [exact Hst | exact Hs1].
Qed.

Lemma compute_sse_aligned_from l0 r a b cnt s res s' :
  aligned_from l0 s -> from_block l0 r -> from_block l0 a -> from_block l0 b ->
  compute_sse r a b cnt s = (res, s') ->
  aligned_from l0 s' /\ res <> Crash Misaligned.
Proof.
  intros Hs Hr Ha Hb H. unfold compute_sse in H.
  refine (for_loop_never (aligned_from l0) (fun i => i mod 4 = 0) Misaligned _ _ _
            ltac:(discriminate) _ (fun _ H => H) _ _ 0 _ _ _ (eq_refl : 0 mod 4 = 0) Hs H).
  - intros i Hi _. unfold to_size_t, SIZE_WIDTH.
    rewrite Z.mod_mod_divide by (exists (2 ^ 62); reflexivity).
    rewrite Z.add_mod, Hi by lia. reflexivity.
  - intros i s1 r1 s2 Hi Hs1 Hbody. apply bind_inv in Hbody.
    destruct Hbody as [(x & s3 & Hx & Hbody) | (f & Hx & ->)].
    2:{ pose proof (mm_load_state _ _ _ _ _ Hx) as ->. split; [exact Hs1|].
        intros E. inversion E; subst f.
        apply (mm_load_aligned_from l0 a i s1 _ _ Hs1 Ha Hi Hx). reflexivity. }
    pose proof (mm_load_state _ _ _ _ _ Hx) as ->.
    apply bind_inv in Hbody.
    destruct Hbody as [(y & s4 & Hy & Hbody) | (f & Hy & ->)].
    2:{ pose proof (mm_load_state _ _ _ _ _ Hy) as ->. split; [exact Hs1|].
        intros E. inversion E; subst f.
        apply (mm_load_aligned_from l0 b i s1 _ _ Hs1 Hb Hi Hy). reflexivity. }
    pose proof (mm_load_state _ _ _ _ _ Hy) as ->.
    cbv zeta in Hbody.
    apply (mm_store_aligned_from l0 r i _ s1 _ _ Hs1 Hr Hi Hbody).
Qed.

Lemma round_up_32_mod16 x : round_up x 32 mod 16 = 0.
Proof.
  unfold round_up. replace ((x + 32 - 1) / 32 * 32)
    with ((x + 32 - 1) / 32 * 2 * 16) by ring. apply Z.mod_mul. lia.
Qed.

Lemma grant_aligned_from l0 size s :
  aligned_from l0 s -> aligned_from l0 (grant 32 size s).
Proof.
  intros Hs b buf Hl Hb. cbn [grant st_heap] in Hb.
  apply lookup_app_Some in Hb. destruct Hb as [Hb | (_ & Hb)].
  - apply (Hs b buf Hl Hb).
  - apply list_lookup_singleton_Some in Hb. destruct Hb as (_ & <-).
    apply round_up_32_mod16.
Qed.

(** The pointers [allocate] hands out are unset or point to blocks that are
    new and start on a multiple of 16. *)
Lemma allocate_aligned_from n s p1 p2 p3 s0 :
  allocate n s = (Ok (p1, p2, p3), s0) ->
  aligned_from (length (st_heap s)) s0 /\
  from_block (length (st_heap s)) p1 /\ from_block (length (st_heap s)) p2 /\
  from_block (length (st_heap s)) p3.
Proof.
  assert (H0 : aligned_from (length (st_heap s)) s).
  { intros b buf Hl Hb. apply lookup_lt_Some in Hb. lia. }
  rewrite allocate_cases. cbv zeta.
  destruct (_ <? _); [intros H; inversion H; subst; cbn; auto|].
  destruct (_ <? _); [intros H; inversion H; subst; cbn; split;
    [apply grant_aligned_from; exact H0 | auto]|].
  destruct (_ <? _); [intros H; inversion H; subst; cbn; split;
    [do 2 apply grant_aligned_from; exact H0 | repeat split; lia]|].
  intros H; inversion H; subst. split.
  - intros b buf Hl Hb. cbn [granted3 st_heap] in Hb.
    apply lookup_app_Some in Hb. destruct Hb as [Hb | (_ & Hb)]; [apply (H0 b buf Hl Hb)|].
    destruct (b - length (st_heap s))%nat as [|[|[|k]]]; cbn in Hb; inversion Hb; subst;
      apply round_up_32_mod16.
  - cbn. repeat split; lia.
Qed.

(** X17. The alignment the drivers ask for, 32, is one [posix_memalign]
    accepts, and it is enough for the SSE kernel: whatever the arguments,
    the platform and the outcome, the SSE driver never faults on an aligned
    load or store. *)
Theorem sse_driver_never_misaligned prog args s :
  valid_alignment 32 = true /\
  fst (main_sse prog args s) <> Crash Misaligned.
Proof.
  split; [reflexivity|].
  destruct (main_sse prog args s) as [res s'] eqn:E. cbn [fst].
  destruct args as [|arg rest]; [inversion E; discriminate|].
  unfold main_sse in E. set (n := to_size_t (atoll arg)) in *.
  apply bind_inv in E. destruct E as [(u & s0 & H0 & E) | (f & H0 & _)]; [|discriminate].
  apply bind_inv in E. destruct E as [([d r] & s1 & Hrun & E) | (f & Hrun & ->)].
  - apply bind_inv in E. destruct E as [(u1 & s2 & H1 & E) | (f & H1 & _)]; [|discriminate].
    apply bind_inv in E. destruct E as [(u2 & s3 & H2 & E) | (f & H2 & ->)].
    + inversion E. discriminate.
    + unfold print_first4 in H2.
      repeat (apply bind_inv in H2;
        destruct H2 as [(? & ? & _ & H2) | (? & H2 & Hf)];
        [| inversion Hf; subst; intros E; inversion E; subst;
           apply (load_not_misaligned _ _ _ _ _ H2); reflexivity]).
      inversion H2.
  - unfold run_vectorized in Hrun.
    apply bind_inv in Hrun. destruct Hrun as [([[p1 p2] p3] & t0 & Ha & Hrun) | (f' & Ha & Hf)].
    2:{ rewrite allocate_cases in Ha. cbv zeta in Ha.
        repeat (destruct (_ <? _) in Ha; [discriminate|]). discriminate. }
    destruct (allocate_aligned_from _ _ _ _ _ _ Ha) as (Hal & F1 & F2 & F3).
    apply bind_inv in Hrun. destruct Hrun as [(u1 & t1 & Hf & Hrun) | (f' & Hf & Hx)].
    2:{ inversion Hx; subst. intros E. inversion E; subst.
        destruct (fill_aligned_from _ _ _ _ _ _ _ Hal Hf) as (_ & Hne).
        apply Hne. reflexivity. }
    apply (fill_aligned_from _ _ _ _ _ _ _ Hal) in Hf. destruct Hf as (Hal1 & _).
    apply bind_inv in Hrun. destruct Hrun as [(st & t2 & Ht & Hrun) | (f' & Ht & Hx)];
      [|discriminate].
    assert (Hal2 : aligned_from (length (st_heap s0)) t2).
    { rewrite get_timestamp_eq in Ht. inversion Ht; subst. exact Hal1. }
    apply bind_inv in Hrun. destruct Hrun as [(u2 & t3 & Hc & Hrun) | (f' & Hc & Hx)].
    + apply bind_inv in Hrun. destruct Hrun as [(st' & t4 & Ht' & Hrun) | (f' & Ht' & Hx)];
        discriminate.
    + inversion Hx; subst. intros E. inversion E; subst.
      destruct (compute_sse_aligned_from _ _ _ _ _ _ _ _ Hal2 F3 F1 F2 Hc) as (_ & Hne).
      apply Hne. reflexivity.
Qed.
